(** * Journal persistence and reconciliation (js/journal.js)

    A shallow embedding of the journal module of the application: the
    in-memory collections [userJournals] and [allJournals], the
    [localStorage] fallback store, the static [SAMPLE_JOURNALS], the
    translation cache, and the handlers that create, update, delete, merge
    and search journals.

    Conventions of the embedding.
    - A handler is a function from the module state to the new state and the
      list of effects it issued, in order ([Event]): calls to the remote
      document store, writes to [localStorage], diagnostics on the console
      ([console.error], [console.warn]) and user-visible messages
      ([showMessage]).  Informational [console.log] calls are not recorded.
    - The result of an awaited remote call is an argument of the handler
      (a [Race] or a [Reply]): the handler is the code that runs before the
      call together with the code that runs once the call has settled, with
      no other handler interleaved.
    - [new Date()] and [Date.now()] evaluated during one handler call are
      one instant [now : Z]; timestamps are opaque comparable instants.
    - Strings are byte strings; [toLowerCase] and [trim] act on the ASCII
      letters and ASCII white space.
    - The rendered HTML is the list of cards it shows ([View]); theme, date
      and read-time decorations are left out. *)

From Stdlib Require Import ZArith Ascii String DecimalString.
From stdpp Require Import base option list strings gmap.

Local Open Scope Z_scope.
Local Open Scope string_scope.
Local Open Scope list_scope.

(** ** String primitives of the source *)

(** [s.startsWith(p)] *)
Definition startsWith (s p : string) : bool := String.prefix p s.

(** [s.includes(t)] *)
Fixpoint includes (s t : string) : bool :=
  String.prefix t s ||
  match s with
  | EmptyString => false
  | String _ s' => includes s' t
  end.

Definition lowerAscii (c : ascii) : ascii :=
  let n := nat_of_ascii c in
  if (Nat.leb 65 n && Nat.leb n 90)%bool then ascii_of_nat (n + 32) else c.

(** [s.toLowerCase()] *)
Fixpoint toLowerCase (s : string) : string :=
  match s with
  | EmptyString => EmptyString
  | String c s' => String (lowerAscii c) (toLowerCase s')
  end.

Definition isSpace (c : ascii) : bool :=
  let n := nat_of_ascii c in
  (Nat.eqb n 32 || (Nat.leb 9 n && Nat.leb n 13))%bool.

Fixpoint trimStart (s : string) : string :=
  match s with
  | EmptyString => EmptyString
  | String c s' => if isSpace c then trimStart s' else s
  end.

(** Drops trailing white space: a character is kept when something that is
    kept follows it, or when it is not white space. *)
Fixpoint trimEnd (s : string) : string :=
  match s with
  | EmptyString => EmptyString
  | String c s' =>
      match trimEnd s' with
      | EmptyString => if isSpace c then EmptyString else String c EmptyString
      | r => String c r
      end
  end.

(** [s.trim()] *)
Definition trim (s : string) : string := trimEnd (trimStart s).

(** [s.split(',')]: the pieces between commas; the inner accumulator holds
    the current piece reversed. *)
Fixpoint splitAcc (acc : string) (s : string) : list string :=
  match s with
  | EmptyString => [String.rev acc]
  | String c s' =>
      if Ascii.eqb c ","%char then String.rev acc :: splitAcc EmptyString s'
      else splitAcc (String c acc) s'
  end.

Definition splitComma (s : string) : list string := splitAcc EmptyString s.

(** A JS string is truthy when it is not empty. *)
Definition truthy (s : string) : bool := negb (String.eqb s "").

(** [tagsInput ? tagsInput.split(',').map(tag => tag.trim()).filter(tag => tag) : []] *)
Definition parseTags (tagsInput : string) : list string :=
  if truthy tagsInput
  then List.filter truthy (List.map trim (splitComma tagsInput))
  else [].

(** Decimal rendering of a number inside a string concatenation. *)
Definition showZ (z : Z) : string := NilZero.string_of_int (Z.to_int z).

(** ** Data model *)

Module Translation.
Record t := mk {
  title : string;
  content : string;
  tags : list string
}.
End Translation.

Module Journal.
Record t := mk {
  id : string;
  userId : option string;          (* [None]: the field is absent *)
  title : string;
  content : string;
  tags : list string;
  createdAt : Z;
  updatedAt : option Z;            (* samples carry no [updatedAt] *)
  translations : option (gmap string Translation.t)
}.
End Journal.

Record User := { uid : string }.

(** What [JSON.parse(localStorage.getItem(key) || dflt)] meets under a key:
    nothing or the empty string (the default is parsed), text that
    [JSON.parse] rejects, or the value the module itself serialised there.
    Only the module writes these keys, so a text that parses to anything
    else than such a value is not part of the model.  Serialising a record
    and parsing it back is the identity on the fields kept here. *)
Inductive Item (A : Type) : Type :=
| Absent
| Unparseable
| Parsed (a : A).
Arguments Absent {A}.
Arguments Unparseable {A}.
Arguments Parsed {A} a.

Record LocalStorage := {
  localJournals : Item (list Journal.t);
  journalTranslations : Item (gmap string (gmap string Translation.t))
}.

(** [JSON.parse(item || dflt)]: [None] stands for the thrown [SyntaxError]. *)
Definition jsonParse {A : Type} (dflt : A) (it : Item A) : option A :=
  match it with
  | Absent => Some dflt
  | Unparseable => None
  | Parsed a => Some a
  end.

(** A shown card of the journal list. *)
Record Card := {
  card_id : string;
  card_title : string;
  card_content : string;
  card_tags : list string;
  card_ownerBadge : bool;          (* "Your Post" *)
  card_actions : bool              (* edit and delete buttons; otherwise "Read only" *)
}.

Inductive View :=
| NoJournalsYet
| NoJournalsFound
| Cards (cs : list Card).

Inductive Level := LError | LWarn.

Inductive Event :=
| Console (lvl : Level) (msg : string)
| ShowMessage (msg : string) (type : string)
| StorageSetItem (key : string)
| RemoteAddDoc (userId title content : string) (tags : list string) (timeoutMs : Z)
| RemoteUpdateJournal (id title content : string) (tags : list string) (timeoutMs : Z)
| RemoteUpdateDoc (id : string) (translations : gmap string Translation.t)
| RemoteDeleteDoc (id : string)
| RemoteGetDocs (owner : option string).

(** Whether an effect asks the remote store to change a document. *)
Definition isRemoteWrite (e : Event) : bool :=
  match e with
  | RemoteAddDoc _ _ _ _ _ | RemoteUpdateJournal _ _ _ _ _
  | RemoteUpdateDoc _ _ | RemoteDeleteDoc _ => true
  | _ => false
  end.

Definition isStorageWrite (e : Event) : bool :=
  match e with
  | StorageSetItem _ => true
  | _ => false
  end.

(** How [Promise.race([call, timeout])] settles. *)
Inductive Race (A : Type) : Type :=
| Settled (a : A)
| Rejected (msg : string)
| TimedOut.
Arguments Settled {A} a.
Arguments Rejected {A} msg.
Arguments TimedOut {A}.

(** How an awaited call without a timeout settles. *)
Inductive Reply (A : Type) : Type :=
| Ok (a : A)
| Failed (msg : string).
Arguments Ok {A} a.
Arguments Failed {A} msg.

(** The object [updateJournal] resolves to. *)
Record UpdateResult := { success : bool; error : string }.

Record Form := {
  journalId : string;
  journalTitle : string;
  journalContent : string;
  journalTags : string
}.

Definition emptyForm : Form :=
  {| journalId := ""; journalTitle := ""; journalContent := ""; journalTags := "" |}.

Record State := {
  currentUser : option User;
  userJournals : list Journal.t;
  allJournals : list Journal.t;
  localStorage : LocalStorage;
  journalsContainer : option View;      (* [None]: the element is missing *)
  currentLanguage : option string;      (* [window.accessibilityState?.currentLanguage] *)
  searchInput : option string;          (* value of the search box, when present *)
  filterSelect : option string;         (* value of the order selector, when present *)
  form : Form
}.

Definition setUserJournals (js : list Journal.t) (st : State) : State :=
  {| currentUser := currentUser st; userJournals := js;
     allJournals := allJournals st; localStorage := localStorage st;
     journalsContainer := journalsContainer st;
     currentLanguage := currentLanguage st; searchInput := searchInput st;
     filterSelect := filterSelect st; form := form st |}.

Definition setAllJournals (js : list Journal.t) (st : State) : State :=
  {| currentUser := currentUser st; userJournals := userJournals st;
     allJournals := js; localStorage := localStorage st;
     journalsContainer := journalsContainer st;
     currentLanguage := currentLanguage st; searchInput := searchInput st;
     filterSelect := filterSelect st; form := form st |}.

Definition setLocalStorage (ls : LocalStorage) (st : State) : State :=
  {| currentUser := currentUser st; userJournals := userJournals st;
     allJournals := allJournals st; localStorage := ls;
     journalsContainer := journalsContainer st;
     currentLanguage := currentLanguage st; searchInput := searchInput st;
     filterSelect := filterSelect st; form := form st |}.

Definition setCurrentUser (u : option User) (st : State) : State :=
  {| currentUser := u; userJournals := userJournals st;
     allJournals := allJournals st; localStorage := localStorage st;
     journalsContainer := journalsContainer st;
     currentLanguage := currentLanguage st; searchInput := searchInput st;
     filterSelect := filterSelect st; form := form st |}.

Definition setForm (f : Form) (st : State) : State :=
  {| currentUser := currentUser st; userJournals := userJournals st;
     allJournals := allJournals st; localStorage := localStorage st;
     journalsContainer := journalsContainer st;
     currentLanguage := currentLanguage st; searchInput := searchInput st;
     filterSelect := filterSelect st; form := f |}.

(** The search box and the order selector as the user left them. *)
Definition setSearch (term order : option string) (st : State) : State :=
  {| currentUser := currentUser st; userJournals := userJournals st;
     allJournals := allJournals st; localStorage := localStorage st;
     journalsContainer := journalsContainer st;
     currentLanguage := currentLanguage st; searchInput := term;
     filterSelect := order; form := form st |}.

(** [journalsContainer.innerHTML = ...] *)
Definition setInnerHTML (v : View) (st : State) : State :=
  {| currentUser := currentUser st; userJournals := userJournals st;
     allJournals := allJournals st; localStorage := localStorage st;
     journalsContainer := Some v;
     currentLanguage := currentLanguage st; searchInput := searchInput st;
     filterSelect := filterSelect st; form := form st |}.

Definition setLocalJournals (it : Item (list Journal.t)) (ls : LocalStorage) : LocalStorage :=
  {| localJournals := it; journalTranslations := journalTranslations ls |}.

Definition setJournalTranslations
    (it : Item (gmap string (gmap string Translation.t))) (ls : LocalStorage) : LocalStorage :=
  {| localJournals := localJournals ls; journalTranslations := it |}.

(** [{ ...journal, updatedAt: new Date() }] *)
Definition withUpdatedAt (now : Z) (j : Journal.t) : Journal.t :=
  Journal.mk (Journal.id j) (Journal.userId j) (Journal.title j) (Journal.content j)
    (Journal.tags j) (Journal.createdAt j) (Some now) (Journal.translations j).

(** [{ ...journal, title, content, tags, updatedAt: new Date() }] *)
Definition withFields (title content : string) (tags : list string) (now : Z)
    (j : Journal.t) : Journal.t :=
  Journal.mk (Journal.id j) (Journal.userId j) title content tags
    (Journal.createdAt j) (Some now) (Journal.translations j).

Definition withTranslations (m : gmap string Translation.t) (j : Journal.t) : Journal.t :=
  Journal.mk (Journal.id j) (Journal.userId j) (Journal.title j) (Journal.content j)
    (Journal.tags j) (Journal.createdAt j) (Journal.updatedAt j) (Some m).

(** [{ id, title, content, tags, userId: currentUser.uid,
       createdAt: new Date(), updatedAt: new Date() }] *)
Definition freshRecord (jid : string) (u : User) (title content : string)
    (tags : list string) (now : Z) : Journal.t :=
  Journal.mk jid (Some (uid u)) title content tags now (Some now) None.

(** [list.findIndex(j => j.id === jid)] *)
Definition findIndex (jid : string) (js : list Journal.t) : option nat :=
  fst <$> list_find (λ j, Journal.id j = jid) js.

(** [const i = list.findIndex(j => j.id === jid);
     if (i >= 0) list[i] = { ...list[i], title, content, tags, updatedAt }] *)
Definition updateInPlace (jid title content : string) (tags : list string) (now : Z)
    (js : list Journal.t) : list Journal.t :=
  match findIndex jid js with
  | Some i => alter (withFields title content tags now) i js
  | None => js
  end.

(** [const i = list.findIndex(j => j.id === jid); if (i >= 0) list.splice(i, 1)] *)
Definition spliceById (jid : string) (js : list Journal.t) : list Journal.t :=
  match findIndex jid js with
  | Some i => delete i js
  | None => js
  end.

(** [list.filter(j => j.id !== jid)] *)
Definition removeById (jid : string) (js : list Journal.t) : list Journal.t :=
  List.filter (λ j, negb (String.eqb (Journal.id j) jid)) js.

(** ** Fallback store *)

(** [saveJournalToLocalStorage(journal)]: the whole body is guarded, a
    failing parse is logged and nothing is written. *)
Definition saveJournalToLocalStorage (now : Z) (journal : Journal.t) (ls : LocalStorage)
    : LocalStorage * list Event :=
  match jsonParse [] (localJournals ls) with
  | None => (ls, [Console LError "Failed to save journal to localStorage:"])
  | Some stored =>
      let stored' :=
        match findIndex (Journal.id journal) stored with
        | Some i => <[i := withUpdatedAt now journal]> stored
        | None => stored ++ [journal]
        end in
      (setLocalJournals (Parsed stored') ls, [StorageSetItem "localJournals"])
  end.

(** [saveTranslationToLocalStorage(journalId, lang, translation)] *)
Definition saveTranslationToLocalStorage (jid lang : string) (tr : Translation.t)
    (ls : LocalStorage) : LocalStorage * list Event :=
  match jsonParse ∅ (journalTranslations ls) with
  | None => (ls, [Console LError "Failed to save translation to localStorage:"])
  | Some m =>
      let entry := default ∅ (m !! jid) in
      (setJournalTranslations (Parsed (<[jid := <[lang := tr]> entry]> m)) ls,
       [StorageSetItem "journalTranslations"])
  end.

(** ** Translation cache *)

Definition upperAscii (c : ascii) : ascii :=
  let n := nat_of_ascii c in
  if (Nat.leb 97 n && Nat.leb n 122)%bool then ascii_of_nat (n - 32) else c.

Fixpoint toUpperCase (s : string) : string :=
  match s with
  | EmptyString => EmptyString
  | String c s' => String (upperAscii c) (toUpperCase s')
  end.

(** The [placeholders] table of [translateText]: the row of every source
    language lists these markers, its own language left out. *)
Definition markers : list (string * string) :=
  [("en", "[EN] "); ("es", "[ES] "); ("fr", "[FR] "); ("de", "[DE] ");
   ("zh", "[ZH] "); ("ja", "[JA] "); ("bn", "[BN] "); ("hi", "[HI] ");
   ("pt", "[PT] ")].

Fixpoint assoc (k : string) (l : list (string * string)) : option string :=
  match l with
  | [] => None
  | (k', v) :: l' => if String.eqb k k' then Some v else assoc k l'
  end.

(** [placeholders[fromLang]?.[toLang]] *)
Definition placeholders (fromLang toLang : string) : option string :=
  match assoc fromLang markers with
  | None => None
  | Some _ => if String.eqb fromLang toLang then None else assoc toLang markers
  end.

(** [translateText(text, fromLang, toLang)] *)
Definition translateText (text fromLang toLang : string) : string :=
  if (negb (truthy text) || String.eqb fromLang toLang)%bool then text
  else
    let prefix :=
      match placeholders fromLang toLang with
      | Some p => p
      | None => "[" +:+ toUpperCase toLang +:+ "] "
      end in
    prefix +:+ text.

(** [x || 'en'] on [window.accessibilityState?.currentLanguage] *)
Definition activeLanguage (lang : option string) : string :=
  match lang with
  | Some l => if truthy l then l else "en"
  | None => "en"
  end.

(** [journal.translations && journal.translations[lang]] *)
Definition cached (j : Journal.t) (lang : string) : option Translation.t :=
  Journal.translations j ≫= (λ m, m !! lang).

(** [translateJournal(journal, targetLang)].  [reply] is how the remote
    [updateDoc] settles, when it is issued. *)
Definition translateJournal (reply : Reply unit) (lang : option string)
    (journal : Journal.t) (targetLang : string) (ls : LocalStorage)
    : Journal.t * LocalStorage * list Event :=
  let currentLang := activeLanguage lang in
  if (String.eqb currentLang targetLang || startsWith (Journal.id journal) "sample-")%bool
  then (journal, ls, [])
  else
    let table := default ∅ (Journal.translations journal) in
    match table !! targetLang with
    | Some _ => (withTranslations table journal, ls, [])
    | None =>
        let tr :=
          Translation.mk
            (translateText (Journal.title journal) currentLang targetLang)
            (translateText (Journal.content journal) currentLang targetLang)
            (List.map (λ tag, translateText tag currentLang targetLang)
               (Journal.tags journal)) in
        let table' := <[targetLang := tr]> table in
        let journal' := withTranslations table' journal in
        if (negb (startsWith (Journal.id journal) "local-")
            && negb (startsWith (Journal.id journal) "sample-"))%bool
        then
          match reply with
          | Ok _ => (journal', ls, [RemoteUpdateDoc (Journal.id journal) table'])
          | Failed _ =>
              let '(ls', ev) :=
                saveTranslationToLocalStorage (Journal.id journal) targetLang tr ls in
              (journal', ls',
               RemoteUpdateDoc (Journal.id journal) table'
               :: Console LWarn "Failed to save translation to Firestore:" :: ev)
          end
        else if startsWith (Journal.id journal) "local-"
        then
          let '(ls', ev) :=
            saveTranslationToLocalStorage (Journal.id journal) targetLang tr ls in
          (journal', ls', ev)
        else (journal', ls, [])
    end.

(** ** Card decorations, the store configuration and the network module *)

Definition CARD_THEMES : list string :=
  ["linear-gradient(135deg, #667eea 0%, #764ba2 100%)";
   "linear-gradient(135deg, #f093fb 0%, #f5576c 100%)";
   "linear-gradient(135deg, #4facfe 0%, #00f2fe 100%)";
   "linear-gradient(135deg, #43e97b 0%, #38f9d7 100%)";
   "linear-gradient(135deg, #fa709a 0%, #fee140 100%)";
   "linear-gradient(135deg, #a8edea 0%, #fed6e3 100%)";
   "linear-gradient(135deg, #ff9a9e 0%, #fecfef 100%)";
   "linear-gradient(135deg, #ffecd2 0%, #fcb69f 100%)"].

(** [ToInt32]: the operand of a bitwise operator, reduced modulo 2^32 into
    the signed range. *)
Definition toInt32 (z : Z) : Z :=
  let m := z mod 4294967296 in
  if (m <? 2147483648)%Z then m else m - 4294967296.

(** [char.charCodeAt(0) + ((acc << 5) - acc)]; the sum and the difference
    are taken on numbers, only the shift wraps. *)
Definition hashStep (acc : Z) (c : ascii) : Z :=
  Z.of_nat (nat_of_ascii c) + (toInt32 (Z.shiftl (toInt32 acc) 5) - acc).

(** [journalId.split('').reduce(..., 0)] *)
Fixpoint hashFrom (acc : Z) (s : string) : Z :=
  match s with
  | EmptyString => acc
  | String c s' => hashFrom (hashStep acc c) s'
  end.

(** [getThemeForJournal(journalId, index)]; [None] stands for [undefined].
    The accumulator stays an exact number for any id shorter than two
    million characters. *)
Definition getThemeForJournal (journalId : string) (index : nat) : option string :=
  if (truthy journalId && negb (startsWith journalId "sample-"))%bool
  then CARD_THEMES !! Z.to_nat (Z.abs (hashFrom 0 journalId) mod Z.of_nat (length CARD_THEMES))
  else CARD_THEMES !! (index mod length CARD_THEMES)%nat.

(** The runs of white space met in [s]; [inRun] tells whether the previous
    character was white space. *)
Fixpoint whitespaceRuns (inRun : bool) (s : string) : nat :=
  match s with
  | EmptyString => 0
  | String c s' =>
      if isSpace c
      then ((if inRun then 0 else 1) + whitespaceRuns true s')%nat
      else whitespaceRuns false s'
  end.

(** [content.split(/\s+/).length]: one piece more than there are runs. *)
Definition splitWhitespaceLength (s : string) : nat := S (whitespaceRuns false s).

(** [getReadTime(content)]; [Math.ceil(wordCount / 200)] on a whole count. *)
Definition getReadTime (content : string) : string :=
  let wordCount := if truthy content then Z.of_nat (splitWhitespaceLength content) else 0 in
  let minutes := (wordCount + 199) / 200 in
  if (minutes <? 1)%Z then "1 min read" else showZ minutes +:+ " min read".


(** ** Network status module *)

Definition SPEED_THRESHOLDS : list (string * (Z * string)) :=
  [("excellent", (1000, "#28a745")); ("good", (500, "#20c997"));
   ("fair", (200, "#ffc107")); ("slow", (50, "#fd7e14"));
   ("verySlow", (0, "#dc3545"))].

(** [SPEED_THRESHOLDS[quality]] *)
Fixpoint threshold (q : string) (l : list (string * (Z * string))) : option (Z * string) :=
  match l with
  | [] => None
  | (k, v) :: l' => if String.eqb q k then Some v else threshold q l'
  end.

(** [SPEED_THRESHOLDS.<q>.min] *)
Definition thresholdMin (q : string) : Z := default 0 (fst <$> threshold q SPEED_THRESHOLDS).

(** [getConnectionQuality(speed)] *)
Definition getConnectionQuality (speed : Z) : string :=
  if (thresholdMin "excellent" <=? speed)%Z then "excellent"
  else if (thresholdMin "good" <=? speed)%Z then "good"
  else if (thresholdMin "fair" <=? speed)%Z then "fair"
  else if (thresholdMin "slow" <=? speed)%Z then "slow"
  else "verySlow".

(** [estimateSpeedFromLatency(latency)]; [floorRandom n] is the value of
    [Math.floor(Math.random() * n)] drawn by the call. *)
Definition estimateSpeedFromLatency (floorRandom : Z → Z) (latency : Z) : Z :=
  if (latency <? 50)%Z then floorRandom 2000 + 2000
  else if (latency <? 100)%Z then floorRandom 1000 + 1000
  else if (latency <? 200)%Z then floorRandom 500 + 500
  else if (latency <? 500)%Z then floorRandom 200 + 200
  else floorRandom 100 + 50.

(** What [measureDownloadSpeed()] resolves to: the rounded measurement
    clamped by [Math.min(Math.max(speedKbps, 0), 10000)], or the estimate
    from a fresh latency when the test image fails or times out. *)
Definition measureDownloadSpeed (floorRandom : Z → Z) (measured : Reply Z)
    (fallbackLatency : Z) : Z :=
  match measured with
  | Ok speedKbps => Z.min (Z.max speedKbps 0) 10000
  | Failed _ => estimateSpeedFromLatency floorRandom fallbackLatency
  end.

Module NetworkStatus.
Record t := mk {
  status : string;
  quality : string;
  speed : Z;
  latency : Z
}.
End NetworkStatus.

(** The indicator element as [createNetworkIndicator] builds it: its
    classes, the [active] flag of its four signal bars, the text and colour
    of the quality label and the ARIA label.  It has no [.network-speed]
    child, so [updateNetworkStatus] never finds one. *)
Record Indicator := {
  classList : list string;
  signalBars : list bool;
  qualityText : string;
  qualityColor : string;
  ariaLabel : option string
}.

(** An entry of the [pendingSync] object. *)
Record Pending := { pendingData : string; pendingTimestamp : Z }.

Record NetState := {
  onLine : bool;                          (* [navigator.onLine] *)
  networkIndicator : option Indicator;
  networkStatus : option NetworkStatus.t; (* [window.networkStatus] *)
  pendingSync : Item (gmap string Pending)
}.

Definition setIndicator (i : option Indicator) (ns : NetState) : NetState :=
  {| onLine := onLine ns; networkIndicator := i;
     networkStatus := networkStatus ns; pendingSync := pendingSync ns |}.

Definition setPendingSync (p : Item (gmap string Pending)) (ns : NetState) : NetState :=
  {| onLine := onLine ns; networkIndicator := networkIndicator ns;
     networkStatus := networkStatus ns; pendingSync := p |}.

(** [createNetworkIndicator()]: a new element, or the existing one with
    its class and content replaced (its attributes stay). *)
Definition createNetworkIndicator (ns : NetState) : NetState :=
  setIndicator
    (Some {| classList := ["network-indicator"];
             signalBars := [false; false; false; false];
             qualityText := "Checking...";
             qualityColor := "";
             ariaLabel := networkIndicator ns ≫= ariaLabel |}) ns.

(** [classList.add(c)] *)
Definition classAdd (c : string) (l : list string) : list string :=
  if existsb (String.eqb c) l then l else l ++ [c].

(** [classList.remove(...cs)] *)
Definition classRemove (cs : list string) (l : list string) : list string :=
  List.filter (λ c, negb (existsb (String.eqb c) cs)) l.

(** The [switch (quality)] of [updateNetworkStatus]. *)
Definition activeBarsFor (quality : string) : nat :=
  if String.eqb quality "excellent" then 4
  else if String.eqb quality "good" then 3
  else if String.eqb quality "fair" then 2
  else if String.eqb quality "slow" then 1
  else 0.

(** [quality.charAt(0).toUpperCase() + quality.slice(1)] *)
Definition capitalize (s : string) : string :=
  match s with
  | EmptyString => EmptyString
  | String c s' => String (upperAscii c) s'
  end.

(** [formatSpeed(speed)]; [toFixed1 speed] stands for the floating-point
    rendering [(speed / 1000).toFixed(1)]. *)
Definition formatSpeed (toFixed1 : Z → string) (speed : Z) : string :=
  if (1000 <=? speed)%Z then toFixed1 speed +:+ " Mbps" else showZ speed +:+ " kbps".

(** [bar.classList.toggle('active', index < activeBars)] over the bars. *)
Definition toggleBars (n : nat) (bars : list bool) : list bool :=
  imap (λ index _, bool_decide (index < n)%nat) bars.

(** [updateNetworkStatus(status, quality, speed, latency)] *)
Definition updateNetworkStatus (toFixed1 : Z → string) (status quality : string)
    (speed latency : Z) (ns : NetState) : NetState :=
  match networkIndicator ns with
  | None => ns
  | Some ind =>
      let classes :=
        classRemove ["online"; "offline"; "excellent"; "good"; "fair"; "slow"; "verySlow"]
          (classList ind) in
      let classes := classAdd status classes in
      let classes := if truthy quality then classAdd quality classes else classes in
      let offline := String.eqb status "offline" in
      {| onLine := onLine ns;
         networkIndicator :=
           Some {| classList := classes;
                   signalBars := toggleBars (activeBarsFor quality) (signalBars ind);
                   qualityText :=
                     if offline then "Offline"
                     else if (0 <? speed)%Z then capitalize quality else "Checking...";
                   qualityColor :=
                     if offline then ""
                     else default "#6c757d" (snd <$> threshold quality SPEED_THRESHOLDS);
                   ariaLabel :=
                     Some (if offline then "Offline"
                           else quality +:+ " connection - " +:+ formatSpeed toFixed1 speed) |};
         networkStatus := Some (NetworkStatus.mk status quality speed latency);
         pendingSync := pendingSync ns |}
  end.

(** [syncPendingData()]: it awaits nothing, so it runs to its end when
    called. *)
Definition syncPendingData (ns : NetState) : NetState * list Event :=
  match pendingSync ns with
  | Absent => (ns, [])
  | Unparseable => (ns, [Console LError "Error syncing data:"])
  | Parsed _ => (setPendingSync Absent ns, [ShowMessage "Syncing your data..." "info"])
  end.

(** The property names a plain object inherits from [Object.prototype].
    Reading one of them from an object without an own property of that name
    yields the inherited member, and assigning to [__proto__] on such an
    object replaces its prototype instead of adding a property.  The maps
    of the model hold the own properties, which are what is serialised. *)
Definition inheritedNames : list string :=
  ["__proto__"; "constructor"; "hasOwnProperty"; "isPrototypeOf";
   "propertyIsEnumerable"; "toLocaleString"; "toString"; "valueOf";
   "__defineGetter__"; "__defineSetter__"; "__lookupGetter__"; "__lookupSetter__"].

Definition inherited (key : string) : bool := existsb (String.eqb key) inheritedNames.

(** [parsed[key] = entry] on the object that [JSON.parse] returned. *)
Definition assign {A : Type} (key : string) (entry : A) (parsed : gmap string A)
    : gmap string A :=
  match parsed !! key with
  | None => if String.eqb key "__proto__" then parsed else <[key := entry]> parsed
  | Some _ => <[key := entry]> parsed
  end.

(** [queueForSync(key, data)] *)
Definition queueForSync (now : Z) (key data : string) (ns : NetState)
    : NetState * list Event :=
  match jsonParse ∅ (pendingSync ns) with
  | None => (ns, [Console LError "Error queuing data for sync:"])
  | Some parsed =>
      (setPendingSync
         (Parsed (assign key {| pendingData := data; pendingTimestamp := now |} parsed)) ns,
       [StorageSetItem "pendingSync"])
  end.

(** [monitorConnectionSpeed()] once its two measurements have settled;
    neither of them rejects, so the [catch] of the function is not
    reached. *)
Definition monitorSettled (toFixed1 : Z → string) (latency speed : Z) (ns : NetState)
    : NetState :=
  updateNetworkStatus toFixed1 "online" (getConnectionQuality speed) speed latency ns.

(** [monitorConnectionSpeed()] up to its first [await]: [true] when the
    measurements have been started. *)
Definition monitorStarted (toFixed1 : Z → string) (ns : NetState) : NetState * bool :=
  if onLine ns then (ns, true)
  else (updateNetworkStatus toFixed1 "offline" "none" 0 0 ns, false).

(** [handleOffline()] *)
Definition handleOffline (toFixed1 : Z → string) (ns : NetState) : NetState * list Event :=
  (updateNetworkStatus toFixed1 "offline" "none" 0 0 ns,
   [ShowMessage "You are offline. Some features may be limited." "warning"]).

(** [handleOnline()]; the measurements it starts settle later
    ([monitorSettled]). *)
Definition handleOnline (toFixed1 : Z → string) (ns : NetState) : NetState * list Event :=
  let ns1 := updateNetworkStatus toFixed1 "online" "good" 0 0 ns in
  let ns2 := fst (monitorStarted toFixed1 ns1) in
  let '(ns3, ev) := syncPendingData ns2 in
  (ns3, ShowMessage "Connection restored!" "success" :: ev).

(** [getNetworkStatus()] *)
Definition getNetworkStatus (ns : NetState) : NetworkStatus.t :=
  default
    (NetworkStatus.mk (if onLine ns then "online" else "offline") "unknown" 0 0)
    (networkStatus ns).

(** [isGoodConnection()] *)
Definition isGoodConnection (ns : NetState) : bool :=
  let s := getNetworkStatus ns in
  (String.eqb (NetworkStatus.status s) "online"
   && existsb (String.eqb (NetworkStatus.quality s)) ["excellent"; "good"])%bool.

(** [getConnectionSpeed()] *)
Definition getConnectionSpeed (ns : NetState) : Z :=
  default 0 (NetworkStatus.speed <$> networkStatus ns).

(** A page whose indicator has been created, online and with nothing
    queued; the element the indicator starts as; and a source of random
    draws that always gives the middle of the range. *)
Definition freshIndicator : Indicator :=
  {| classList := ["network-indicator"];
     signalBars := [false; false; false; false];
     qualityText := "Checking...";
     qualityColor := "";
     ariaLabel := None |}.

Definition pageLoaded : NetState :=
  createNetworkIndicator
    {| onLine := true; networkIndicator := None; networkStatus := None;
       pendingSync := Absent |}.

Definition halfDraw (n : Z) : Z := n / 2.

(** A text without a comma, and a tag in normal form: not empty, without
    white space at either end and without a comma. *)
Definition noComma (s : string) : Prop :=
  Forall (λ c, c ≠ ","%char) (list_ascii_of_string s).

Definition normalTag (t : string) : Prop :=
  t ≠ "" ∧ trimStart t = t ∧ trimEnd t = t ∧ noComma t.

(** The languages of the [placeholders] table. *)
Definition supportedLanguages : list string := List.map fst markers.

(** The translation that [translateJournal] synthesises. *)
Definition synthesised (lang : option string) (targetLang : string) (j : Journal.t)
    : Translation.t :=
  Translation.mk
    (translateText (Journal.title j) (activeLanguage lang) targetLang)
    (translateText (Journal.content j) (activeLanguage lang) targetLang)
    (List.map (λ tag, translateText tag (activeLanguage lang) targetLang) (Journal.tags j)).

(** Two records that agree on id, owner, title, content and tags. *)
Definition sameText (j j' : Journal.t) : Prop :=
  Journal.id j' = Journal.id j ∧ Journal.userId j' = Journal.userId j
  ∧ Journal.title j' = Journal.title j ∧ Journal.content j' = Journal.content j
  ∧ Journal.tags j' = Journal.tags j.

(** A text made of white space only, the empty one included. *)
Definition blank (s : string) : Prop :=
  Forall (λ c, isSpace c = true) (list_ascii_of_string s).

(** The values [editJournal] puts in the fields of the form. *)
Definition formOf (j : Journal.t) : Form :=
  {| journalId := Journal.id j;
     journalTitle := Journal.title j;
     journalContent := Journal.content j;
     journalTags := String.concat ", " (Journal.tags j) |}.

(** ** The module: static samples, rendering and handlers *)

Section JournalModule.

(** [Date.now()] at the moment the module is loaded: the sample journals
    are dated one, two and three days before it. *)
Variable loadTime : Z.

Definition sample1Translations : gmap string Translation.t :=
  list_to_map [
    ("en", Translation.mk
       "The Art of Mindful Living"
       "Mindfulness is the practice of being fully present and engaged in the current moment. It involves paying attention to our thoughts, feelings, and surroundings without judgment. By cultivating mindfulness, we can reduce stress, improve focus, and enhance our overall well-being. Start with just five minutes of meditation each day, focusing on your breath and letting go of distracting thoughts."
       ["mindfulness"; "wellness"; "mental health"]);
    ("es", Translation.mk
       "El Arte de Vivir Conscientemente"
       "La atención plena es la práctica de estar completamente presente y comprometido con el momento actual. Involucra prestar atención a nuestros pensamientos, sentimientos y alrededores sin juzgar. Al cultivar la atención plena, podemos reducir el estrés, mejorar el enfoque y potenciar nuestro bienestar general. Comienza con solo cinco minutos de meditación cada día, enfocándote en tu respiración y dejando ir pensamientos distractivos."
       ["atención plena"; "bienestar"; "salud mental"]);
    ("fr", Translation.mk
       "L'Art de Vivre en Pleine Conscience"
       "La pleine conscience est la pratique d'être pleinement présent et engagé dans le moment actuel. Elle implique de prêter attention à nos pensées, sentiments et environnement sans jugement. En cultivant la pleine conscience, nous pouvons réduire le stress, améliorer la concentration et renforcer notre bien-être général. Commencez par seulement cinq minutes de méditation par jour, en vous concentrant sur votre respiration et en laissant aller les pensées distrayantes."
       ["pleine conscience"; "bien-être"; "santé mentale"]);
    ("de", Translation.mk
       "Die Kunst des Achtsamen Lebens"
       "Achtsamkeit ist die Praxis, vollständig präsent und engagiert im aktuellen Moment zu sein. Sie beinhaltet die Aufmerksamkeit auf unsere Gedanken, Gefühle und Umgebung ohne Urteilsvermögen. Durch die Kultivierung von Achtsamkeit können wir Stress reduzieren, den Fokus verbessern und unser allgemeines Wohlbefinden stärken. Beginnen Sie mit nur fünf Minuten Meditation pro Tag, indem Sie sich auf Ihren Atem konzentrieren und ablenkende Gedanken loslassen."
       ["achtsamkeit"; "wohlbefinden"; "geistige gesundheit"]);
    ("zh", Translation.mk
       "正念生活的艺术"
       "正念是完全存在并参与当前时刻的实践。它涉及注意我们的思想、感受和周围环境，而不进行判断。通过培养正念，我们可以减少压力，提高注意力，并增强整体健康。从每天五分钟的冥想开始，专注于呼吸，让分散注意力的想法离去。"
       ["正念"; "健康"; "心理健康"]);
    ("ja", Translation.mk
       "マインドフルネス生活の芸術"
       "マインドフルネスは現在の瞬間に完全に存在し、関与する実践です。それは私たちの思考、感情、周囲に判断なく注意を払うことを含みます。マインドフルネスを育てることで、私たちはストレスを減らし、集中力を改善し、全体的な健康を強化できます。毎日たった5分の瞑想から始め、呼吸に集中し、気が散る思考を放す。"
       ["マインドフルネス"; "ウェルネス"; "メンタルヘルス"]);
    ("bn", Translation.mk
       "মাইন্ডফুল লিভিংয়ের শিল্প"
       "মাইন্ডফুলনেস হলো বর্তমান মুহূর্তে সম্পূর্ণ উপস্থিত এবং জড়িত থাকার অনুশীলন। এটি বিচার ছাড়াই আমাদের চিন্তাভাবনা, অনুভূতি এবং পরিবেশের প্রতি মনোযোগ দেওয়া জড়িত। মাইন্ডফুলনেস চাষ করে, আমরা স্ট্রেস কমাতে পারি, ফোকাস উন্নত করতে পারি এবং আমাদের সামগ্রিক সুস্থতা বাড়াতে পারি। প্রতিদিন মাত্র পাঁচ মিনিটের মেডিটেশন দিয়ে শুরু করুন, আপনার শ্বাসে ফোকাস করে এবং বিভ্রান্তিকর চিন্তাভাবনা ছেড়ে দিন।"
       ["মাইন্ডফুলনেস"; "সুস্থতা"; "মানসিক স্বাস্থ্য"]);
    ("hi", Translation.mk
       "माइंडफुल लिविंग की कला"
       "माइंडफुलनेस वर्तमान क्षण में पूरी तरह से उपस्थित और व्यस्त रहने का अभ्यास है। इसमें हमारे विचारों, भावनाओं और आसपास के वातावरण पर बिना किसी निर्णय के ध्यान देना शामिल है। माइंडफुलनेस को विकसित करके, हम तनाव कम कर सकते हैं, फोकस में सुधार कर सकते हैं और अपनी समग्र भलाई बढ़ा सकते हैं। प्रतिदिन सिर्फ पांच मिनट की ध्यान से शुरुआत करें, अपनी सांस पर ध्यान केंद्रित करते हुए और विचलित करने वाली विचारों को जाने दें।"
       ["माइंडफुलनेस"; "कल्याण"; "मानसिक स्वास्थ्य"]);
    ("pt", Translation.mk
       "A Arte de Viver com Consciência"
       "A atenção plena é a prática de estar totalmente presente e engajado no momento atual. Envolve prestar atenção aos nossos pensamentos, sentimentos e arredores sem julgamento. Ao cultivar a atenção plena, podemos reduzir o estresse, melhorar o foco e aprimorar nosso bem-estar geral. Comece com apenas cinco minutos de meditação por dia, concentrando-se na sua respiração e deixando ir pensamentos distrativos."
       ["atenção plena"; "bem-estar"; "saúde mental"])
  ].

Definition sample1 : Journal.t :=
  Journal.mk "sample-1" (Some "demo-user-1")
    "The Art of Mindful Living"
    "Mindfulness is the practice of being fully present and engaged in the current moment. It involves paying attention to our thoughts, feelings, and surroundings without judgment. By cultivating mindfulness, we can reduce stress, improve focus, and enhance our overall well-being. Start with just five minutes of meditation each day, focusing on your breath and letting go of distracting thoughts."
    ["mindfulness"; "wellness"; "mental health"]
    (loadTime - 86400000) None (Some sample1Translations).

Definition sample2Translations : gmap string Translation.t :=
  list_to_map [
    ("en", Translation.mk
       "Embracing Change in Life"
       "Change is an inevitable part of life, yet many of us resist it. Learning to embrace change can lead to personal growth and new opportunities. Instead of fearing the unknown, we can view change as a chance to learn, adapt, and discover new aspects of ourselves. Remember that every ending is also a beginning."
       ["change"; "growth"; "life lessons"]);
    ("es", Translation.mk
       "Abrazando el Cambio en la Vida"
       "El cambio es una parte inevitable de la vida, sin embargo muchos de nosotros lo resistimos. Aprender a abrazar el cambio puede llevar al crecimiento personal y nuevas oportunidades. En lugar de temer lo desconocido, podemos ver el cambio como una oportunidad para aprender, adaptarnos y descubrir nuevos aspectos de nosotros mismos. Recuerda que cada final también es un principio."
       ["cambio"; "crecimiento"; "lecciones de vida"]);
    ("fr", Translation.mk
       "Embrasser le Changement dans la Vie"
       "Le changement est une partie inévitable de la vie, pourtant beaucoup d'entre nous lui résistons. Apprendre à embrasser le changement peut mener à la croissance personnelle et à de nouvelles opportunités. Au lieu de craindre l'inconnu, nous pouvons voir le changement comme une chance d'apprendre, de nous adapter et de découvrir de nouveaux aspects de nous-mêmes. Souvenez-vous que chaque fin est aussi un commencement."
       ["changement"; "croissance"; "leçons de vie"]);
    ("de", Translation.mk
       "Veränderung im Leben Annehmen"
       "Veränderung ist ein unvermeidlicher Teil des Lebens, doch viele von uns widerstehen ihr. Das Lernen, Veränderung anzunehmen, kann zu persönlichem Wachstum und neuen Möglichkeiten führen. Anstatt das Unbekannte zu fürchten, können wir Veränderung als Chance sehen, zu lernen, uns anzupassen und neue Aspekte von uns selbst zu entdecken. Denken Sie daran, dass jedes Ende auch ein Anfang ist."
       ["veränderung"; "wachstum"; "lebenslektionen"]);
    ("zh", Translation.mk
       "拥抱生活中的改变"
       "改变是生活中不可避免的一部分，但我们很多人却抵制它。学会拥抱改变可以带来个人成长和新机会。我们可以把改变视为学习、适应和发现自己新方面的机会，而不是害怕未知。记住，每一个结束也是一个开始。"
       ["改变"; "成长"; "生活教训"]);
    ("ja", Translation.mk
       "人生における変化を受け入れる"
       "変化は避けられず、しばしば不快ですが、それは成長の触媒でもあります。変化に抵抗するとき、私たちは不必要な苦しみを作り出します。代わりに、新しい経験と個人的な発展の機会としてそれを受け入れることを学ぶべきです。すべての終わりは新しい始まりであり、すべての挑戦はより強くなるチャンスです。"
       ["変化"; "成長"; "個人的な発展"]);
    ("bn", Translation.mk
       "জীবনে পরিবর্তন গ্রহণ করা"
       "পরিবর্তন জীবনের একটি অবশ্যম্ভাবী অংশ, তবুও আমাদের অনেকেই এটিকে প্রতিরোধ করে। পরিবর্তন গ্রহণ করতে শিখলে ব্যক্তিগত বৃদ্ধি এবং নতুন সুযোগ আসতে পারে। অজানাকে ভয় করার পরিবর্তে, আমরা পরিবর্তনকে শিখতে, খাপ খাইয়ে নিতে এবং নিজেদের নতুন দিক আবিষ্কার করার সুযোগ হিসেবে দেখতে পারি। মনে রাখবেন যে প্রতিটি শেষও একটি শুরু।"
       ["পরিবর্তন"; "বৃদ্ধি"; "জীবনের শিক্ষা"]);
    ("hi", Translation.mk
       "जीवन में बदलाव को अपनाना"
       "बदलाव जीवन का एक अपरिहार्य हिस्सा है, फिर भी हममें से कई लोग इसे रोकते हैं। बदलाव को अपनाना सीखना व्यक्तिगत विकास और नए अवसरों की ओर ले जा सकता है। अज्ञात से डरने के बजाय, हम बदलाव को सीखने, अनुकूलन करने और अपने नए पहलुओं की खोज करने का मौका देख सकते हैं। याद रखें कि हर अंत भी एक शुरुआत है।"
       ["बदलाव"; "विकास"; "जीवन की सीख"]);
    ("pt", Translation.mk
       "Abraçando a Mudança na Vida"
       "A mudança é uma parte inevitável da vida, no entanto muitos de nós a resistimos. Aprender a abraçar a mudança pode levar ao crescimento pessoal e novas oportunidades. Em vez de temer o desconhecido, podemos ver a mudança como uma chance de aprender, adaptar e descobrir novos aspectos de nós mesmos. Lembre-se de que todo fim também é um começo."
       ["mudança"; "crescimento"; "lições de vida"])
  ].

Definition sample2 : Journal.t :=
  Journal.mk "sample-2" (Some "demo-user-2")
    "Embracing Change in Life"
    "Change is an inevitable part of life, yet many of us resist it. Learning to embrace change can lead to personal growth and new opportunities. Instead of fearing the unknown, we can view change as a chance to learn, adapt, and discover new aspects of ourselves. Remember that every ending is also a beginning."
    ["change"; "growth"; "life lessons"]
    (loadTime - 172800000) None (Some sample2Translations).

Definition sample3Translations : gmap string Translation.t :=
  list_to_map [
    ("en", Translation.mk
       "The Power of Gratitude"
       "Practicing gratitude can transform our perspective on life. When we focus on what we have rather than what we lack, we cultivate happiness and contentment. Start a daily gratitude journal where you write down three things you're thankful for each day. This simple practice can shift your mindset and improve your overall well-being."
       ["gratitude"; "happiness"; "mindset"]);
    ("es", Translation.mk
       "El Poder de la Gratitud"
       "Practicar la gratitud puede transformar nuestra perspectiva de la vida. Cuando nos enfocamos en lo que tenemos en lugar de lo que nos falta, cultivamos la felicidad y el contentamiento. Comienza un diario de gratitud diario donde escribas tres cosas por las que estás agradecido cada día. Esta práctica simple puede cambiar tu mentalidad y mejorar tu bienestar general."
       ["gratitud"; "felicidad"; "mentalidad"]);
    ("fr", Translation.mk
       "Le Pouvoir de la Gratitude"
       "Pratiquer la gratitude peut transformer notre perspective sur la vie. Lorsque nous nous concentrons sur ce que nous avons plutôt que sur ce qui nous manque, nous cultivons le bonheur et la satisfaction. Tenir un journal de gratitude nous aide à remarquer les petites joies et bénédictions qui nous entourent quotidiennement. La gratitude change notre état d'esprit de pénurie à abondance."
       ["gratitude"; "bonheur"; "état d'esprit"]);
    ("de", Translation.mk
       "Die Kraft der Dankbarkeit"
       "Die Praxis der Dankbarkeit kann unsere Perspektive auf das Leben verändern. Wenn wir uns auf das konzentrieren, was wir haben, anstatt auf das, was uns fehlt, kultivieren wir Glück und Zufriedenheit. Ein Dankbarkeitstagebuch zu führen hilft uns, die kleinen Freuden und Segnungen zu bemerken, die uns täglich umgeben. Dankbarkeit verschiebt unsere Denkweise von Mangel zu Fülle."
       ["dankbarkeit"; "glück"; "denkweise"]);
    ("zh", Translation.mk
       "感恩的力量"
       "练习感恩可以改变我们对生活的看法。当我们专注于我们拥有的而不是我们缺少的，我们培养幸福和满足感。保持感恩日记帮助我们注意到每天围绕我们的小快乐和祝福。感恩将我们的心态从匮乏转向丰富。"
       ["感恩"; "幸福"; "心态"]);
    ("ja", Translation.mk
       "感謝の力"
       "感謝を実践することは、私たちの人生観を変えることができます。私たちが欠けているものではなく持っているものに焦点を当てる時、私たちは幸福と満足を育みます。感謝の日記をつけることは、私たちを毎日囲む小さな喜びと祝福に気づかせてくれます。感謝は私たちの心構えを欠乏から豊かさへとシフトさせます。"
       ["感謝"; "幸福"; "心構え"]);
    ("bn", Translation.mk
       "কৃতজ্ঞতার শক্তি"
       "কৃতজ্ঞতা অনুশীলন আমাদের জীবনের দৃষ্টিভঙ্গি পরিবর্তন করতে পারে। যখন আমরা আমাদের কাছে যা আছে তার উপর ফোকাস করি, তখন আমরা সুখ এবং সন্তুষ্টি লালন করি। প্রতিদিন তিনটি জিনিস লিখে একটি দৈনিক কৃতজ্ঞতা জার্নাল শুরু করুন যার জন্য আপনি কৃতজ্ঞ। এই সহজ অনুশীলন আপনার মানসিকতা পরিবর্তন করতে পারে এবং আপনার সামগ্রিক সুস্থতা উন্নত করতে পারে।"
       ["কৃতজ্ঞতা"; "সুখ"; "মানসিকতা"]);
    ("hi", Translation.mk
       "कृतज्ञता की शक्ति"
       "कृतज्ञता का अभ्यास हमारे जीवन की दृष्टि को बदल सकता है। जब हम उस पर ध्यान केंद्रित करते हैं जो हमारे पास है, बजाय उसकी जो हमारे पास नहीं है, तो हम खुशी और संतुष्टि को बढ़ावा देते हैं। एक दैनिक कृतज्ञता पत्रिका शुरू करें जहां आप प्रतिदिन तीन चीजें लिखें जिनके लिए आप आभारी हैं। यह सरल अभ्यास आपके मानसिकता को बदल सकता है और आपके समग्र कल्याण में सुधार कर सकता है।"
       ["कृतज्ञता"; "खुशी"; "मानसिकता"]);
    ("pt", Translation.mk
       "O Poder da Gratidão"
       "Praticar a gratidão pode transformar nossa perspectiva sobre a vida. Quando nos concentramos no que temos em vez do que nos falta, cultivamos a felicidade e a satisfação. Comece um diário diário de gratidão onde você escreve três coisas pelas quais você é grato todos os dias. Esta prática simples pode mudar sua mentalidade e melhorar seu bem-estar geral."
       ["gratidão"; "felicidade"; "mentalidade"])
  ].

Definition sample3 : Journal.t :=
  Journal.mk "sample-3" (Some "demo-user-3")
    "The Power of Gratitude"
    "Practicing gratitude can transform our perspective on life. When we focus on what we have rather than what we lack, we cultivate happiness and contentment. Start a daily gratitude journal where you write down three things you're thankful for each day. This simple practice can shift your mindset and improve your overall well-being."
    ["gratitude"; "happiness"; "mindset"]
    (loadTime - 259200000) None (Some sample3Translations).


Definition SAMPLE_JOURNALS : list Journal.t := [sample1; sample2; sample3].

(** [a || b] on strings *)
Definition orElse (a b : string) : string := if truthy a then a else b.

Definition applyTranslation (tr : Translation.t) (j : Journal.t) : Translation.t :=
  Translation.mk
    (orElse (Translation.title tr) (Journal.title j))
    (orElse (Translation.content tr) (Journal.content j))
    (Translation.tags tr).

(** [getTranslatedJournalData(journal, lang)] *)
Definition getTranslatedJournalData (j : Journal.t) (lang : string) : Translation.t :=
  match (if startsWith (Journal.id j) "sample-" then cached j lang else None) with
  | Some tr => applyTranslation tr j
  | None =>
      match cached j lang with
      | Some tr => applyTranslation tr j
      | None => Translation.mk (Journal.title j) (Journal.content j) (Journal.tags j)
      end
  end.

(** [journal.userId === currentUser?.uid] *)
Definition isOwner (u : option User) (j : Journal.t) : bool :=
  bool_decide (Journal.userId j = uid <$> u).

(** One [<article class="journal-card">]; [actions] tells whether the edit
    and delete buttons are rendered. *)
Definition renderCard (lang : option string) (u : option User)
    (actions : Journal.t → bool) (j : Journal.t) : Card :=
  let translatedData := getTranslatedJournalData j (activeLanguage lang) in
  {| card_id := Journal.id j;
     card_title := orElse (Translation.title translatedData) "Untitled";
     card_content := Translation.content translatedData;
     card_tags := Journal.tags j;
     card_ownerBadge := isOwner u j;
     card_actions := actions j |}.

(** [displayJournals(journals, showEditDelete)] *)
Definition displayJournals (journals : list Journal.t) (showEditDelete : bool)
    (st : State) : State :=
  match journalsContainer st with
  | None => st
  | Some _ =>
      match journals with
      | [] => setInnerHTML NoJournalsYet st
      | _ =>
          setInnerHTML
            (Cards (List.map (renderCard (currentLanguage st) (currentUser st)
                                (λ _, showEditDelete)) journals)) st
      end
  end.

(** The merge of [displayCombinedJournals]:
    [[...allJournals, ...localJournals, ...SAMPLE_JOURNALS]], a failing
    parse of the fallback blob giving [localJournals = []]. *)
Definition combinedJournals (st : State) : list Journal.t :=
  allJournals st
  ++ default [] (jsonParse [] (localJournals (localStorage st)))
  ++ SAMPLE_JOURNALS.

(** [displayCombinedJournals()] *)
Definition displayCombinedJournals (st : State) : State * list Event :=
  match journalsContainer st with
  | None => (st, [])
  | Some _ =>
      let ev :=
        match jsonParse [] (localJournals (localStorage st)) with
        | None => [Console LError "Error parsing localStorage journals:"]
        | Some _ => []
        end in
      match combinedJournals st with
      | [] => (setInnerHTML NoJournalsYet st, ev)
      | js =>
          (setInnerHTML
             (Cards (List.map (renderCard (currentLanguage st) (currentUser st)
                                 (isOwner (currentUser st))) js)) st,
           ev)
      end
  end.

(** [displayFilteredCombinedJournals(journals)] *)
Definition displayFilteredCombinedJournals (journals : list Journal.t) (st : State) : State :=
  match journalsContainer st with
  | None => st
  | Some _ =>
      match journals with
      | [] => setInnerHTML NoJournalsFound st
      | _ =>
          setInnerHTML
            (Cards (List.map (renderCard (currentLanguage st) (currentUser st)
                                (isOwner (currentUser st))) journals)) st
      end
  end.

(** [loadUserJournals()] from the point where [await getDocs(q)] has
    settled; [Ok docs] are the documents of the snapshot. *)
Definition loadUserJournalsSettled (reply : Reply (list Journal.t)) (st : State)
    : State * list Event :=
  match reply with
  | Ok docs => displayCombinedJournals (setUserJournals docs st)
  | Failed _ =>
      let e1 := Console LError "Error loading user journals from Firestore:" in
      let failed :=
        let '(st', ev) := displayCombinedJournals st in
        (st', e1 :: Console LError "Error loading local journals:"
              :: ShowMessage "Error loading your journals" "error" :: ev) in
      match jsonParse [] (localJournals (localStorage st)), currentUser st with
      | None, _ => failed
      | Some stored, Some u =>
          let mine :=
            List.filter (λ j, bool_decide (Journal.userId j = Some (uid u))) stored in
          let '(st', ev) := displayCombinedJournals (setUserJournals mine st) in
          (st', e1 :: ev)
      | Some [], None =>
          let '(st', ev) := displayCombinedJournals (setUserJournals [] st) in
          (st', e1 :: ev)
      | Some (_ :: _), None => failed      (* [currentUser.uid] throws *)
      end
  end.

(** [loadUserJournals()] *)
Definition loadUserJournals (reply : Reply (list Journal.t)) (st : State)
    : State * list Event :=
  match currentUser st with
  | None => (st, [])
  | Some u =>
      let '(st', ev) := loadUserJournalsSettled reply st in
      (st', RemoteGetDocs (Some (uid u)) :: ev)
  end.

(** [loadAllJournals()] from the point where [await getDocs(q)] has settled. *)
Definition loadAllJournalsSettled (reply : Reply (list Journal.t)) (st : State)
    : State * list Event :=
  match reply with
  | Ok docs =>
      let st1 := setAllJournals docs st in
      match currentUser st1 with
      | Some _ => displayCombinedJournals st1
      | None =>
          match docs with
          | [] => (displayJournals SAMPLE_JOURNALS false st1, [])
          | _ => (displayJournals docs false st1, [])
          end
      end
  | Failed _ =>
      let e := Console LError "Error loading all journals:" in
      match currentUser st with
      | Some _ => (st, [e])
      | None => (displayJournals SAMPLE_JOURNALS false st, [e])
      end
  end.

(** [loadAllJournals()] *)
Definition loadAllJournals (reply : Reply (list Journal.t)) (st : State)
    : State * list Event :=
  let '(st', ev) := loadAllJournalsSettled reply st in
  (st', RemoteGetDocs None :: ev).

(** The callback that [setupAuthListener] registers; the two loads it
    starts settle later ([loadUserJournalsSettled], [loadAllJournalsSettled]). *)
Definition authStateListener (user : option User) (st : State) : State * list Event :=
  let st1 := setCurrentUser user st in
  match user with
  | Some u => (st1, [RemoteGetDocs (Some (uid u)); RemoteGetDocs None])
  | None => (displayJournals SAMPLE_JOURNALS false st1, [])
  end.

(** Whether the raced [updateJournal] call counts as done: it has to settle
    in time with [result.success]; anything else is thrown to the handler's
    [catch (firestoreError)]. *)
Definition updateSucceeded (r : Race UpdateResult) : bool :=
  match r with
  | Settled res => success res
  | _ => false
  end.

(** ['local-' + Date.now() + '-' + Math.random().toString(36).substr(2, 9)];
    [rnd] is the random suffix. *)
Definition localId (now : Z) (rnd : string) : string :=
  "local-" +:+ showZ now +:+ "-" +:+ rnd.

(** The update branch of [handleJournalSubmit] for a fallback id. *)
Definition submitLocalUpdate (now : Z) (u : User) (jid title content : string)
    (tags : list string) (st : State) : State * list Event :=
  let '(ls, e1) :=
    saveJournalToLocalStorage now (freshRecord jid u title content tags now)
      (localStorage st) in
  let st1 := setLocalStorage ls st in
  let st2 := setUserJournals (updateInPlace jid title content tags now (userJournals st1)) st1 in
  let '(st3, e2) := displayCombinedJournals st2 in
  (st3, e1 ++ e2 ++ [ShowMessage "Journal updated locally!" "success"]).

(** The update branch of [handleJournalSubmit] for any other id. *)
Definition submitRemoteUpdate (now : Z) (reply : Race UpdateResult) (u : User)
    (jid title content : string) (tags : list string) (st : State) : State * list Event :=
  let call := RemoteUpdateJournal jid title content tags 5000 in
  if updateSucceeded reply then
    let st1 := setUserJournals (updateInPlace jid title content tags now (userJournals st)) st in
    let st2 := setAllJournals (updateInPlace jid title content tags now (allJournals st1)) st1 in
    let '(st3, e) := displayCombinedJournals st2 in
    (st3, call :: e ++ [ShowMessage "Journal updated successfully!" "success"])
  else
    let '(ls, e1) :=
      saveJournalToLocalStorage now (freshRecord jid u title content tags now)
        (localStorage st) in
    let st1 := setLocalStorage ls st in
    let st2 := setUserJournals (updateInPlace jid title content tags now (userJournals st1)) st1 in
    let st3 := setAllJournals (spliceById jid (allJournals st2)) st2 in
    let '(st4, e2) := displayCombinedJournals st3 in
    (st4, call :: Console LWarn "Firestore update failed, saving to localStorage:"
          :: e1 ++ e2
          ++ [ShowMessage "Journal updated locally! Will sync when online." "success"]).

(** The create branch of [handleJournalSubmit]; [Settled docId] carries the
    id of the document reference that [addDoc] resolves to. *)
Definition submitCreate (now : Z) (rnd : string) (reply : Race string) (u : User)
    (title content : string) (tags : list string) (st : State) : State * list Event :=
  let call := RemoteAddDoc (uid u) title content tags 3000 in
  match reply with
  | Settled docId =>
      let st1 :=
        setUserJournals (freshRecord docId u title content tags now :: userJournals st) st in
      let '(st2, e) := displayCombinedJournals st1 in
      (st2, call :: e ++ [ShowMessage "Journal created successfully!" "success"])
  | _ =>
      let newJournal := freshRecord (localId now rnd) u title content tags now in
      let '(ls, e1) := saveJournalToLocalStorage now newJournal (localStorage st) in
      let st1 := setLocalStorage ls st in
      let st2 := setUserJournals (newJournal :: userJournals st1) st1 in
      let '(st3, e2) := displayCombinedJournals st2 in
      (st3, call :: Console LWarn "Firestore save failed, saving to localStorage:"
            :: e1 ++ e2
            ++ [ShowMessage "Journal saved locally! Will sync when online." "success"])
  end.

(** [handleJournalSubmit(e)].  [createReply] and [updateReply] are how the
    raced remote call of the branch taken settles.  The reload started at
    the end ([loadUserJournals()], not awaited) has issued its query when
    the handler returns and settles later ([loadUserJournalsSettled]). *)
Definition handleJournalSubmit (now : Z) (rnd : string) (createReply : Race string)
    (updateReply : Race UpdateResult) (st : State) : State * list Event :=
  match currentUser st with
  | None => (st, [ShowMessage "Please log in to create a journal" "error"])
  | Some u =>
      let jid := journalId (form st) in
      let title := trim (journalTitle (form st)) in
      let content := trim (journalContent (form st)) in
      let tagsInput := trim (journalTags (form st)) in
      if (negb (truthy title) || negb (truthy content))%bool
      then (st, [ShowMessage "Please fill in both title and content" "error"])
      else
        let tags := parseTags tagsInput in
        let '(st1, ev) :=
          if truthy jid then
            if startsWith jid "local-"
            then submitLocalUpdate now u jid title content tags st
            else submitRemoteUpdate now updateReply u jid title content tags st
          else submitCreate now rnd createReply u title content tags st in
        (setForm emptyForm st1, ev ++ [RemoteGetDocs (Some (uid u))])
  end.

(** [list.find(j => j.id === jid)] *)
Definition findById (jid : string) (js : list Journal.t) : option Journal.t :=
  snd <$> list_find (λ j, Journal.id j = jid) js.

(** [editJournal(journalId)] *)
Definition editJournal (jid : string) (st : State) : State * list Event :=
  let '(found, ev) :=
    match findById jid (userJournals st) with
    | Some j => (Some j, [])
    | None =>
        match findById jid (allJournals st) with
        | Some j => (Some j, [])
        | None =>
            match jsonParse [] (localJournals (localStorage st)) with
            | Some stored => (findById jid stored, [])
            | None => (None, [Console LError "Error checking localStorage for journal:"])
            end
        end
    end in
  match found with
  | None => (st, ev ++ [ShowMessage "Journal not found or has been deleted" "error"])
  | Some j =>
      if isOwner (currentUser st) j
      then
        (setForm {| journalId := jid;
                    journalTitle := Journal.title j;
                    journalContent := Journal.content j;
                    journalTags := String.concat ", " (Journal.tags j) |} st,
         ev)
      else (st, ev ++ [ShowMessage "You can only edit your own journals" "error"])
  end.

(** [deleteJournal(journalId)]; [confirmed] is the answer to the
    confirmation dialog and [reply] how [await deleteDoc(...)] settles. *)
Definition deleteJournal (confirmed : bool) (reply : Reply unit) (jid : string)
    (st : State) : State * list Event :=
  if negb confirmed then (st, [])
  else if startsWith jid "local-" then
    match jsonParse [] (localJournals (localStorage st)) with
    | None =>
        (st, [Console LError "Error deleting from localStorage:";
              ShowMessage "Error deleting journal from local storage" "error"])
    | Some stored =>
        let st1 :=
          setLocalStorage
            (setLocalJournals (Parsed (removeById jid stored)) (localStorage st)) st in
        let st2 := setUserJournals (removeById jid (userJournals st1)) st1 in
        let '(st3, e) := displayCombinedJournals st2 in
        (st3, StorageSetItem "localJournals" :: e
              ++ [ShowMessage "Journal deleted successfully" "success"])
    end
  else
    match reply with
    | Ok _ =>
        let st1 := setUserJournals (removeById jid (userJournals st)) st in
        let '(st2, e) := displayCombinedJournals st1 in
        (st2, RemoteDeleteDoc jid :: e
              ++ [ShowMessage "Journal deleted successfully" "success"])
    | Failed msg =>
        (st, [RemoteDeleteDoc jid;
              Console LError "Error deleting journal:";
              ShowMessage ("Error deleting journal: " +:+ msg) "error"])
    end.

(** The predicate of the search filter of [filterJournals]. *)
Definition matchesSearch (searchTerm : string) (j : Journal.t) : bool :=
  ((truthy (Journal.title j) && includes (toLowerCase (Journal.title j)) searchTerm)
   || (truthy (Journal.content j) && includes (toLowerCase (Journal.content j)) searchTerm)
   || existsb (λ tag, includes (toLowerCase tag) searchTerm) (Journal.tags j))%bool.

(** [let searchPool = currentUser ? [...allJournals, ...SAMPLE_JOURNALS] : [...allJournals]] *)
Definition searchPool (st : State) : list Journal.t :=
  match currentUser st with
  | Some _ => allJournals st ++ SAMPLE_JOURNALS
  | None => allJournals st
  end.

(** The journals [filterJournals] hands to the renderer. *)
Definition filteredJournals (st : State) : list Journal.t :=
  let searchTerm := default "" (toLowerCase <$> searchInput st) in
  let filterType := default "recent" (filterSelect st) in
  let pool := match searchPool st with [] => SAMPLE_JOURNALS | p => p end in
  let found := if truthy searchTerm then List.filter (matchesSearch searchTerm) pool else pool in
  if String.eqb filterType "oldest" then List.rev found else found.

(** [filterJournals()] *)
Definition filterJournals (st : State) : State :=
  match currentUser st with
  | Some _ => displayFilteredCombinedJournals (filteredJournals st) st
  | None => displayJournals (filteredJournals st) false st
  end.

(** ** Derived notions used in the statements *)

Definition ids (js : list Journal.t) : list string := Journal.id <$> js.

(** The journals of the fallback store, a missing or unreadable blob
    holding none. *)
Definition storedJournals (st : State) : list Journal.t :=
  default [] (jsonParse [] (localJournals (localStorage st))).

(** The ids of the cards on screen, in order. *)
Definition shownIds (st : State) : list string :=
  match journalsContainer st with
  | Some (Cards cs) => card_id <$> cs
  | _ => []
  end.

Definition occurrences (x : string) (l : list string) : nat :=
  length (List.filter (String.eqb x) l).

(** Every card on screen is read-only. *)
Definition readOnlyView (st : State) : Prop :=
  match journalsContainer st with
  | Some (Cards cs) => Forall (λ c, card_actions c = false) cs
  | _ => True
  end.

(** What the spec calls an upsert of [record] into the fallback store, told
    from the store before and after and from the effects logged: with a
    readable blob the store afterwards holds the record under its id (with
    a fresh [updatedAt] when it replaces a stored record of that id), finds
    every other id as before, and was written; with an unparseable blob the
    store is as it was and the failure was logged. *)
Definition upserted (now : Z) (record : Journal.t) (before after : LocalStorage)
    (log : list Event) : Prop :=
  match jsonParse [] (localJournals before) with
  | Some stored =>
      ∃ stored',
        after = setLocalJournals (Parsed stored') before
        ∧ findById (Journal.id record) stored'
          = Some (if decide (Journal.id record ∈ ids stored)
                  then withUpdatedAt now record else record)
        ∧ (∀ x, x ≠ Journal.id record → findById x stored' = findById x stored)
        ∧ StorageSetItem "localJournals" ∈ log
  | None =>
      after = before
      ∧ Console LError "Failed to save journal to localStorage:" ∈ log
      ∧ Forall (λ e, isStorageWrite e = false) log
  end.

(** ** Further functions of the journal module *)

(** The lookup that opens [editJournal]: [userJournals], then
    [allJournals], then the fallback store. *)
Definition lookupForEdit (jid : string) (st : State) : option Journal.t * list Event :=
  match findById jid (userJournals st) with
  | Some j => (Some j, [])
  | None =>
      match findById jid (allJournals st) with
      | Some j => (Some j, [])
      | None =>
          match jsonParse [] (localJournals (localStorage st)) with
          | Some stored => (findById jid stored, [])
          | None => (None, [Console LError "Error checking localStorage for journal:"])
          end
      end
  end.

(** [loadTranslationsFromLocalStorage(journalId)] *)
Definition loadTranslationsFromLocalStorage (jid : string) (ls : LocalStorage)
    : gmap string Translation.t * list Event :=
  match jsonParse ∅ (journalTranslations ls) with
  | None => (∅, [Console LError "Failed to load translations from localStorage:"])
  | Some m => (default ∅ (m !! jid), [])
  end.

(** The loop [for (let i = 0; i < list.length; i++)
    list[i] = await translateJournal(list[i], targetLang)]; [replies i] is
    how the remote write for entry [i] settles, when one is issued. *)
Fixpoint translateEach (replies : nat → Reply unit) (lang : option string)
    (targetLang : string) (i : nat) (js : list Journal.t) (ls : LocalStorage)
    : list Journal.t * LocalStorage * list Event :=
  match js with
  | [] => ([], ls, [])
  | j :: rest =>
      let '(j', ls1, e1) := translateJournal (replies i) lang j targetLang ls in
      let '(rest', ls2, e2) := translateEach replies lang targetLang (S i) rest ls1 in
      (j' :: rest', ls2, e1 ++ e2)
  end.

(** [if (currentUser) displayCombinedJournals();
     else displayJournals(allJournals.length > 0 ? allJournals : SAMPLE_JOURNALS, false)] *)
Definition redisplay (st : State) : State * list Event :=
  match currentUser st with
  | Some _ => displayCombinedJournals st
  | None =>
      (displayJournals
         (match allJournals st with [] => SAMPLE_JOURNALS | js => js end) false st, [])
  end.

(** [translateAllJournals(targetLang)] *)
Definition translateAllJournals (repliesUser repliesAll : nat → Reply unit)
    (targetLang : string) (st : State) : State * list Event :=
  if String.eqb (activeLanguage (currentLanguage st)) targetLang then (st, [])
  else
    let '(owned, ls1, e1) :=
      translateEach repliesUser (currentLanguage st) targetLang 0 (userJournals st)
        (localStorage st) in
    let '(all, ls2, e2) :=
      translateEach repliesAll (currentLanguage st) targetLang 0 (allJournals st) ls1 in
    let st1 := setAllJournals all (setUserJournals owned (setLocalStorage ls2 st)) in
    let '(st2, e3) := redisplay st1 in
    (st2, ShowMessage "Translating journals..." "info" :: e1 ++ e2 ++ e3
          ++ [ShowMessage "Journals translated successfully!" "success"]).

(** The [languageChanged] listener that [initJournal] registers; the
    relabelling of the modal ([updateModalTranslations]) is presentation. *)
Definition onLanguageChanged (repliesUser repliesAll : nat → Reply unit) (st : State)
    : State * list Event :=
  let targetLang := activeLanguage (currentLanguage st) in
  let '(st1, e1) := translateAllJournals repliesUser repliesAll targetLang st in
  let '(st2, e2) := redisplay st1 in
  (st2, e1 ++ e2).

(** ** Concrete sessions used in the examples *)

(** The instant the module was loaded and the instant of a later action. *)
Definition loadedAt : Z := 1700000000000.
Definition submitAt : Z := 1700000060000.

Definition alice : User := {| uid := "alice" |}.
Definition bob : User := {| uid := "bob" |}.

Definition emptyStorage : LocalStorage :=
  {| localJournals := Absent; journalTranslations := Absent |}.

Definition corruptStorage : LocalStorage :=
  {| localJournals := Unparseable; journalTranslations := Absent |}.

(** A journal of alice kept in the fallback store. *)
Definition aliceLocal : Journal.t :=
  Journal.mk "local-1" (Some "alice") "Offline note" "Written on the train"
    ["travel"] 100 (Some 100) None.

(** A journal of alice kept in the remote store. *)
Definition aliceRemote : Journal.t :=
  Journal.mk "doc1" (Some "alice") "Hello" "First post" ["intro"] 50 (Some 50) None.

Definition session (u : option User) (owned all : list Journal.t)
    (ls : LocalStorage) (f : Form) : State :=
  {| currentUser := u; userJournals := owned; allJournals := all;
     localStorage := ls; journalsContainer := Some (Cards []);
     currentLanguage := None; searchInput := None; filterSelect := None;
     form := f |}.

Definition storageWith (js : list Journal.t) : LocalStorage :=
  {| localJournals := Parsed js; journalTranslations := Absent |}.

(** Bob is signed in on a device whose fallback store holds a journal of
    alice; the remote list holds another journal of hers. *)
Definition sharedDevice : State :=
  session (Some bob) [] [aliceRemote] (storageWith [aliceLocal]) emptyForm.

(** The edit form carrying the id of alice's fallback journal. *)
Definition forgedForm : Form :=
  {| journalId := "local-1"; journalTitle := "Taken over";
     journalContent := "Rewritten by bob"; journalTags := "" |}.

(** Alice edits her remote journal. *)
Definition editRemoteForm : Form :=
  {| journalId := "doc1"; journalTitle := " Hello again ";
     journalContent := "Edited"; journalTags := "intro, edit" |}.

Definition aliceEditing : State :=
  session (Some alice) [aliceRemote] [aliceRemote] emptyStorage editRemoteForm.

(** Alice writes a new journal. *)
Definition newForm : Form :=
  {| journalId := ""; journalTitle := "T1"; journalContent := "C1";
     journalTags := "x,y" |}.

Definition aliceWriting : State :=
  session (Some alice) [] [aliceRemote] emptyStorage newForm.

(** Alice is signed in and one of her journals lives in the fallback store
    only; she types into the search box. *)
Definition aliceSearching : State :=
  {| currentUser := Some alice; userJournals := [aliceLocal]; allJournals := [];
     localStorage := storageWith [aliceLocal]; journalsContainer := Some (Cards []);
     currentLanguage := None; searchInput := Some "OFFLINE"; filterSelect := None;
     form := emptyForm |}.

(** Alice is signed in, the fallback blob is unreadable. *)
Definition aliceCorrupt : State :=
  session (Some alice) [aliceRemote] [aliceRemote] corruptStorage emptyForm.

(** Alice reads in Spanish and her remote journal carries a Spanish
    translation; she edits the journal. *)
Definition hola : Translation.t := Translation.mk "Hola" "Primera entrada" ["intro"].

Definition aliceRemoteEs : Journal.t :=
  Journal.mk "doc1" (Some "alice") "Hello" "First post" ["intro"] 50 (Some 50)
    (Some {[ "es" := hola ]}).

Definition aliceEditingEs : State :=
  {| currentUser := Some alice; userJournals := [aliceRemoteEs];
     allJournals := [aliceRemoteEs]; localStorage := emptyStorage;
     journalsContainer := Some (Cards []); currentLanguage := Some "es";
     searchInput := None; filterSelect := None; form := editRemoteForm |}.

(** Alice edits her fallback journal, with the fallback blob readable and
    with the blob since made unreadable. *)
Definition editLocalForm : Form :=
  {| journalId := "local-1"; journalTitle := "Offline note, revised";
     journalContent := "Edited on the way back"; journalTags := "travel" |}.

Definition aliceEditingLocal : State :=
  session (Some alice) [aliceLocal] [] (storageWith [aliceLocal]) editLocalForm.

Definition aliceEditingLocalCorrupt : State :=
  session (Some alice) [aliceLocal] [] corruptStorage editLocalForm.

(** A guest on a fresh page, and alice submitting a form whose title is
    white space only. *)
Definition guest : State := session None [] [] emptyStorage emptyForm.

Definition blankTitleForm : Form :=
  {| journalId := ""; journalTitle := "   "; journalContent := "C1";
     journalTags := "" |}.

(** ** Basic facts *)

Lemma sample_ids : ids SAMPLE_JOURNALS = ["sample-1"; "sample-2"; "sample-3"].
Proof. reflexivity. Qed.

Lemma samples_prefixed :
  Forall (λ j, startsWith (Journal.id j) "sample-" = true) SAMPLE_JOURNALS.
Proof. repeat constructor. Qed.

Lemma sample_id_prefixed x :
  x ∈ ids SAMPLE_JOURNALS → startsWith x "sample-" = true.
Proof.
  rewrite sample_ids. intros H.
  repeat (apply elem_of_cons in H as [-> | H]; [reflexivity |]).
  by apply elem_of_nil in H.
Qed.

Lemma occurrences_app x l1 l2 :
  occurrences x (l1 ++ l2) = (occurrences x l1 + occurrences x l2)%nat.
Proof. unfold occurrences. by rewrite List.filter_app, length_app. Qed.

Lemma occurrences_cons x y l :
  occurrences x (y :: l) = ((if String.eqb x y then 1 else 0) + occurrences x l)%nat.
Proof. unfold occurrences. simpl. by destruct (String.eqb x y). Qed.

Lemma occurrences_absent x l : x ∉ l → occurrences x l = 0%nat.
Proof.
  induction l as [| y l IH]; intros H; [reflexivity |].
  rewrite occurrences_cons. apply not_elem_of_cons in H as [Hne Hl].
  rewrite IH by done. by apply String.eqb_neq in Hne as ->.
Qed.

Lemma occurrences_NoDup x l : NoDup l → x ∈ l → occurrences x l = 1%nat.
Proof.
  induction 1 as [| y l Hy Hnd IH]; intros Hin; [by apply elem_of_nil in Hin |].
  rewrite occurrences_cons. apply elem_of_cons in Hin as [-> | Hin].
  - rewrite String.eqb_refl. by rewrite occurrences_absent.
  - rewrite IH by done.
    destruct (String.eqb x y) eqn:E; [| reflexivity].
    apply String.eqb_eq in E as ->. contradiction.
Qed.

Lemma findIndex_Some jid js i :
  findIndex jid js = Some i →
  ∃ j, js !! i = Some j ∧ Journal.id j = jid ∧ jid ∉ ids (take i js).
Proof.
  unfold findIndex. destruct (list_find _ js) as [[i' j] |] eqn:E; [| done].
  simpl. intros [= ->]. apply list_find_Some in E as (Hl & Hid & Hbefore).
  exists j. split_and!; [done.. |].
  unfold ids. rewrite list_elem_of_fmap. intros (k & Hk & Hin).
  apply list_elem_of_lookup in Hin as [n Hn].
  pose proof (lookup_lt_Some _ _ _ Hn) as Hlen. rewrite length_take in Hlen.
  rewrite lookup_take_lt in Hn by lia.
  by apply (Hbefore n k Hn); [lia |].
Qed.

Lemma findIndex_None jid js : findIndex jid js = None ↔ jid ∉ ids js.
Proof.
  unfold findIndex, ids. destruct (list_find _ js) as [[i j] |] eqn:E; simpl.
  - apply list_find_Some in E as (Hl & Hid & _). split; [done |].
    intros Hn. exfalso. apply Hn. rewrite list_elem_of_fmap.
    exists j. split; [done |]. by eapply list_elem_of_lookup_2.
  - apply list_find_None in E. split; [| done]. intros _.
    rewrite list_elem_of_fmap. intros (j & Hid & Hin).
    by eapply Forall_forall in E; [| done].
Qed.

Lemma ids_updateInPlace jid title content tags now js :
  ids (updateInPlace jid title content tags now js) = ids js.
Proof.
  unfold updateInPlace. destruct (findIndex jid js) as [i |]; [| reflexivity].
  unfold ids. rewrite (list_fmap_alter _ _ (λ x, x)).
  - by apply list_alter_id.
  - by apply Forall_forall.
Qed.

Lemma delete_at_NoDup (x : string) i l :
  NoDup l → l !! i = Some x → x ∉ delete i l.
Proof.
  intros Hnd Hi. rewrite delete_take_drop.
  rewrite <- (take_drop_middle l i x Hi) in Hnd.
  apply NoDup_app in Hnd as (_ & Hdisj & Hr). apply NoDup_cons in Hr as [Hx _].
  rewrite elem_of_app. intros [Hin | Hin]; [| done].
  apply (Hdisj x Hin). by left.
Qed.

Lemma spliceById_absent jid js : NoDup (ids js) → jid ∉ ids (spliceById jid js).
Proof.
  intros Hnd. unfold spliceById. destruct (findIndex jid js) as [i |] eqn:E.
  - apply findIndex_Some in E as (j & Hl & Hid & _).
    unfold ids. rewrite list_fmap_delete. apply delete_at_NoDup; [done |].
    by rewrite list_lookup_fmap, Hl, <- Hid.
  - by apply findIndex_None.
Qed.

Lemma removeById_absent jid js : jid ∉ ids (removeById jid js).
Proof.
  unfold removeById, ids. rewrite list_elem_of_fmap. intros (j & Hid & Hin).
  apply list_elem_of_In, filter_In in Hin as [_ Hne].
  rewrite <- Hid, String.eqb_refl in Hne. discriminate Hne.
Qed.

(** *** The fallback store *)

Lemma save_unparseable now j ls :
  jsonParse [] (localJournals ls) = None →
  saveJournalToLocalStorage now j ls
  = (ls, [Console LError "Failed to save journal to localStorage:"]).
Proof. intros H. unfold saveJournalToLocalStorage. by rewrite H. Qed.

Lemma save_parsed now j ls stored :
  jsonParse [] (localJournals ls) = Some stored →
  ∃ stored',
    saveJournalToLocalStorage now j ls
    = (setLocalJournals (Parsed stored') ls, [StorageSetItem "localJournals"])
    ∧ (withUpdatedAt now j ∈ stored' ∨ j ∈ stored').
Proof.
  intros H. unfold saveJournalToLocalStorage. rewrite H.
  destruct (findIndex (Journal.id j) stored) as [i |] eqn:E.
  - eexists. split; [reflexivity |]. left.
    apply findIndex_Some in E as (j0 & Hl & _).
    eapply list_elem_of_lookup_2, list_lookup_insert_eq. by eapply lookup_lt_Some.
  - eexists. split; [reflexivity |]. right. apply elem_of_app. right. by left.
Qed.

Lemma save_ids now j ls stored :
  jsonParse [] (localJournals ls) = Some stored →
  ∃ stored',
    fst (saveJournalToLocalStorage now j ls) = setLocalJournals (Parsed stored') ls
    ∧ Journal.id j ∈ ids stored'
    ∧ (NoDup (ids stored) → NoDup (ids stored')).
Proof.
  intros H. unfold saveJournalToLocalStorage. rewrite H.
  destruct (findIndex (Journal.id j) stored) as [i |] eqn:E.
  - eexists. split; [reflexivity |].
    apply findIndex_Some in E as (j0 & Hl & Hid & _).
    assert (ids (<[i := withUpdatedAt now j]> stored) = ids stored) as ->.
    { unfold ids. rewrite list_fmap_insert. apply list_insert_id.
      rewrite list_lookup_fmap, Hl. simpl. by rewrite Hid. }
    split; [| done]. unfold ids. apply list_elem_of_fmap. exists j0.
    split; [done |]. by eapply list_elem_of_lookup_2.
  - eexists. split; [reflexivity |]. apply findIndex_None in E.
    unfold ids in *. rewrite fmap_app. simpl. split.
    + apply elem_of_app. right. by left.
    + intros Hnd. apply NoDup_app. split_and!; [done | | apply NoDup_singleton].
      intros x Hx Hx'. apply list_elem_of_singleton in Hx' as ->. done.
Qed.

Lemma save_events now j ls :
  Forall (λ e, isRemoteWrite e = false) (snd (saveJournalToLocalStorage now j ls)).
Proof.
  unfold saveJournalToLocalStorage.
  destruct (jsonParse [] (localJournals ls)); simpl; by repeat constructor.
Qed.

(** *** Rendering the merged view *)

Lemma combinedJournals_userJournals js st :
  combinedJournals (setUserJournals js st) = combinedJournals st.
Proof. reflexivity. Qed.

Lemma combined_ids st :
  ids (combinedJournals st)
  = ids (allJournals st) ++ ids (storedJournals st) ++ ids SAMPLE_JOURNALS.
Proof. unfold combinedJournals, ids, storedJournals. by rewrite !fmap_app. Qed.

Lemma render_ids lang u act js :
  card_id <$> List.map (renderCard lang u act) js = ids js.
Proof.
  induction js as [| j js IH]; [reflexivity |].
  unfold ids in *. cbn. by f_equal.
Qed.

Lemma displayCombined_state st st' ev :
  displayCombinedJournals st = (st', ev) →
  currentUser st' = currentUser st ∧ userJournals st' = userJournals st
  ∧ allJournals st' = allJournals st ∧ localStorage st' = localStorage st
  ∧ form st' = form st ∧ currentLanguage st' = currentLanguage st
  ∧ searchInput st' = searchInput st ∧ filterSelect st' = filterSelect st.
Proof.
  unfold displayCombinedJournals.
  destruct (journalsContainer st); [| by intros [= <- <-]].
  destruct (combinedJournals st); by intros [= <- <-].
Qed.

Lemma displayCombined_shown st st' ev v :
  journalsContainer st = Some v →
  displayCombinedJournals st = (st', ev) →
  shownIds st' = ids (combinedJournals st).
Proof.
  unfold displayCombinedJournals. intros ->.
  destruct (combinedJournals st) as [| j js]; intros [= <- <-]; [reflexivity |].
  apply (render_ids _ _ _ (j :: js)).
Qed.

Lemma displayCombined_container st st' ev :
  displayCombinedJournals st = (st', ev) →
  is_Some (journalsContainer st) → is_Some (journalsContainer st').
Proof.
  unfold displayCombinedJournals. intros H [v Hv]. rewrite Hv in H.
  destruct (combinedJournals st); injection H as <- <-; by eexists.
Qed.

Lemma displayCombined_events st st' ev :
  displayCombinedJournals st = (st', ev) →
  Forall (λ e, isRemoteWrite e = false ∧ isStorageWrite e = false) ev.
Proof.
  unfold displayCombinedJournals.
  destruct (journalsContainer st); [| intros [= <- <-]; constructor].
  destruct (jsonParse _ _), (combinedJournals st); intros [= <- <-];
    by repeat constructor.
Qed.

(** ** Translation cache *)

Lemma withTranslations_same j m :
  Journal.translations j = Some m → withTranslations m j = j.
Proof. destruct j. simpl. by intros ->. Qed.

Lemma translate_cached reply lang j target ls :
  is_Some (cached j target) → translateJournal reply lang j target ls = (j, ls, []).
Proof.
  intros [tr Htr]. unfold translateJournal.
  destruct (_ || _)%bool; [reflexivity |].
  unfold cached in Htr. destruct (Journal.translations j) as [m |] eqn:Hm; [| done].
  simpl in *. rewrite Htr. by rewrite withTranslations_same.
Qed.

Lemma translate_sample reply lang j target ls :
  startsWith (Journal.id j) "sample-" = true →
  translateJournal reply lang j target ls = (j, ls, []).
Proof. intros H. unfold translateJournal. rewrite H. by rewrite orb_true_r. Qed.

Lemma translate_result_cached reply lang j target ls :
  String.eqb (activeLanguage lang) target = false →
  startsWith (Journal.id j) "sample-" = false →
  is_Some (cached (translateJournal reply lang j target ls).1.1 target).
Proof.
  intros H1 H2. unfold translateJournal. rewrite H1, H2. simpl.
  set (table := default ∅ (Journal.translations j)).
  destruct (table !! target) as [tr |] eqn:E.
  - simpl. unfold cached. simpl. by rewrite E.
  - assert (∀ tr j', is_Some (cached (withTranslations (<[target:=tr]> table) j') target))
      as Hc.
    { intros tr j'. unfold cached. simpl. rewrite lookup_insert_eq. by eexists. }
    destruct (startsWith (Journal.id j) "local-"); simpl.
    + destruct (saveTranslationToLocalStorage _ _ _ _). apply Hc.
    + destruct reply; [apply Hc |].
      destruct (saveTranslationToLocalStorage _ _ _ _). apply Hc.
Qed.

Lemma translate_id reply lang j target ls :
  Journal.id (translateJournal reply lang j target ls).1.1 = Journal.id j.
Proof.
  unfold translateJournal.
  destruct (_ || _)%bool; [reflexivity |].
  destruct (_ !! target); [reflexivity |].
  destruct (negb _ && negb _)%bool.
  - destruct reply; [reflexivity |]. by destruct (saveTranslationToLocalStorage _ _ _ _).
  - destruct (startsWith _ "local-"); [| reflexivity].
    by destruct (saveTranslationToLocalStorage _ _ _ _).
Qed.

(** C8.  Translation is idempotent per journal and language: a language
    that [journal.translations] already holds is returned as it is, with no
    effect issued and no field rebuilt; a second request after a first one
    returns the first result unchanged, whatever the remote store answers;
    and a journal of the sample namespace, the three static samples among
    them, is returned untouched. *)
Theorem translation_cache_idempotent reply reply' lang j target ls :
  (is_Some (cached j target) → translateJournal reply lang j target ls = (j, ls, []))
  ∧ (startsWith (Journal.id j) "sample-" = true →
     translateJournal reply lang j target ls = (j, ls, []))
  ∧ (let '(j1, ls1, _) := translateJournal reply lang j target ls in
     translateJournal reply' lang j1 target ls1 = (j1, ls1, []))
  ∧ Forall (λ s, translateJournal reply lang s target ls = (s, ls, [])) SAMPLE_JOURNALS.
Proof.
  split_and!.
  - apply translate_cached.
  - apply translate_sample.
  - pose proof (translate_id reply lang j target ls) as Hid.
    pose proof (translate_result_cached reply lang j target ls) as Hc.
    destruct (translateJournal reply lang j target ls) as [[j1 ls1] ev] eqn:E.
    simpl in Hid, Hc.
    destruct (String.eqb (activeLanguage lang) target) eqn:H1.
    { unfold translateJournal. by rewrite H1. }
    destruct (startsWith (Journal.id j) "sample-") eqn:H2.
    { apply translate_sample. by rewrite Hid. }
    apply translate_cached. by apply Hc.
  - eapply Forall_impl; [apply samples_prefixed |].
    intros s Hs. by apply translate_sample.
Qed.

(** ** Sign-out *)

Lemma displayJournals_samples st v :
  journalsContainer st = Some v →
  displayJournals SAMPLE_JOURNALS false st
  = setInnerHTML
      (Cards (List.map (renderCard (currentLanguage st) (currentUser st) (λ _, false))
                SAMPLE_JOURNALS)) st.
Proof. intros H. unfold displayJournals. by rewrite H. Qed.

(** C7, as the code has it.  When the auth state becomes null the handler
    sets [currentUser] to null and renders exactly the static sample set,
    in its built-in order and read-only; it leaves the in-memory
    [userJournals] and [allJournals] and the fallback store as they were. *)
Theorem sign_out_renders_samples st v :
  journalsContainer st = Some v →
  let st' := fst (authStateListener None st) in
  currentUser st' = None
  ∧ journalsContainer st'
    = Some (Cards (List.map (renderCard (currentLanguage st) None (λ _, false))
                     SAMPLE_JOURNALS))
  ∧ shownIds st' = ids SAMPLE_JOURNALS
  ∧ readOnlyView st'
  ∧ userJournals st' = userJournals st
  ∧ allJournals st' = allJournals st
  ∧ localStorage st' = localStorage st
  ∧ snd (authStateListener None st) = [].
Proof.
  intros Hv. unfold authStateListener. simpl.
  rewrite (displayJournals_samples _ v) by done.
  split_and!; try reflexivity.
  unfold readOnlyView. simpl. by repeat constructor.
Qed.

(** ** Unreadable fallback blob *)

(** C9, as the code has it.  When the blob under [localJournals] does not
    parse, no operation fails: the upsert logs and writes nothing, leaving
    the blob as it is; the listing by owner logs, shows an error message
    and leaves [userJournals] as it was; the read of the merge logs and
    takes the store as empty. *)
Theorem unparseable_blob_is_contained now j msg st :
  jsonParse [] (localJournals (localStorage st)) = None →
  saveJournalToLocalStorage now j (localStorage st)
  = (localStorage st, [Console LError "Failed to save journal to localStorage:"])
  ∧ (let '(st', ev) := loadUserJournalsSettled (Failed msg) st in
     userJournals st' = userJournals st
     ∧ localStorage st' = localStorage st
     ∧ Console LError "Error loading local journals:" ∈ ev
     ∧ ShowMessage "Error loading your journals" "error" ∈ ev)
  ∧ combinedJournals st = allJournals st ++ SAMPLE_JOURNALS
  ∧ (is_Some (journalsContainer st) →
     Console LError "Error parsing localStorage journals:" ∈ snd (displayCombinedJournals st)).
Proof.
  intros H. split_and!.
  - by apply save_unparseable.
  - unfold loadUserJournalsSettled. rewrite H.
    destruct (displayCombinedJournals st) as [st' ev] eqn:E.
    apply displayCombined_state in E as (_ & Hu & _ & Hl & _).
    split_and!; [done | done | |]; rewrite !elem_of_cons; auto.
  - unfold combinedJournals. by rewrite H.
  - intros [v Hv]. unfold displayCombinedJournals. rewrite Hv, H.
    destruct (combinedJournals st); simpl; by left.
Qed.

(** ** Create, update, delete *)

Lemma startsWith_append p s : startsWith (p +:+ s) p = true.
Proof.
  unfold startsWith. induction p as [| c p IH]; [by destruct s |].
  simpl. destruct (ascii_dec c c); [exact IH | congruence].
Qed.

Lemma localId_prefixed now rnd : startsWith (localId now rnd) "local-" = true.
Proof. apply startsWith_append. Qed.

(** [handleJournalSubmit] past its two guards. *)
Lemma submit_unfold now rnd createReply updateReply st u :
  currentUser st = Some u →
  truthy (trim (journalTitle (form st))) = true →
  truthy (trim (journalContent (form st))) = true →
  handleJournalSubmit now rnd createReply updateReply st
  = let jid := journalId (form st) in
    let title := trim (journalTitle (form st)) in
    let content := trim (journalContent (form st)) in
    let tags := parseTags (trim (journalTags (form st))) in
    let '(st1, ev) :=
      if truthy jid then
        if startsWith jid "local-"
        then submitLocalUpdate now u jid title content tags st
        else submitRemoteUpdate now updateReply u jid title content tags st
      else submitCreate now rnd createReply u title content tags st in
    (setForm emptyForm st1, ev ++ [RemoteGetDocs (Some (uid u))]).
Proof. intros Hu Ht Hc. unfold handleJournalSubmit. by rewrite Hu, Ht, Hc. Qed.

Ltac split_display E :=
  match goal with
  | |- context [displayCombinedJournals ?s] =>
      let st' := fresh "st'" in
      let ev := fresh "ev" in
      destruct (displayCombinedJournals s) as [st' ev] eqn:E
  end.

Lemma submitCreate_settled now rnd docId u title content tags st :
  let st' := fst (submitCreate now rnd (Settled docId) u title content tags st) in
  userJournals st' = freshRecord docId u title content tags now :: userJournals st
  ∧ localStorage st' = localStorage st.
Proof.
  cbv zeta. unfold submitCreate. split_display Ed. simpl.
  apply displayCombined_state in Ed as (_ & Hj & _ & Hl & _). by rewrite Hj, Hl.
Qed.

Lemma submitCreate_fallback now rnd reply u title content tags st :
  (∀ docId, reply ≠ Settled docId) →
  let j := freshRecord (localId now rnd) u title content tags now in
  let st' := fst (submitCreate now rnd reply u title content tags st) in
  userJournals st' = j :: userJournals st
  ∧ localStorage st' = fst (saveJournalToLocalStorage now j (localStorage st))
  ∧ (is_Some (jsonParse [] (localJournals (localStorage st))) → j ∈ storedJournals st').
Proof.
  intros Hr. cbv zeta.
  assert (submitCreate now rnd reply u title content tags st
          = submitCreate now rnd TimedOut u title content tags st) as ->.
  { destruct reply as [d | |]; [by destruct (Hr d) | reflexivity..]. }
  unfold submitCreate.
  set (j := freshRecord (localId now rnd) u title content tags now).
  destruct (saveJournalToLocalStorage now j (localStorage st)) as [ls' e1] eqn:Es.
  split_display Ed. simpl.
  apply displayCombined_state in Ed as (_ & Hj & _ & Hl & _). simpl in Hj, Hl.
  split_and!; [done.. |].
  intros [stored Hs]. unfold storedJournals. rewrite Hl.
  destruct (save_parsed now j (localStorage st) stored Hs) as (stored' & Heq & Hin).
  rewrite Es in Heq. injection Heq as -> _. simpl. by destruct Hin.
Qed.

Lemma display_no_remote st st' ev :
  displayCombinedJournals st = (st', ev) → Forall (λ e, isRemoteWrite e = false) ev.
Proof.
  intros H. eapply Forall_impl; [by eapply displayCombined_events |]. by intros e [? ?].
Qed.

Lemma display_no_storage st st' ev :
  displayCombinedJournals st = (st', ev) → Forall (λ e, isStorageWrite e = false) ev.
Proof.
  intros H. eapply Forall_impl; [by eapply displayCombined_events |]. by intros e [? ?].
Qed.

Lemma submitLocalUpdate_facts now u jid title content tags st :
  let '(st', ev) := submitLocalUpdate now u jid title content tags st in
  Forall (λ e, isRemoteWrite e = false) ev
  ∧ localStorage st'
    = fst (saveJournalToLocalStorage now (freshRecord jid u title content tags now)
             (localStorage st))
  ∧ allJournals st' = allJournals st.
Proof.
  unfold submitLocalUpdate.
  pose proof (save_events now (freshRecord jid u title content tags now) (localStorage st))
    as Hs.
  destruct (saveJournalToLocalStorage _ _ _) as [ls e1]. split_display Ed.
  pose proof (display_no_remote _ _ _ Ed) as Hd.
  apply displayCombined_state in Ed as (_ & _ & Ha & Hl & _).
  split_and!; [| done..].
  rewrite !Forall_app. split_and!; [done.. |]. by repeat constructor.
Qed.

Lemma submitRemoteUpdate_facts now reply u jid title content tags st :
  let '(st', ev) := submitRemoteUpdate now reply u jid title content tags st in
  ∃ rest,
    ev = RemoteUpdateJournal jid title content tags 5000 :: rest
    ∧ Forall (λ e, isRemoteWrite e = false) rest
    ∧ if updateSucceeded reply
      then localStorage st' = localStorage st
           ∧ Forall (λ e, isStorageWrite e = false) rest
      else localStorage st'
           = fst (saveJournalToLocalStorage now (freshRecord jid u title content tags now)
                    (localStorage st)).
Proof.
  unfold submitRemoteUpdate. destruct (updateSucceeded reply).
  - split_display Ed.
    pose proof (display_no_remote _ _ _ Ed) as Hd.
    pose proof (display_no_storage _ _ _ Ed) as Hw.
    apply displayCombined_state in Ed as (_ & _ & _ & Hl & _).
    eexists. split; [reflexivity |].
    rewrite !Forall_app. split_and!; [done | | done | done |]; by repeat constructor.
  - pose proof (save_events now (freshRecord jid u title content tags now) (localStorage st))
      as Hs.
    destruct (saveJournalToLocalStorage _ _ _) as [ls e1]. split_display Ed.
    pose proof (display_no_remote _ _ _ Ed) as Hd.
    apply displayCombined_state in Ed as (_ & _ & _ & Hl & _).
    eexists. split; [reflexivity |]. split; [| done].
    constructor; [reflexivity |].
    rewrite !Forall_app. split_and!; [done.. |]. by repeat constructor.
Qed.


(** ** The merged view and the in-memory lists *)

Lemma displayCombined_shown_fst st v :
  journalsContainer st = Some v →
  shownIds (fst (displayCombinedJournals st)) = ids (combinedJournals st).
Proof.
  intros Hv. destruct (displayCombinedJournals st) as [st' ev] eqn:E.
  by eapply displayCombined_shown.
Qed.

Lemma loadUser_shown reply st v :
  journalsContainer st = Some v →
  shownIds (fst (loadUserJournalsSettled reply st)) = ids (combinedJournals st).
Proof.
  intros Hv. unfold loadUserJournalsSettled.
  destruct reply as [docs | msg]; [by rewrite (displayCombined_shown_fst _ v) |].
  destruct (jsonParse [] _) as [[| j stored] |], (currentUser st) as [u |];
    (split_display Ed; simpl;
     apply displayCombined_shown with (v := v) in Ed; [exact Ed | exact Hv]).
Qed.

Lemma loadAll_shown docs st u v :
  currentUser st = Some u →
  journalsContainer st = Some v →
  shownIds (fst (loadAllJournalsSettled (Ok docs) st))
  = ids docs ++ ids (storedJournals st) ++ ids SAMPLE_JOURNALS.
Proof.
  intros Hu Hv. unfold loadAllJournalsSettled. simpl. rewrite Hu.
  rewrite (displayCombined_shown_fst _ v) by done. by rewrite combined_ids.
Qed.

Lemma not_sample_id x : startsWith x "sample-" = false → x ∉ ids SAMPLE_JOURNALS.
Proof. intros H Hin. apply sample_id_prefixed in Hin. congruence. Qed.

(** C10.  The merged view of an authenticated user is built from
    [allJournals], the fallback store and the static samples only:
    replacing [userJournals] by any list leaves the merge unchanged.  So a
    journal just created on the remote store, whose id is not yet in
    [allJournals] nor in the fallback store, is in [userJournals] but on no
    card of the view the handler renders; it stays off the view when the
    reload of [userJournals] settles, whatever its result, and is shown once
    [allJournals] has been fetched again with it. *)
Theorem merged_view_ignores_owned_list now rnd docId updateReply st u v :
  currentUser st = Some u →
  journalsContainer st = Some v →
  journalId (form st) = "" →
  truthy (trim (journalTitle (form st))) = true →
  truthy (trim (journalContent (form st))) = true →
  docId ∉ ids (allJournals st) →
  docId ∉ ids (storedJournals st) →
  startsWith docId "sample-" = false →
  let st' := fst (handleJournalSubmit now rnd (Settled docId) updateReply st) in
  (∀ js, combinedJournals (setUserJournals js st) = combinedJournals st)
  ∧ docId ∈ ids (userJournals st')
  ∧ shownIds st'
    = ids (allJournals st) ++ ids (storedJournals st) ++ ids SAMPLE_JOURNALS
  ∧ (docId ∉ shownIds st')
  ∧ (∀ reply, docId ∉ shownIds (fst (loadUserJournalsSettled reply st')))
  ∧ (∀ docs, docId ∈ ids docs →
       docId ∈ shownIds (fst (loadAllJournalsSettled (Ok docs) st'))).
Proof.
  intros Hu Hv Hid Ht Hc Hall Hst Hsm. cbv zeta.
  rewrite (submit_unfold _ _ _ _ _ u) by done. cbv zeta. rewrite Hid.
  change (truthy "") with false. cbv iota.
  set (title := trim (journalTitle (form st))).
  set (content := trim (journalContent (form st))).
  set (tags := parseTags (trim (journalTags (form st)))).
  unfold submitCreate.
  set (st1 := setUserJournals (freshRecord docId u title content tags now :: userJournals st) st).
  destruct (displayCombinedJournals st1) as [st2 ev] eqn:Ed. cbn [fst].
  pose proof (displayCombined_shown st1 st2 ev v Hv Ed) as Hshown.
  pose proof (displayCombined_container st1 st2 ev Ed) as [v2 Hv2]; [by eexists |].
  apply displayCombined_state in Ed as (Hu2 & Hj & Ha & Hl & _).
  assert (combinedJournals (setForm emptyForm st2) = combinedJournals st) as Hcomb.
  { unfold combinedJournals. simpl. by rewrite Ha, Hl. }
  assert (docId ∉ ids (combinedJournals st)) as Hout.
  { rewrite combined_ids, !elem_of_app.
    intros [? | [? | ?]]; [done | done |]. by apply (not_sample_id docId). }
  split_and!.
  - intros js. apply combinedJournals_userJournals.
  - change (docId ∈ ids (userJournals st2)). rewrite Hj. cbn. by left.
  - change (shownIds st2 = ids (allJournals st) ++ ids (storedJournals st)
                            ++ ids SAMPLE_JOURNALS).
    rewrite Hshown. exact (combined_ids st).
  - change (docId ∉ shownIds st2). rewrite Hshown. exact Hout.
  - intros reply. rewrite (loadUser_shown _ _ v2) by done. by rewrite Hcomb.
  - intros docs Hin. rewrite (loadAll_shown _ _ u v2); [| by rewrite <- Hu | done].
    apply elem_of_app. by left.
Qed.

(** ** Downgrade of a remote journal *)

Lemma submitRemoteUpdate_failed now reply u jid title content tags st v :
  updateSucceeded reply = false →
  journalsContainer st = Some v →
  let st' := fst (submitRemoteUpdate now reply u jid title content tags st) in
  allJournals st' = spliceById jid (allJournals st)
  ∧ localStorage st'
    = fst (saveJournalToLocalStorage now (freshRecord jid u title content tags now)
             (localStorage st))
  ∧ shownIds st'
    = ids (allJournals st') ++ ids (storedJournals st') ++ ids SAMPLE_JOURNALS.
Proof.
  intros Hf Hv. cbv zeta. unfold submitRemoteUpdate. rewrite Hf.
  destruct (saveJournalToLocalStorage _ _ _) as [ls e1]. split_display Ed. cbn [fst].
  pose proof Ed as Hs. apply displayCombined_shown with (v := v) in Hs; [| exact Hv].
  apply displayCombined_state in Ed as (_ & _ & Ha & Hl & _).
  split_and!; [exact Ha | exact Hl |].
  rewrite Hs, combined_ids. unfold storedJournals. by rewrite Ha, Hl.
Qed.

(** C2, as the code has it.  Take a journal whose id is in the remote
    namespace (not empty, neither ["local-"] nor ["sample-"]), an
    [allJournals] list and a readable fallback store that each hold every id
    at most once.  When its remote update fails or times out, the state the
    handler returns has the id on no entry of [allJournals], on exactly one
    record of the fallback store and on exactly one card of the rendered
    merge.  The merge itself removes nothing: in any state its cards are
    those of [allJournals], of the fallback store and of the samples, in
    that order. *)
Theorem failed_remote_update_downgrades now rnd createReply updateReply st u v stored :
  currentUser st = Some u →
  journalsContainer st = Some v →
  truthy (journalId (form st)) = true →
  startsWith (journalId (form st)) "local-" = false →
  startsWith (journalId (form st)) "sample-" = false →
  truthy (trim (journalTitle (form st))) = true →
  truthy (trim (journalContent (form st))) = true →
  updateSucceeded updateReply = false →
  jsonParse [] (localJournals (localStorage st)) = Some stored →
  NoDup (ids stored) →
  NoDup (ids (allJournals st)) →
  let jid := journalId (form st) in
  let st' := fst (handleJournalSubmit now rnd createReply updateReply st) in
  occurrences jid (ids (allJournals st')) = 0%nat
  ∧ occurrences jid (ids (storedJournals st')) = 1%nat
  ∧ occurrences jid (shownIds st') = 1%nat
  ∧ (∀ s w, journalsContainer s = Some w →
       shownIds (fst (displayCombinedJournals s))
       = ids (allJournals s) ++ ids (storedJournals s) ++ ids SAMPLE_JOURNALS).
Proof.
  intros Hu Hv Hid Hloc Hsam Ht Hc Hf Hp Hnd Hnda. cbv zeta.
  rewrite (submit_unfold _ _ _ _ _ u) by done. cbv zeta. rewrite Hid, Hloc.
  set (jid := journalId (form st)) in *.
  set (title := trim (journalTitle (form st))).
  set (content := trim (journalContent (form st))).
  set (tags := parseTags (trim (journalTags (form st)))).
  pose proof (submitRemoteUpdate_failed now updateReply u jid title content tags st v Hf Hv)
    as (Ha & Hl & Hs).
  destruct (submitRemoteUpdate _ _ _ _ _ _ _ _) as [st1 ev]. cbn [fst] in *.
  change (occurrences jid (ids (allJournals st1)) = 0%nat
          ∧ occurrences jid (ids (storedJournals st1)) = 1%nat
          ∧ occurrences jid (shownIds st1) = 1%nat
          ∧ (∀ s w, journalsContainer s = Some w →
               shownIds (fst (displayCombinedJournals s))
               = ids (allJournals s) ++ ids (storedJournals s) ++ ids SAMPLE_JOURNALS)).
  assert (occurrences jid (ids (allJournals st1)) = 0%nat) as H0.
  { apply occurrences_absent. rewrite Ha. by apply spliceById_absent. }
  assert (occurrences jid (ids (storedJournals st1)) = 1%nat) as H1.
  { destruct (save_ids now (freshRecord jid u title content tags now) (localStorage st)
                stored Hp) as (stored' & Heq & Hin & Hnd').
    unfold storedJournals. rewrite Hl, Heq. simpl.
    apply occurrences_NoDup; [by apply Hnd' | exact Hin]. }
  split_and!; [done | done | |].
  - rewrite Hs, !occurrences_app, H0, H1.
    rewrite (occurrences_absent jid (ids SAMPLE_JOURNALS)); [reflexivity |].
    by apply not_sample_id.
  - intros s w Hw. rewrite (displayCombined_shown_fst s w Hw). apply combined_ids.
Qed.

(** ** Facts about the handlers that take no notice of the caller *)

(** [deleteJournal] never reads [currentUser] to decide: whoever is signed
    in, the same fallback store results and the same effects are issued. *)
Lemma delete_ignores_caller confirmed reply jid st who :
  let r1 := deleteJournal confirmed reply jid st in
  let r2 := deleteJournal confirmed reply jid (setCurrentUser who st) in
  localStorage (fst r1) = localStorage (fst r2)
  ∧ userJournals (fst r1) = userJournals (fst r2)
  ∧ snd r1 = snd r2.
Proof.
  cbv zeta. unfold deleteJournal.
  destruct confirmed; simpl; [| done].
  assert (∀ s, let r1 := displayCombinedJournals s in
               let r2 := displayCombinedJournals (setCurrentUser who s) in
               localStorage (fst r1) = localStorage (fst r2)
               ∧ userJournals (fst r1) = userJournals (fst r2)
               ∧ snd r1 = snd r2) as Hd.
  { intros s. cbv zeta. unfold displayCombinedJournals. simpl.
    destruct (journalsContainer s); [| done].
    change (combinedJournals (setCurrentUser who s)) with (combinedJournals s).
    by destruct (combinedJournals s). }
  destruct (startsWith jid "local-").
  - destruct (jsonParse [] _) as [stored |]; [| done].
    set (s := setUserJournals (removeById jid (userJournals st))
                (setLocalStorage
                   (setLocalJournals (Parsed (removeById jid stored)) (localStorage st))
                   st)).
    specialize (Hd s). cbv zeta in Hd.
    change (displayCombinedJournals
              (setUserJournals ?a (setLocalStorage ?b (setCurrentUser who st))))
      with (displayCombinedJournals (setCurrentUser who s)).
    destruct (displayCombinedJournals _) as [s1 e1], (displayCombinedJournals _) as [s2 e2].
    simpl in *. destruct Hd as (? & ? & ->). done.
  - destruct reply as [[] | msg]; [| done].
    specialize (Hd (setUserJournals (removeById jid (userJournals st)) st)).
    cbv zeta in Hd.
    change (displayCombinedJournals
              (setUserJournals (removeById jid (userJournals (setCurrentUser who st)))
                 (setCurrentUser who st)))
      with (displayCombinedJournals
              (setCurrentUser who (setUserJournals (removeById jid (userJournals st)) st))).
    destruct (displayCombinedJournals _) as [s1 e1], (displayCombinedJournals _) as [s2 e2].
    simpl in *. destruct Hd as (? & ? & ->). done.
Qed.

(** ** Search *)

(** The search never reaches the fallback store: whatever it shows comes
    from [allJournals] or from the samples. *)
Lemma search_skips_fallback st j :
  In j (filteredJournals st) → In j (allJournals st) ∨ In j SAMPLE_JOURNALS.
Proof.
  unfold filteredJournals.
  set (pool := match searchPool st with [] => SAMPLE_JOURNALS | p => p end).
  assert (∀ x, In x pool → In x (allJournals st) ∨ In x SAMPLE_JOURNALS) as Hpool.
  { intros x. unfold pool, searchPool.
    destruct (currentUser st).
    - destruct (allJournals st ++ SAMPLE_JOURNALS) eqn:E; [by right |].
      rewrite <- E. apply in_app_or.
    - destruct (allJournals st); [by right | by left]. }
  intros H.
  assert (In j pool) as Hj; [| by apply Hpool].
  destruct (String.eqb _ "oldest"); [apply in_rev in H |];
    (destruct (truthy _); [by apply filter_In in H as [? _] | done]).
Qed.

Lemma toLowerCase_idempotent s : toLowerCase (toLowerCase s) = toLowerCase s.
Proof.
  induction s as [| c s IH]; [reflexivity |]. simpl. f_equal; [| exact IH].
  unfold lowerAscii.
  destruct c as [[] [] [] [] [] [] [] []]; reflexivity.
Qed.

(** The match does not depend on the case of what was typed. *)
Lemma search_term_case st typed :
  filteredJournals (setSearch (Some typed) (filterSelect st) st)
  = filteredJournals (setSearch (Some (toLowerCase typed)) (filterSelect st) st).
Proof.
  unfold filteredJournals, searchPool. simpl. by rewrite toLowerCase_idempotent.
Qed.

(** Oldest-first is the reverse of what the default order shows. *)
Lemma oldest_reverses st :
  filteredJournals (setSearch (searchInput st) (Some "oldest") st)
  = rev (filteredJournals (setSearch (searchInput st) None st)).
Proof. reflexivity. Qed.


(** ** More on the fallback store *)

Lemma findById_insert_other x i (j' : Journal.t) js j0 :
  js !! i = Some j0 → Journal.id j0 ≠ x → Journal.id j' ≠ x →
  findById x (<[i := j']> js) = findById x js.
Proof.
  unfold findById. revert i. induction js as [| k js IH]; intros i Hl H0 H1; [done |].
  destruct i as [| i]; simpl in *.
  - injection Hl as ->. rewrite !decide_False by done. simpl.
    by destruct (list_find _ js) as [[? ?] |].
  - destruct (decide (Journal.id k = x)); [reflexivity |].
    specialize (IH i Hl H0 H1).
    destruct (list_find _ (<[i:=j']> js)) as [[? ?] |],
             (list_find _ js) as [[? ?] |]; simpl in *; congruence.
Qed.

Lemma findById_app_other x js (j : Journal.t) :
  Journal.id j ≠ x → findById x (js ++ [j]) = findById x js.
Proof.
  intros Hne. unfold findById. induction js as [| k js IH]; simpl.
  - by rewrite decide_False.
  - destruct (decide (Journal.id k = x)); [reflexivity |].
    destruct (list_find _ (js ++ [j])) as [[? ?] |],
             (list_find _ js) as [[? ?] |]; simpl in *; congruence.
Qed.

Lemma findById_insert_here i (j' : Journal.t) js :
  findIndex (Journal.id j') js = Some i →
  findById (Journal.id j') (<[i := j']> js) = Some j'.
Proof.
  intros E. unfold findIndex in E.
  destruct (list_find _ js) as [[i0 j0] |] eqn:Hf; [| done]. simpl in E.
  injection E as ->. apply list_find_Some in Hf as (Hl & Hid & Hbefore).
  unfold findById.
  assert (list_find (λ j, Journal.id j = Journal.id j') (<[i:=j']> js) = Some (i, j')) as ->;
    [| reflexivity].
  apply list_find_Some. split_and!; [| done |].
  - apply list_lookup_insert_eq. by eapply lookup_lt_Some.
  - intros k y Hk Hlt. rewrite list_lookup_insert_ne in Hk by lia. by eapply Hbefore.
Qed.

Lemma findById_app_here js (j : Journal.t) :
  Journal.id j ∉ ids js → findById (Journal.id j) (js ++ [j]) = Some j.
Proof.
  intros Hn. unfold findById.
  assert (list_find (λ k, Journal.id k = Journal.id j) (js ++ [j]) = Some (length js, j))
    as ->; [| reflexivity].
  apply list_find_Some. split_and!; [| done |].
  - rewrite lookup_app_r by lia. by rewrite Nat.sub_diag.
  - intros k y Hk Hlt Hy. rewrite lookup_app_l in Hk by lia.
    apply Hn. unfold ids. apply list_elem_of_fmap. exists y.
    split; [done |]. by eapply list_elem_of_lookup_2.
Qed.

(** X1.  The upsert on a readable store: a record whose id is new is
    appended as it is, a record whose id is stored replaces the first
    record of that id and gets a fresh [updatedAt]; every record of another
    id is found as before, the list grows by one only for a new id, and ids
    that were unique stay unique. *)
Theorem upsert_lookup now j ls stored :
  jsonParse [] (localJournals ls) = Some stored →
  ∃ stored',
    fst (saveJournalToLocalStorage now j ls) = setLocalJournals (Parsed stored') ls
    ∧ findById (Journal.id j) stored'
      = Some (if decide (Journal.id j ∈ ids stored) then withUpdatedAt now j else j)
    ∧ (∀ x, x ≠ Journal.id j → findById x stored' = findById x stored)
    ∧ length stored'
      = (if decide (Journal.id j ∈ ids stored) then length stored else S (length stored))
    ∧ (NoDup (ids stored) → NoDup (ids stored')).
Proof.
  intros Hp.
  destruct (save_ids now j ls stored Hp) as (stored0 & Heq0 & _ & Hnd).
  unfold saveJournalToLocalStorage in *. rewrite Hp in *.
  destruct (findIndex (Journal.id j) stored) as [i |] eqn:E.
  - pose proof E as E'. apply findIndex_Some in E' as (j0 & Hl & Hid & _).
    assert (Journal.id j ∈ ids stored) as Hin.
    { unfold ids. apply list_elem_of_fmap. exists j0.
      split; [done |]. by eapply list_elem_of_lookup_2. }
    rewrite !decide_True by done.
    eexists. split; [reflexivity |]. simpl in Heq0. injection Heq0 as Heq0.
    split_and!.
    + by apply (findById_insert_here i (withUpdatedAt now j)).
    + intros x Hx. apply (findById_insert_other x i _ _ j0); [done | congruence |].
      simpl. congruence.
    + apply length_insert.
    + intros H. rewrite Heq0. by apply Hnd.
  - pose proof E as E'. apply findIndex_None in E'.
    rewrite !decide_False by done.
    eexists. split; [reflexivity |]. simpl in Heq0. injection Heq0 as Heq0.
    split_and!.
    + by apply findById_app_here.
    + intros x Hx. apply findById_app_other. congruence.
    + rewrite length_app. simpl. lia.
    + intros H. rewrite Heq0. by apply Hnd.
Qed.

Lemma removeById_app jid js1 js2 :
  removeById jid (js1 ++ js2) = removeById jid js1 ++ removeById jid js2.
Proof. unfold removeById. apply List.filter_app. Qed.

Lemma removeById_fresh jid js : jid ∉ ids js → removeById jid js = js.
Proof.
  induction js as [| k js IH]; intros Hn; [reflexivity |].
  unfold ids in Hn. rewrite fmap_cons in Hn. apply not_elem_of_cons in Hn as [Hne Hn].
  unfold removeById in *. simpl.
  assert (String.eqb (Journal.id k) jid = false) as ->.
  { apply String.eqb_neq. congruence. }
  simpl. f_equal. by apply IH.
Qed.

Lemma storedJournals_parsed st js :
  localJournals (localStorage st) = Parsed js → storedJournals st = js.
Proof. intros H. unfold storedJournals. by rewrite H. Qed.

Lemma removeById_cons_same (j : Journal.t) js :
  removeById (Journal.id j) (j :: js) = removeById (Journal.id j) js.
Proof. unfold removeById. simpl. by rewrite String.eqb_refl. Qed.

(** X2.  An offline create followed by the delete of the created journal
    is a round trip: when the generated ["local-"] id is not yet used, the
    fallback store holds the records it held before and [userJournals] is
    the list it was. *)
Theorem offline_create_then_delete now rnd createReply updateReply reply st u stored :
  currentUser st = Some u →
  journalId (form st) = "" →
  truthy (trim (journalTitle (form st))) = true →
  truthy (trim (journalContent (form st))) = true →
  (∀ docId, createReply ≠ Settled docId) →
  jsonParse [] (localJournals (localStorage st)) = Some stored →
  localId now rnd ∉ ids stored →
  localId now rnd ∉ ids (userJournals st) →
  let st1 := fst (handleJournalSubmit now rnd createReply updateReply st) in
  let st2 := fst (deleteJournal true reply (localId now rnd) st1) in
  localId now rnd ∈ ids (storedJournals st1)
  ∧ storedJournals st2 = stored
  ∧ userJournals st2 = userJournals st
  ∧ allJournals st2 = allJournals st.
Proof.
  intros Hu Hid Ht Hc Hr Hp Hfs Hfu. cbv zeta.
  rewrite (submit_unfold _ _ _ _ _ u) by done. cbv zeta. rewrite Hid.
  change (truthy "") with false. cbv iota.
  set (title := trim (journalTitle (form st))).
  set (content := trim (journalContent (form st))).
  set (tags := parseTags (trim (journalTags (form st)))).
  set (j := freshRecord (localId now rnd) u title content tags now).
  pose proof (submitCreate_fallback now rnd createReply u title content tags st Hr)
    as (Hj & Hl & _).
  assert (submitCreate now rnd createReply u title content tags st
          = submitCreate now rnd TimedOut u title content tags st) as Hsame.
  { destruct createReply as [d | |]; [by destruct (Hr d) | reflexivity..]. }
  assert (allJournals (fst (submitCreate now rnd createReply u title content tags st))
          = allJournals st) as Ha.
  { rewrite Hsame. unfold submitCreate.
    destruct (saveJournalToLocalStorage _ _ _) as [ls e1]. split_display Ed. simpl.
    by apply displayCombined_state in Ed as (_ & _ & Ha & _). }
  destruct (submitCreate _ _ _ _ _ _ _ _) as [st1 ev1]. cbn [fst] in *.
  fold j in Hj, Hl.
  assert (localStorage st1 = setLocalJournals (Parsed (stored ++ [j])) (localStorage st))
    as Hl'.
  { rewrite Hl. unfold saveJournalToLocalStorage. rewrite Hp.
    assert (findIndex (Journal.id j) stored = None) as -> by by apply findIndex_None.
    reflexivity. }
  unfold deleteJournal. cbn [negb]. rewrite localId_prefixed.
  cbn [localStorage setForm]. rewrite Hl'. cbn [jsonParse localJournals setLocalJournals].
  split_display Ed.
  apply displayCombined_state in Ed as (_ & Hj2 & Ha2 & Hl2 & _).
  cbn [fst userJournals allJournals localStorage setUserJournals setLocalStorage setForm]
    in *.
  change (localId now rnd) with (Journal.id j) in Hj2, Hl2, Hfs, Hfu |- *.
  split_and!.
  - rewrite (storedJournals_parsed _ (stored ++ [j]))
      by (cbn [localStorage setForm]; by rewrite Hl').
    unfold ids. rewrite fmap_app. apply elem_of_app. right. by left.
  - rewrite (storedJournals_parsed _ (removeById (Journal.id j) (stored ++ [j])))
      by (by rewrite Hl2).
    rewrite removeById_app, removeById_fresh by done.
    rewrite removeById_cons_same. apply app_nil_r.
  - rewrite Hj2, Hj, removeById_cons_same. by apply removeById_fresh.
  - by rewrite Ha2.
Qed.

Lemma filter_own_spec (u : User) js j :
  j ∈ List.filter (λ k : Journal.t, bool_decide (Journal.userId k = Some (uid u))) js
  ↔ j ∈ js ∧ Journal.userId j = Some (uid u).
Proof.
  rewrite !list_elem_of_In, filter_In. by rewrite bool_decide_eq_true.
Qed.

(** X3.  What was written through the fallback path is read back by the
    listing by owner: after an offline create, when the reload of the
    owner's journals fails as well, [userJournals] is exactly the part of
    the fallback store owned by the user, and it holds the new record with
    the submitted title, content and tags. *)
Theorem offline_create_is_listed now rnd createReply updateReply msg st u stored :
  currentUser st = Some u →
  journalId (form st) = "" →
  truthy (trim (journalTitle (form st))) = true →
  truthy (trim (journalContent (form st))) = true →
  (∀ docId, createReply ≠ Settled docId) →
  jsonParse [] (localJournals (localStorage st)) = Some stored →
  let st1 := fst (handleJournalSubmit now rnd createReply updateReply st) in
  let st2 := fst (loadUserJournalsSettled (Failed msg) st1) in
  (∃ j, j ∈ userJournals st2
        ∧ Journal.id j = localId now rnd
        ∧ Journal.title j = trim (journalTitle (form st))
        ∧ Journal.content j = trim (journalContent (form st))
        ∧ Journal.tags j = parseTags (trim (journalTags (form st))))
  ∧ (∀ j, j ∈ userJournals st2
          ↔ j ∈ storedJournals st1 ∧ Journal.userId j = Some (uid u)).
Proof.
  intros Hu Hid Ht Hc Hr Hp. cbv zeta.
  rewrite (submit_unfold _ _ _ _ _ u) by done. cbv zeta. rewrite Hid.
  change (truthy "") with false. cbv iota.
  set (title := trim (journalTitle (form st))).
  set (content := trim (journalContent (form st))).
  set (tags := parseTags (trim (journalTags (form st)))).
  set (j := freshRecord (localId now rnd) u title content tags now).
  pose proof (submitCreate_fallback now rnd createReply u title content tags st Hr)
    as (_ & Hl & Hin).
  specialize (Hin (ex_intro _ stored Hp)). fold j in Hl, Hin.
  assert (currentUser (fst (submitCreate now rnd createReply u title content tags st))
          = Some u) as Hu1.
  { assert (submitCreate now rnd createReply u title content tags st
            = submitCreate now rnd TimedOut u title content tags st) as ->.
    { destruct createReply as [d | |]; [by destruct (Hr d) | reflexivity..]. }
    unfold submitCreate.
    destruct (saveJournalToLocalStorage _ _ _) as [ls e1]. split_display Ed. simpl.
    apply displayCombined_state in Ed as (Hu' & _). by rewrite Hu'. }
  destruct (submitCreate _ _ _ _ _ _ _ _) as [st1 ev1]. cbn [fst] in *.
  assert (∃ stored1, jsonParse [] (localJournals (localStorage st1)) = Some stored1
                      ∧ storedJournals st1 = stored1) as (stored1 & Hp1 & Hs1).
  { destruct (save_parsed now j (localStorage st) stored Hp) as (s' & Heq & _).
    exists s'. unfold storedJournals. rewrite Hl, Heq. by simpl. }
  unfold loadUserJournalsSettled. cbn [localStorage currentUser setForm].
  rewrite Hp1, Hu1. split_display Ed.
  apply displayCombined_state in Ed as (_ & Hj2 & _).
  assert (∀ (l : list Journal.t) (x : State * list Event),
            match l with [] | _ => x end = x) as Hm by (by intros []).
  rewrite Hm. cbn [fst]. rewrite Hj2. simpl.
  change (storedJournals (setForm emptyForm st1)) with (storedJournals st1).
  rewrite Hs1 in *. split.
  - exists j. split_and!; [| reflexivity..]. by apply filter_own_spec.
  - intros k. apply filter_own_spec.
Qed.


(** ** Tags and the edit form *)

Lemma splitAcc_splitComma acc s :
  splitAcc acc s
  = match splitComma s with
    | p :: ps => String.rev_app acc p :: ps
    | [] => []
    end.
Proof.
  unfold splitComma. revert acc. induction s as [| c s IH]; intros acc; [reflexivity |].
  simpl. destruct (Ascii.eqb c ",") eqn:E; [reflexivity |].
  rewrite (IH (String c acc)), (IH (String c EmptyString)).
  by destruct (splitAcc EmptyString s).
Qed.

Lemma splitComma_nil : splitComma "" = [""].
Proof. reflexivity. Qed.

Lemma splitComma_comma s : splitComma (String "," s) = "" :: splitComma s.
Proof. reflexivity. Qed.

Lemma splitComma_other c s :
  c ≠ ","%char →
  splitComma (String c s)
  = match splitComma s with p :: ps => String c p :: ps | [] => [] end.
Proof.
  intros Hc. unfold splitComma at 1. simpl.
  apply Ascii.eqb_neq in Hc as ->. by rewrite splitAcc_splitComma.
Qed.

Lemma splitComma_nonempty s : splitComma s ≠ [].
Proof.
  induction s as [| c s IH]; [done |].
  destruct (ascii_dec c ",") as [-> | Hc]; [done |].
  rewrite splitComma_other by done. by destruct (splitComma s).
Qed.

Lemma noComma_cons c s : noComma (String c s) ↔ c ≠ ","%char ∧ noComma s.
Proof. unfold noComma. simpl. by rewrite Forall_cons. Qed.

Lemma splitComma_pieces s : Forall noComma (splitComma s).
Proof.
  induction s as [| c s IH]; [by repeat constructor |].
  destruct (ascii_dec c ",") as [-> | Hc].
  - rewrite splitComma_comma. constructor; [constructor | done].
  - rewrite splitComma_other by done.
    destruct (splitComma s) as [| p ps]; [constructor |].
    apply Forall_cons in IH as [Hp Hps]. constructor; [| done].
    by apply noComma_cons.
Qed.

(** A piece without a comma in front of more text stays in front of the
    first piece of that text. *)
Lemma splitComma_app t s :
  noComma t →
  splitComma (t +:+ s)
  = match splitComma s with p :: ps => (t +:+ p) :: ps | [] => [] end.
Proof.
  induction t as [| c t IH]; intros Ht.
  - change ("" +:+ s) with s. by destruct (splitComma s).
  - apply noComma_cons in Ht as [Hc Ht].
    change (String c t +:+ s) with (String c (t +:+ s)).
    rewrite splitComma_other by done. rewrite IH by done.
    by destruct (splitComma s).
Qed.

Lemma append_empty_r s : s +:+ "" = s.
Proof.
  induction s as [| c s IH]; [done |].
  change (String c s +:+ "") with (String c (s +:+ "")). by rewrite IH.
Qed.

Lemma trimStart_length s : (String.length (trimStart s) ≤ String.length s)%nat.
Proof. induction s as [| c s IH]; simpl; [lia |]. destruct (isSpace c); simpl; lia. Qed.

Lemma trimStart_fixed_head c s : trimStart (String c s) = String c s → isSpace c = false.
Proof.
  simpl. destruct (isSpace c); [| done]. intros H.
  pose proof (trimStart_length s) as Hl. rewrite H in Hl. simpl in Hl. lia.
Qed.

Lemma trimStart_head s :
  trimStart s = "" ∨ ∃ c r, trimStart s = String c r ∧ isSpace c = false.
Proof.
  induction s as [| c s IH]; [by left |]. simpl.
  destruct (isSpace c) eqn:E; [done |]. right. by exists c, s.
Qed.

Lemma trimStart_idempotent s : trimStart (trimStart s) = trimStart s.
Proof.
  destruct (trimStart_head s) as [-> | (c & r & -> & Hc)]; [done |].
  simpl. by rewrite Hc.
Qed.

Lemma trimEnd_head c s : isSpace c = false → ∃ r, trimEnd (String c s) = String c r.
Proof. intros Hc. simpl. rewrite Hc. destruct (trimEnd s); by eexists. Qed.

Lemma trimEnd_idempotent s : trimEnd (trimEnd s) = trimEnd s.
Proof.
  induction s as [| c s IH]; [done |]. simpl.
  destruct (trimEnd s) as [| d r] eqn:E.
  - destruct (isSpace c) eqn:Hc; [done |]. simpl. by rewrite Hc.
  - simpl in *. by rewrite IH.
Qed.

Lemma trimEnd_app a b : trimEnd b ≠ "" → trimEnd (a +:+ b) = a +:+ trimEnd b.
Proof.
  intros Hb. induction a as [| c a IH]; [done |].
  change (String c a +:+ b) with (String c (a +:+ b)).
  change (String c a +:+ trimEnd b) with (String c (a +:+ trimEnd b)).
  cbn [trimEnd]. rewrite IH.
  destruct (a +:+ trimEnd b) eqn:E; [| done].
  destruct a; [done | discriminate E].
Qed.

Lemma trimStart_app t x : t ≠ "" → trimStart t = t → trimStart (t +:+ x) = t +:+ x.
Proof.
  destruct t as [| c t]; [done |]. intros _ H.
  apply trimStart_fixed_head in H.
  change (String c t +:+ x) with (String c (t +:+ x)). cbn [trimStart]. by rewrite H.
Qed.

Lemma noComma_trimStart s : noComma s → noComma (trimStart s).
Proof.
  induction s as [| c s IH]; [done |]. intros H. simpl.
  destruct (isSpace c); [| done]. apply noComma_cons in H as [_ H]. by apply IH.
Qed.

Lemma noComma_trimEnd s : noComma s → noComma (trimEnd s).
Proof.
  induction s as [| c s IH]; [done |]. intros H.
  apply noComma_cons in H as [Hc H]. specialize (IH H). simpl.
  destruct (trimEnd s) eqn:E.
  - destruct (isSpace c); [constructor |]. apply noComma_cons. split; [done | constructor].
  - by apply noComma_cons.
Qed.

Lemma trim_normal p : noComma p → trim p ≠ "" → normalTag (trim p).
Proof.
  intros Hp Hne. unfold normalTag, trim in *. split_and!.
  - done.
  - destruct (trimStart_head p) as [E | (c & r & E & Hc)]; rewrite E in *; [done |].
    destruct (trimEnd_head c r Hc) as [r' ->]. simpl. by rewrite Hc.
  - apply trimEnd_idempotent.
  - by apply noComma_trimEnd, noComma_trimStart.
Qed.

(** X4.  Every tag that [parseTags] yields is in normal form: it is not
    empty, has no white space at either end and holds no comma; an empty
    tags field yields no tag. *)
Theorem parseTags_normal s : Forall normalTag (parseTags s) ∧ parseTags "" = [].
Proof.
  split; [| reflexivity]. unfold parseTags. destruct (truthy s); [| constructor].
  pose proof (splitComma_pieces s) as Hp.
  induction (splitComma s) as [| p ps IH]; [constructor |].
  apply Forall_cons in Hp as [Hp Hps]. simpl.
  destruct (truthy (trim p)) eqn:E; [| by apply IH].
  constructor; [| by apply IH]. apply trim_normal; [done |].
  unfold truthy in E. intros H. rewrite H in E. discriminate E.
Qed.

Lemma normalTag_trim t : normalTag t → trim t = t.
Proof. intros (_ & H1 & H2 & _). unfold trim. by rewrite H1, H2. Qed.

Lemma normalTag_trim_space t : normalTag t → trim (String " " t) = t.
Proof. intros (_ & H1 & H2 & _). unfold trim. simpl. by rewrite H1, H2. Qed.

Lemma normalTag_truthy t : normalTag t → truthy t = true.
Proof. intros (H & _). unfold truthy. by apply String.eqb_neq in H as ->. Qed.

Lemma concat_cons2 sep (t u : string) l :
  String.concat sep (t :: u :: l) = t +:+ sep +:+ String.concat sep (u :: l).
Proof. reflexivity. Qed.

Lemma splitComma_concat t l :
  Forall noComma (t :: l) →
  splitComma (String.concat ", " (t :: l)) = t :: List.map (String " ") l.
Proof.
  revert t. induction l as [| u l IH]; intros t H.
  - apply Forall_cons in H as [Ht _]. simpl.
    rewrite <- (append_empty_r t) at 1. rewrite splitComma_app by done.
    by rewrite splitComma_nil, append_empty_r.
  - apply Forall_cons in H as [Ht H]. rewrite concat_cons2.
    rewrite splitComma_app by done.
    change (", " +:+ String.concat ", " (u :: l))
      with (String "," (String " " (String.concat ", " (u :: l)))).
    rewrite splitComma_comma, append_empty_r.
    change (String " " (String.concat ", " (u :: l)))
      with (" " +:+ String.concat ", " (u :: l)).
    rewrite splitComma_app by (by repeat constructor).
    rewrite (IH u H). reflexivity.
Qed.

Lemma concat_normal t l :
  Forall normalTag (t :: l) →
  let s := String.concat ", " (t :: l) in
  s ≠ "" ∧ trimStart s = s ∧ trimEnd s = s.
Proof.
  revert t. induction l as [| u l IH]; intros t H.
  - apply Forall_cons in H as [(H0 & H1 & H2 & _) _]. by simpl.
  - apply Forall_cons in H as [(H0 & H1 & H2 & _) H].
    specialize (IH u H) as (I0 & I1 & I2). cbv zeta in *. rewrite concat_cons2.
    split_and!.
    + destruct t; [done | discriminate].
    + by apply trimStart_app.
    + change (t +:+ ", " +:+ String.concat ", " (u :: l))
        with (t +:+ (", " +:+ String.concat ", " (u :: l))).
      assert (trimEnd (", " +:+ String.concat ", " (u :: l))
              = ", " +:+ String.concat ", " (u :: l)) as Hs.
      { rewrite trimEnd_app by (by rewrite I2). by rewrite I2. }
      rewrite trimEnd_app; rewrite Hs; [done | discriminate].
Qed.

Lemma trim_spaced_tags l :
  Forall normalTag l →
  List.filter truthy (List.map trim (List.map (String " ") l)) = l.
Proof.
  induction 1 as [| u l Hu Hl IH]; [reflexivity |]. simpl.
  rewrite (normalTag_trim_space u Hu), (normalTag_truthy u Hu). by f_equal.
Qed.

(** X5.  Tags in normal form survive the edit form: joined with [", "]
    as [editJournal] fills the field, then trimmed and parsed as
    [handleJournalSubmit] reads it, they come back unchanged and in order. *)
Theorem tags_survive_edit_form (tags : list string) :
  Forall normalTag tags →
  parseTags (trim (String.concat ", " tags)) = tags.
Proof.
  intros H. destruct tags as [| t l]; [reflexivity |].
  pose proof (concat_normal t l H) as (H0 & H1 & H2). cbv zeta in *.
  unfold trim. rewrite H1, H2. unfold parseTags.
  assert (truthy (String.concat ", " (t :: l)) = true) as ->.
  { unfold truthy. by apply String.eqb_neq in H0 as ->. }
  rewrite splitComma_concat
    by (eapply Forall_impl; [exact H |]; by intros ? (_ & _ & _ & ?)).
  apply Forall_cons in H as [Ht Hl]. simpl.
  rewrite (normalTag_trim t Ht), (normalTag_truthy t Ht). f_equal.
  by apply trim_spaced_tags.
Qed.


Lemma findById_Some jid js j :
  findById jid js = Some j → j ∈ js ∧ Journal.id j = jid.
Proof.
  unfold findById. destruct (list_find _ js) as [[i k] |] eqn:E; [| done].
  simpl. intros [= ->]. apply list_find_Some in E as (Hl & Hid & _).
  split; [by eapply list_elem_of_lookup_2 | done].
Qed.

Lemma findById_None jid js : findById jid js = None ↔ jid ∉ ids js.
Proof.
  rewrite <- findIndex_None. unfold findById, findIndex.
  by destruct (list_find _ js) as [[? ?] |].
Qed.

Lemma setForm_same st : setForm (form st) st = st.
Proof. by destruct st. Qed.

Lemma editJournal_unfold jid st :
  editJournal jid st
  = let '(found, ev) := lookupForEdit jid st in
    match found with
    | None => (st, ev ++ [ShowMessage "Journal not found or has been deleted" "error"])
    | Some j =>
        if isOwner (currentUser st) j
        then (setForm {| journalId := jid; journalTitle := Journal.title j;
                         journalContent := Journal.content j;
                         journalTags := String.concat ", " (Journal.tags j) |} st, ev)
        else (st, ev ++ [ShowMessage "You can only edit your own journals" "error"])
    end.
Proof. reflexivity. Qed.

Lemma lookupForEdit_found jid st j ev :
  lookupForEdit jid st = (Some j, ev) →
  Journal.id j = jid
  ∧ (j ∈ userJournals st ∨ j ∈ allJournals st ∨ j ∈ storedJournals st)
  ∧ ev = [].
Proof.
  unfold lookupForEdit.
  destruct (findById jid (userJournals st)) as [k |] eqn:E1.
  { intros [= -> <-]. apply findById_Some in E1 as [? ?]. auto. }
  destruct (findById jid (allJournals st)) as [k |] eqn:E2.
  { intros [= -> <-]. apply findById_Some in E2 as [? ?]. auto. }
  destruct (jsonParse [] _) as [stored |] eqn:Hp; [| done].
  intros [= E3 <-]. apply findById_Some in E3 as [? ?].
  unfold storedJournals. rewrite Hp. auto.
Qed.

Lemma lookupForEdit_events jid st :
  Forall (λ e, isRemoteWrite e = false ∧ isStorageWrite e = false)
    (snd (lookupForEdit jid st)).
Proof.
  unfold lookupForEdit.
  destruct (findById jid (userJournals st)); [constructor |].
  destruct (findById jid (allJournals st)); [constructor |].
  destruct (jsonParse [] _); by repeat constructor.
Qed.

(** X6.  [editJournal] changes nothing but the fields of the form and
    writes to no tier.  It fills the form only with a journal of the
    requested id whose owner is the viewer, looked up in [userJournals],
    then [allJournals], then the fallback store; when the first journal
    found has another owner, or none is found, the state stays as it was
    and an error message is shown. *)
Theorem editJournal_opens_own_only jid st :
  let '(st', ev) := editJournal jid st in
  setForm (form st) st' = st
  ∧ Forall (λ e, isRemoteWrite e = false ∧ isStorageWrite e = false) ev
  ∧ ((∃ j, Journal.id j = jid
           ∧ isOwner (currentUser st) j = true
           ∧ (j ∈ userJournals st ∨ j ∈ allJournals st ∨ j ∈ storedJournals st)
           ∧ form st' = formOf j)
     ∨ (st' = st ∧ ∃ msg, ShowMessage msg "error" ∈ ev))
  ∧ (∀ j, findById jid (userJournals st) = Some j →
          if isOwner (currentUser st) j
          then form st' = formOf j
          else st' = st
               ∧ ev = [ShowMessage "You can only edit your own journals" "error"]).
Proof.
  rewrite editJournal_unfold.
  pose proof (lookupForEdit_events jid st) as Hev.
  pose proof (lookupForEdit_found jid st) as Hfound.
  assert (∀ j, findById jid (userJournals st) = Some j →
               lookupForEdit jid st = (Some j, [])) as Hfirst.
  { intros j Hj. unfold lookupForEdit. by rewrite Hj. }
  destruct (lookupForEdit jid st) as [[j |] ev0]; simpl in Hev.
  - destruct (Hfound j ev0 eq_refl) as (Hid & Hin & ->).
    destruct (isOwner (currentUser st) j) eqn:Ho.
    + split_and!; [by destruct st | done | |].
      * left. exists j. split_and!; [done.. |]. unfold formOf. by rewrite Hid.
      * intros k Hk. apply Hfirst in Hk. injection Hk as <-. rewrite Ho.
        unfold formOf. by rewrite Hid.
    + split_and!; [apply setForm_same | by repeat constructor | |].
      * right. split; [done |]. eexists. by left.
      * intros k Hk. apply Hfirst in Hk. injection Hk as <-. by rewrite Ho.
  - split_and!; [apply setForm_same | | |].
    + apply Forall_app. split; [done | by repeat constructor].
    + right. split; [done |]. eexists. apply elem_of_app. right. by left.
    + intros k Hk. apply Hfirst in Hk. discriminate Hk.
Qed.

Lemma trimStart_blank s : blank s → trimStart s = "".
Proof.
  unfold blank. induction s as [| c s IH]; [done |]. simpl.
  rewrite Forall_cons. intros [-> H]. by apply IH.
Qed.

Lemma trim_blank s : blank s → trim s = "".
Proof. intros H. unfold trim. by rewrite trimStart_blank. Qed.

(** X7.  A submit is turned down before any tier is touched when nobody is
    signed in, or when the title or the content is empty or made of white
    space only: the state, the form included, is left as it was and the
    only effect is one error message. *)
Theorem submit_rejected_untouched now rnd createReply updateReply st :
  currentUser st = None
  ∨ blank (journalTitle (form st))
  ∨ blank (journalContent (form st)) →
  ∃ msg,
    handleJournalSubmit now rnd createReply updateReply st
    = (st, [ShowMessage msg "error"]).
Proof.
  intros H. unfold handleJournalSubmit.
  destruct (currentUser st) as [u |]; [| by eexists].
  destruct H as [H | [H | H]]; [done | |]; apply trim_blank in H; rewrite H.
  - by eexists.
  - rewrite orb_true_r. by eexists.
Qed.


(** ** Updates and the in-memory lists *)

Lemma alter_as_insert {A} (f : A → A) i (l : list A) x :
  l !! i = Some x → alter f i l = <[i := f x]> l.
Proof.
  revert i. induction l as [| y l IH]; intros i H; [done |].
  destruct i as [| i]; simpl in *; [by injection H as -> |].
  f_equal. by apply IH.
Qed.

Lemma updateInPlace_find jid title content tags now js :
  findById jid (updateInPlace jid title content tags now js)
  = withFields title content tags now <$> findById jid js
  ∧ (∀ x, x ≠ jid →
       findById x (updateInPlace jid title content tags now js) = findById x js).
Proof.
  unfold updateInPlace. destruct (findIndex jid js) as [i |] eqn:E.
  - pose proof E as E'. apply findIndex_Some in E' as (j0 & Hl & Hid & _).
    rewrite (alter_as_insert _ _ _ j0 Hl).
    assert (findById jid js = Some j0) as Hf.
    { unfold findById, findIndex in *.
      destruct (list_find _ js) as [[i' k] |] eqn:Ef; [| done].
      simpl in E. injection E as ->. apply list_find_Some in Ef as (Hl' & _).
      rewrite Hl in Hl'. by injection Hl' as ->. }
    rewrite Hf. simpl. split.
    + rewrite <- Hid at 1.
      change (Journal.id j0) with (Journal.id (withFields title content tags now j0)) at 1.
      apply findById_insert_here. simpl. by rewrite Hid.
    + intros x Hx. apply (findById_insert_other x i _ _ j0); [done | congruence |].
      simpl. congruence.
  - split; [| done]. apply findIndex_None, findById_None in E. by rewrite E.
Qed.

(** X8.  An update never adds, drops or reorders the entries of
    [userJournals]: whether it goes to the fallback store, succeeds on the
    remote store or is downgraded, the ids stay as they were, the first
    entry with the submitted id gets the new title, content and tags and a
    fresh [updatedAt] while keeping its owner, creation time and cached
    translations, and every entry of another id is found as before. *)
Theorem update_keeps_owned_list now rnd createReply updateReply st u :
  currentUser st = Some u →
  truthy (journalId (form st)) = true →
  truthy (trim (journalTitle (form st))) = true →
  truthy (trim (journalContent (form st))) = true →
  let jid := journalId (form st) in
  let title := trim (journalTitle (form st)) in
  let content := trim (journalContent (form st)) in
  let tags := parseTags (trim (journalTags (form st))) in
  let st' := fst (handleJournalSubmit now rnd createReply updateReply st) in
  ids (userJournals st') = ids (userJournals st)
  ∧ findById jid (userJournals st')
    = withFields title content tags now <$> findById jid (userJournals st)
  ∧ (∀ x, x ≠ jid → findById x (userJournals st') = findById x (userJournals st))
  ∧ (∀ j, findById jid (userJournals st') = Some j →
          ∃ j0, findById jid (userJournals st) = Some j0
                ∧ Journal.userId j = Journal.userId j0
                ∧ Journal.createdAt j = Journal.createdAt j0
                ∧ Journal.translations j = Journal.translations j0
                ∧ Journal.title j = title
                ∧ Journal.content j = content
                ∧ Journal.tags j = tags).
Proof.
  intros Hu Hid Ht Hc. cbv zeta.
  rewrite (submit_unfold _ _ _ _ _ u) by done. cbv zeta. rewrite Hid.
  set (jid := journalId (form st)).
  set (title := trim (journalTitle (form st))).
  set (content := trim (journalContent (form st))).
  set (tags := parseTags (trim (journalTags (form st)))).
  assert (userJournals
            (fst (if startsWith jid "local-"
                  then submitLocalUpdate now u jid title content tags st
                  else submitRemoteUpdate now updateReply u jid title content tags st))
          = updateInPlace jid title content tags now (userJournals st)) as Hj.
  { destruct (startsWith jid "local-").
    - unfold submitLocalUpdate.
      destruct (saveJournalToLocalStorage _ _ _) as [ls e1]. split_display Ed. simpl.
      by apply displayCombined_state in Ed as (_ & -> & _).
    - unfold submitRemoteUpdate. destruct (updateSucceeded updateReply).
      + split_display Ed. simpl. by apply displayCombined_state in Ed as (_ & -> & _).
      + destruct (saveJournalToLocalStorage _ _ _) as [ls e1]. split_display Ed. simpl.
        by apply displayCombined_state in Ed as (_ & -> & _). }
  destruct (if startsWith jid "local-" then _ else _) as [st1 ev1]. cbn [fst] in *.
  change (userJournals (setForm emptyForm st1)) with (userJournals st1). rewrite Hj.
  destruct (updateInPlace_find jid title content tags now (userJournals st)) as [Hf Ho].
  split_and!; [apply ids_updateInPlace | exact Hf | exact Ho |].
  intros j Hjf. rewrite Hf in Hjf.
  destruct (findById jid (userJournals st)) as [j0 |]; [| done].
  simpl in Hjf. injection Hjf as <-. exists j0. by split_and!.
Qed.

Lemma renderCard_cached_title lang u act j tr :
  cached j (activeLanguage lang) = Some tr →
  truthy (Translation.title tr) = true →
  card_title (renderCard lang u act j) = Translation.title tr.
Proof.
  intros Hc Ht. unfold renderCard, getTranslatedJournalData. simpl. rewrite Hc.
  assert (Translation.title (applyTranslation tr j) = Translation.title tr) as Ha.
  { unfold applyTranslation, orElse. simpl. by rewrite Ht. }
  destruct (startsWith (Journal.id j) "sample-"); rewrite Ha; unfold orElse; by rewrite Ht.
Qed.

(** X9.  An update does not refresh the translation cache.  When the
    remote update succeeds on a journal of [allJournals] that holds a
    translation for the display language, the card rendered for it still
    carries the cached, old translated title, not the title just saved. *)
Theorem update_keeps_stale_translation now rnd createReply updateReply st u v j tr :
  currentUser st = Some u →
  journalsContainer st = Some v →
  truthy (journalId (form st)) = true →
  startsWith (journalId (form st)) "local-" = false →
  truthy (trim (journalTitle (form st))) = true →
  truthy (trim (journalContent (form st))) = true →
  updateSucceeded updateReply = true →
  findById (journalId (form st)) (allJournals st) = Some j →
  cached j (activeLanguage (currentLanguage st)) = Some tr →
  truthy (Translation.title tr) = true →
  let st' := fst (handleJournalSubmit now rnd createReply updateReply st) in
  ∃ j' cs,
    findById (journalId (form st)) (allJournals st') = Some j'
    ∧ Journal.title j' = trim (journalTitle (form st))
    ∧ journalsContainer st' = Some (Cards cs)
    ∧ renderCard (currentLanguage st) (Some u) (isOwner (Some u)) j' ∈ cs
    ∧ card_title (renderCard (currentLanguage st) (Some u) (isOwner (Some u)) j')
      = Translation.title tr.
Proof.
  intros Hu Hv Hid Hloc Ht Hc Hs Hj Htr Htt. cbv zeta.
  rewrite (submit_unfold _ _ _ _ _ u) by done. cbv zeta. rewrite Hid, Hloc.
  set (jid := journalId (form st)) in *.
  set (title := trim (journalTitle (form st))).
  set (content := trim (journalContent (form st))).
  set (tags := parseTags (trim (journalTags (form st)))).
  unfold submitRemoteUpdate. rewrite Hs.
  set (st2 := setAllJournals _ _).
  destruct (updateInPlace_find jid title content tags now (allJournals st)) as [Hf _].
  rewrite Hj in Hf. simpl in Hf.
  set (j' := withFields title content tags now j) in *.
  assert (j' ∈ combinedJournals st2) as Hin.
  { unfold combinedJournals. apply elem_of_app. left.
    by apply findById_Some in Hf as [? _]. }
  unfold displayCombinedJournals.
  change (journalsContainer st2) with (journalsContainer st). rewrite Hv.
  destruct (combinedJournals st2) as [| k ks] eqn:Ec; [by apply elem_of_nil in Hin |].
  cbn [fst]. eexists j', _. split_and!.
  - exact Hf.
  - reflexivity.
  - reflexivity.
  - change (currentLanguage st2) with (currentLanguage st).
    change (currentUser st2) with (currentUser st). rewrite Hu.
    apply list_elem_of_In, in_map, list_elem_of_In. exact Hin.
  - by apply renderCard_cached_title.
Qed.


(** ** What the rendered views show *)

Lemma combinedJournals_nonempty st : combinedJournals st ≠ [].
Proof.
  unfold combinedJournals. intros H.
  apply app_eq_nil in H as [_ H]. apply app_eq_nil in H as [_ H]. discriminate H.
Qed.

(** X10.  The merged view is never the empty placeholder, since the samples
    are always part of it.  It has one card per merged journal, in order,
    and a card carries the edit and delete buttons (and the owner badge)
    exactly when the [userId] of its journal is the uid of the viewer. *)
Theorem merged_cards_follow_owner st v :
  journalsContainer st = Some v →
  ∃ cs,
    journalsContainer (fst (displayCombinedJournals st)) = Some (Cards cs)
    ∧ cs ≠ []
    ∧ Forall2
        (λ j c, card_id c = Journal.id j
                ∧ card_ownerBadge c = card_actions c
                ∧ (card_actions c = true ↔ Journal.userId j = uid <$> currentUser st))
        (combinedJournals st) cs.
Proof.
  intros Hv. unfold displayCombinedJournals. rewrite Hv.
  pose proof (combinedJournals_nonempty st) as Hne.
  destruct (combinedJournals st) as [| j js] eqn:E; [done |].
  eexists. split_and!; [reflexivity | done |].
  generalize (j :: js). intros l. induction l as [| k l IH]; [constructor |].
  simpl. constructor; [| exact IH].
  split_and!; [reflexivity.. |]. simpl. unfold isOwner. apply bool_decide_eq_true.
Qed.

Lemma displayJournals_shown js st v :
  journalsContainer st = Some v →
  js ≠ [] →
  shownIds (displayJournals js false st) = ids js
  ∧ readOnlyView (displayJournals js false st).
Proof.
  intros Hv Hne. unfold displayJournals. rewrite Hv.
  destruct js as [| j js]; [done |]. split.
  - apply (render_ids _ _ _ (j :: js)).
  - unfold readOnlyView. cbn [journalsContainer setInnerHTML].
    generalize (j :: js). intros l. induction l; simpl; by constructor.
Qed.

Lemma displayJournals_state js b st :
  let st' := displayJournals js b st in
  currentUser st' = currentUser st ∧ userJournals st' = userJournals st
  ∧ allJournals st' = allJournals st ∧ localStorage st' = localStorage st
  ∧ currentLanguage st' = currentLanguage st.
Proof.
  cbv zeta. unfold displayJournals.
  destruct (journalsContainer st); [| done]. by destruct js.
Qed.

(** X11.  What a guest sees when the fetch of all journals settles: the
    remote journals alone, read-only, when there are some, and exactly the
    samples, read-only, when the result is empty or the fetch fails; the
    fallback store is never shown to a guest.  For a signed-in user a failed
    fetch leaves the whole state as it was. *)
Theorem guest_view_after_load reply st v :
  journalsContainer st = Some v →
  let '(st', ev) := loadAllJournalsSettled reply st in
  match currentUser st, reply with
  | None, Ok (d :: docs) =>
      shownIds st' = ids (d :: docs) ∧ readOnlyView st' ∧ allJournals st' = d :: docs
  | None, Ok [] =>
      shownIds st' = ids SAMPLE_JOURNALS ∧ readOnlyView st' ∧ allJournals st' = []
  | None, Failed _ =>
      shownIds st' = ids SAMPLE_JOURNALS ∧ readOnlyView st'
      ∧ allJournals st' = allJournals st
  | Some _, Failed _ => st' = st
  | Some _, Ok docs =>
      shownIds st' = ids docs ++ ids (storedJournals st) ++ ids SAMPLE_JOURNALS
  end.
Proof.
  intros Hv. unfold loadAllJournalsSettled.
  destruct reply as [docs | msg]; cbn [currentUser setAllJournals].
  - destruct (currentUser st) as [u |] eqn:Hu.
    + split_display Ed. apply displayCombined_shown with (v := v) in Ed; [| exact Hv].
      rewrite Ed. by rewrite combined_ids.
    + destruct docs as [| d docs].
      * destruct (displayJournals_shown SAMPLE_JOURNALS (setAllJournals [] st) v Hv)
          as [H1 H2]; [done |].
        split_and!; [done.. |].
        by destruct (displayJournals_state SAMPLE_JOURNALS false (setAllJournals [] st))
          as (_ & _ & -> & _).
      * destruct (displayJournals_shown (d :: docs) (setAllJournals (d :: docs) st) v Hv)
          as [H1 H2]; [done |].
        split_and!; [done.. |].
        by destruct (displayJournals_state (d :: docs) false
                       (setAllJournals (d :: docs) st)) as (_ & _ & -> & _).
  - destruct (currentUser st) as [u |] eqn:Hu; [reflexivity |].
    destruct (displayJournals_shown SAMPLE_JOURNALS st v Hv) as [H1 H2]; [done |].
    split_and!; [done.. |].
    by destruct (displayJournals_state SAMPLE_JOURNALS false st) as (_ & _ & -> & _).
Qed.

(** X12.  A successful remote delete prunes [userJournals] only.  A journal
    that is also in [allJournals] stays there, so the merged view rendered
    by the delete still has a card for it. *)
Theorem remote_delete_leaves_card jid st v :
  journalsContainer st = Some v →
  startsWith jid "local-" = false →
  jid ∈ ids (allJournals st) →
  let st' := fst (deleteJournal true (Ok tt) jid st) in
  (jid ∉ ids (userJournals st'))
  ∧ allJournals st' = allJournals st
  ∧ jid ∈ shownIds st'.
Proof.
  intros Hv Hloc Hin. cbv zeta. unfold deleteJournal. cbn [negb]. rewrite Hloc.
  split_display Ed. cbn [fst].
  pose proof Ed as Hs. apply displayCombined_shown with (v := v) in Hs; [| exact Hv].
  apply displayCombined_state in Ed as (_ & Hj & Ha & _).
  split_and!.
  - rewrite Hj. apply removeById_absent.
  - exact Ha.
  - rewrite Hs, combined_ids. apply elem_of_app. by left.
Qed.


(** ** Translations *)


Lemma translateText_keeps text fromLang toLang :
  truthy text = false ∨ fromLang = toLang → translateText text fromLang toLang = text.
Proof.
  intros [H | ->]; unfold translateText; [by rewrite H |].
  by rewrite String.eqb_refl, orb_true_r.
Qed.

Lemma marker_formula toLang :
  In toLang supportedLanguages →
  assoc toLang markers = Some ("[" +:+ toUpperCase toLang +:+ "] ").
Proof.
  intros H. repeat (destruct H as [<- | H]; [reflexivity |]). destruct H.
Qed.

(** X13.  [translateText] leaves an empty text and a text already in the
    target language as they are; otherwise, for each of the nine supported
    target languages, it puts the upper-cased language code in brackets in
    front of the text, whatever the source language: the per-language table
    and the default formula agree. *)
Theorem translateText_marker text fromLang toLang :
  (truthy text = false ∨ fromLang = toLang →
   translateText text fromLang toLang = text)
  ∧ (truthy text = true → fromLang ≠ toLang → In toLang supportedLanguages →
     translateText text fromLang toLang
     = ("[" +:+ toUpperCase toLang +:+ "] ") +:+ text).
Proof.
  split; [apply translateText_keeps |].
  intros Ht Hne Hin. unfold translateText. rewrite Ht.
  apply String.eqb_neq in Hne as Hne'. rewrite Hne'. simpl.
  unfold placeholders. rewrite Hne'.
  destruct (assoc fromLang markers); [| reflexivity].
  by rewrite (marker_formula toLang Hin).
Qed.

Lemma translateText_truthy text fromLang toLang :
  truthy (translateText text fromLang toLang) = truthy text.
Proof.
  unfold translateText. destruct (truthy text) eqn:Ht; simpl; [| exact Ht].
  destruct (String.eqb fromLang toLang); [exact Ht |].
  destruct (match placeholders fromLang toLang with
            | Some p => p
            | None => "[" +:+ toUpperCase toLang +:+ "] "
            end) as [| c p].
  - exact Ht.
  - reflexivity.
Qed.

Lemma orElse_translated text fromLang toLang :
  orElse (translateText text fromLang toLang) text = translateText text fromLang toLang.
Proof.
  unfold orElse. rewrite translateText_truthy.
  destruct (truthy text) eqn:Ht; [reflexivity |].
  symmetry. apply translateText_keeps. by left.
Qed.


Lemma translateJournal_fields reply lang j target ls :
  let j1 := (translateJournal reply lang j target ls).1.1 in
  Journal.id j1 = Journal.id j ∧ Journal.userId j1 = Journal.userId j
  ∧ Journal.title j1 = Journal.title j ∧ Journal.content j1 = Journal.content j
  ∧ Journal.tags j1 = Journal.tags j ∧ Journal.createdAt j1 = Journal.createdAt j
  ∧ Journal.updatedAt j1 = Journal.updatedAt j.
Proof.
  cbv zeta. unfold translateJournal.
  destruct (_ || _)%bool; [done |].
  destruct (_ !! target); [done |].
  destruct (negb _ && negb _)%bool.
  - destruct reply; [done |]. by destruct (saveTranslationToLocalStorage _ _ _ _).
  - destruct (startsWith _ "local-"); [| done].
    by destruct (saveTranslationToLocalStorage _ _ _ _).
Qed.

Lemma translateJournal_new reply lang j target ls :
  String.eqb (activeLanguage lang) target = false →
  startsWith (Journal.id j) "sample-" = false →
  cached j target = None →
  Journal.translations (translateJournal reply lang j target ls).1.1
  = Some (<[target := synthesised lang target j]> (default ∅ (Journal.translations j))).
Proof.
  intros H1 H2 Hc. unfold translateJournal. rewrite H1, H2. simpl.
  assert (default ∅ (Journal.translations j) !! target = None) as ->.
  { unfold cached in Hc. by destruct (Journal.translations j). }
  destruct (startsWith (Journal.id j) "local-"); simpl.
  - by destruct (saveTranslationToLocalStorage _ _ _ _).
  - destruct reply; [done |]. by destruct (saveTranslationToLocalStorage _ _ _ _).
Qed.

(** X14.  A first translation of a journal of the user into a language
    other than the active one (and not named like an inherited member of
    an object) adds the marked title, content and tags
    under that language only: the journal's own fields and the translations
    of every other language are kept, the view in the target language shows
    the marked text, and the view in a language with no translation shows
    the original. *)
Theorem translation_is_added_beside reply lang j target ls :
  String.eqb (activeLanguage lang) target = false →
  startsWith (Journal.id j) "sample-" = false →
  inherited target = false →
  cached j target = None →
  let j1 := (translateJournal reply lang j target ls).1.1 in
  Journal.title j1 = Journal.title j
  ∧ Journal.content j1 = Journal.content j
  ∧ Journal.tags j1 = Journal.tags j
  ∧ cached j1 target = Some (synthesised lang target j)
  ∧ (∀ other, other ≠ target → cached j1 other = cached j other)
  ∧ getTranslatedJournalData j1 target = synthesised lang target j
  ∧ (∀ other, cached j1 other = None →
       getTranslatedJournalData j1 other
       = Translation.mk (Journal.title j) (Journal.content j) (Journal.tags j)).
Proof.
  intros H1 H2 _ Hc. cbv zeta.
  pose proof (translateJournal_fields reply lang j target ls) as (Hid & _ & Ht & Hco & Htg & _).
  pose proof (translateJournal_new reply lang j target ls H1 H2 Hc) as Htr.
  cbv zeta in *.
  destruct (translateJournal reply lang j target ls) as [[j1 ls1] ev]. simpl in *.
  assert (cached j1 target = Some (synthesised lang target j)) as Hnew.
  { unfold cached. rewrite Htr. simpl. apply lookup_insert_eq. }
  split_and!; [done.. | | |].
  - intros other Hne. unfold cached. rewrite Htr. simpl.
    rewrite lookup_insert_ne by done. by destruct (Journal.translations j).
  - unfold getTranslatedJournalData. rewrite Hid, H2, Hnew.
    unfold applyTranslation, synthesised. simpl. rewrite Ht, Hco.
    by rewrite !orElse_translated.
  - intros other Ho. unfold getTranslatedJournalData. rewrite Ho.
    destruct (startsWith (Journal.id j1) "sample-"); by rewrite Ht, Hco, Htg.
Qed.

(** X15.  A translation saved in the browser store is read back, for a
    journal id that is not the name of an inherited member of an object and
    a language other than [__proto__]: with a
    readable [journalTranslations] blob, saving a translation of a journal
    under a language and loading the translations of that journal yields it
    under that language, keeps what the journal had under other languages,
    leaves the translations of other journals and the fallback journals
    untouched; with an unreadable blob the save writes nothing and the load
    yields no translation, both logging the failure. *)
Theorem saved_translation_is_loaded jid lang tr ls :
  inherited jid = false →
  lang ≠ "__proto__" →
  let ls' := fst (saveTranslationToLocalStorage jid lang tr ls) in
  localJournals ls' = localJournals ls
  ∧ match jsonParse ∅ (journalTranslations ls) with
    | Some m =>
        fst (loadTranslationsFromLocalStorage jid ls') !! lang = Some tr
        ∧ (∀ other, other ≠ lang →
             fst (loadTranslationsFromLocalStorage jid ls') !! other
             = fst (loadTranslationsFromLocalStorage jid ls) !! other)
        ∧ (∀ jid', jid' ≠ jid →
             loadTranslationsFromLocalStorage jid' ls'
             = loadTranslationsFromLocalStorage jid' ls)
    | None =>
        ls' = ls
        ∧ loadTranslationsFromLocalStorage jid ls'
          = (∅, [Console LError "Failed to load translations from localStorage:"])
        ∧ snd (saveTranslationToLocalStorage jid lang tr ls)
          = [Console LError "Failed to save translation to localStorage:"]
    end.
Proof.
  intros _ _. cbv zeta. unfold saveTranslationToLocalStorage, loadTranslationsFromLocalStorage.
  destruct (jsonParse ∅ (journalTranslations ls)) as [m |] eqn:Hp; simpl.
  - split; [reflexivity |]. split_and!.
    + rewrite lookup_insert_eq. simpl. apply lookup_insert_eq.
    + intros other Hne. rewrite lookup_insert_eq. simpl.
      by rewrite lookup_insert_ne.
    + intros jid' Hne. by rewrite lookup_insert_ne.
  - rewrite Hp. by split_and!.
Qed.


Lemma saveTranslation_journals jid lang tr ls :
  localJournals (fst (saveTranslationToLocalStorage jid lang tr ls)) = localJournals ls.
Proof.
  unfold saveTranslationToLocalStorage. by destruct (jsonParse ∅ (journalTranslations ls)).
Qed.

Lemma translateJournal_store reply lang j target ls :
  localJournals (translateJournal reply lang j target ls).1.2 = localJournals ls.
Proof.
  unfold translateJournal.
  destruct (_ || _)%bool; [done |].
  destruct (_ !! target); [done |].
  destruct (negb _ && negb _)%bool.
  - destruct reply; [done |].
    pose proof (saveTranslation_journals (Journal.id j) target
      (Translation.mk
         (translateText (Journal.title j) (activeLanguage lang) target)
         (translateText (Journal.content j) (activeLanguage lang) target)
         (List.map (λ tag, translateText tag (activeLanguage lang) target) (Journal.tags j)))
      ls) as H.
    by destruct (saveTranslationToLocalStorage _ _ _ _).
  - destruct (startsWith _ "local-"); [| done].
    pose proof (saveTranslation_journals (Journal.id j) target
      (Translation.mk
         (translateText (Journal.title j) (activeLanguage lang) target)
         (translateText (Journal.content j) (activeLanguage lang) target)
         (List.map (λ tag, translateText tag (activeLanguage lang) target) (Journal.tags j)))
      ls) as H.
    by destruct (saveTranslationToLocalStorage _ _ _ _).
Qed.

Lemma translateJournal_remote reply lang j target ls :
  (startsWith (Journal.id j) "local-" || startsWith (Journal.id j) "sample-")%bool = true →
  Forall (λ e, isRemoteWrite e = false) (translateJournal reply lang j target ls).2.
Proof.
  intros H. unfold translateJournal.
  destruct (String.eqb (activeLanguage lang) target
            || startsWith (Journal.id j) "sample-")%bool eqn:E0; [constructor |].
  apply orb_false_iff in E0 as [_ E0]. rewrite E0 in H |- *.
  rewrite orb_false_r in H. rewrite H. simpl.
  destruct (_ !! target); [constructor |].
  unfold saveTranslationToLocalStorage.
  destruct (jsonParse ∅ (journalTranslations ls)); by repeat constructor.
Qed.

Lemma translateEach_spec replies lang target i js ls :
  let '(js', ls', ev) := translateEach replies lang target i js ls in
  Forall2 sameText js js'
  ∧ localJournals ls' = localJournals ls
  ∧ (Forall (λ j, (startsWith (Journal.id j) "local-"
                   || startsWith (Journal.id j) "sample-")%bool = true) js →
     Forall (λ e, isRemoteWrite e = false) ev).
Proof.
  revert i ls. induction js as [| j js IH]; intros i ls; simpl.
  - split_and!; [constructor | done | constructor].
  - pose proof (translateJournal_fields (replies i) lang j target ls)
      as (H1 & H2 & H3 & H4 & H5 & _).
    pose proof (translateJournal_store (replies i) lang j target ls) as Hs.
    pose proof (translateJournal_remote (replies i) lang j target ls) as Hr.
    destruct (translateJournal (replies i) lang j target ls) as [[j1 ls1] e1].
    simpl in *. specialize (IH (S i) ls1).
    destruct (translateEach replies lang target (S i) js ls1) as [[js' ls'] e2].
    destruct IH as (I1 & I2 & I3). split_and!.
    + constructor; [by split_and! | done].
    + by rewrite I2.
    + intros H. apply Forall_cons in H as [Hj Hjs]. apply Forall_app. auto.
Qed.

(** X16.  [translateAllJournals] never changes the text of a journal: it
    keeps both in-memory lists entry by entry in id, owner, title, content
    and tags (only the [translations] maps may grow), and it never touches
    the fallback journals. *)
Theorem translateAll_keeps_text repliesUser repliesAll targetLang st :
  let st' := fst (translateAllJournals repliesUser repliesAll targetLang st) in
  Forall2 sameText (userJournals st) (userJournals st')
  ∧ Forall2 sameText (allJournals st) (allJournals st')
  ∧ ids (userJournals st') = ids (userJournals st)
  ∧ ids (allJournals st') = ids (allJournals st)
  ∧ localJournals (localStorage st') = localJournals (localStorage st).
Proof.
  cbv zeta.
  assert (∀ l l', Forall2 sameText l l' → ids l' = ids l) as Hids.
  { induction 1 as [| j j' l l' (Hid & _) _ IH]; [done |].
    unfold ids in *. rewrite !fmap_cons. by f_equal. }
  assert (∀ l, Forall2 sameText l l) as Hrefl.
  { induction l; constructor; [by split_and! | done]. }
  assert (∀ s, let s' := fst (redisplay s) in
               userJournals s' = userJournals s ∧ allJournals s' = allJournals s
               ∧ localStorage s' = localStorage s) as Hre.
  { intros s. cbv zeta. unfold redisplay. destruct (currentUser s).
    - destruct (displayCombinedJournals s) as [s' e] eqn:Ed.
      by apply displayCombined_state in Ed as (_ & ? & ? & ? & _).
    - simpl.
      by destruct (displayJournals_state
                     (match allJournals s with [] => SAMPLE_JOURNALS | js => js end)
                     false s) as (_ & ? & ? & ? & _). }
  unfold translateAllJournals.
  destruct (String.eqb _ targetLang); [by split_and! |].
  pose proof (translateEach_spec repliesUser (currentLanguage st) targetLang 0
                (userJournals st) (localStorage st)) as H1.
  destruct (translateEach repliesUser _ _ _ (userJournals st) _) as [[owned ls1] e1].
  pose proof (translateEach_spec repliesAll (currentLanguage st) targetLang 0
                (allJournals st) ls1) as H2.
  destruct (translateEach repliesAll _ _ _ (allJournals st) _) as [[all ls2] e2].
  destruct H1 as (U1 & U2 & _), H2 as (A1 & A2 & _).
  specialize (Hre (setAllJournals all (setUserJournals owned (setLocalStorage ls2 st)))).
  destruct (redisplay _) as [st2 e3]. cbv zeta in Hre. simpl in Hre |- *.
  destruct Hre as (-> & -> & ->).
  split_and!; [done | done | by apply Hids | by apply Hids |]. by rewrite A2, U2.
Qed.

(** X17.  The listener of a language change translates nothing: by the
    time it runs the active language is already the new one, so
    [translateAllJournals] returns at once.  Both lists and the browser
    store are left as they were, no remote write is issued, and the
    listener only renders the current journals again. *)
Theorem language_change_translates_nothing repliesUser repliesAll st :
  onLanguageChanged repliesUser repliesAll st = redisplay st
  ∧ (let '(st', ev) := onLanguageChanged repliesUser repliesAll st in
     userJournals st' = userJournals st
     ∧ allJournals st' = allJournals st
     ∧ localStorage st' = localStorage st
     ∧ Forall (λ e, isRemoteWrite e = false ∧ isStorageWrite e = false) ev).
Proof.
  assert (onLanguageChanged repliesUser repliesAll st = redisplay st) as Heq.
  { unfold onLanguageChanged, translateAllJournals. rewrite String.eqb_refl.
    by destruct (redisplay st). }
  split; [exact Heq |]. rewrite Heq. unfold redisplay.
  destruct (currentUser st).
  - destruct (displayCombinedJournals st) as [st' ev] eqn:Ed.
    pose proof (displayCombined_events _ _ _ Ed) as He.
    by apply displayCombined_state in Ed as (_ & ? & ? & ? & _).
  - destruct (displayJournals_state
                (match allJournals st with [] => SAMPLE_JOURNALS | js => js end)
                false st) as (_ & ? & ? & ? & _).
    by split_and!.
Qed.


(** ** Card decorations *)

(** X18.  [getThemeForJournal] always yields one of the eight themes,
    never [undefined], whatever the id and the position; for a journal that
    is not a sample the theme depends on the id alone, so the card keeps
    its colour when the list is reordered. *)
Theorem getThemeForJournal_defined journalId index :
  (∃ theme, getThemeForJournal journalId index = Some theme ∧ theme ∈ CARD_THEMES)
  ∧ (truthy journalId = true → startsWith journalId "sample-" = false →
     ∀ index', getThemeForJournal journalId index' = getThemeForJournal journalId index).
Proof.
  split.
  - unfold getThemeForJournal.
    assert (∀ n, (n < 8)%nat → ∃ theme, CARD_THEMES !! n = Some theme ∧ theme ∈ CARD_THEMES)
      as Hlt.
    { intros n Hn. destruct (lookup_lt_is_Some_2 CARD_THEMES n) as [t Ht]; [exact Hn |].
      exists t. split; [done |]. by eapply list_elem_of_lookup_2. }
    destruct (_ && _)%bool; apply Hlt.
    + change (Z.of_nat (length CARD_THEMES)) with 8.
      pose proof (Z.mod_pos_bound (Z.abs (hashFrom 0 journalId)) 8). lia.
    + change (length CARD_THEMES) with 8%nat. apply Nat.mod_upper_bound. lia.
  - intros H1 H2 index'. unfold getThemeForJournal. by rewrite H1, H2.
Qed.

Lemma whitespaceRuns_le inRun s : (whitespaceRuns inRun s ≤ String.length s)%nat.
Proof.
  revert inRun. induction s as [| c s IH]; intros inRun; simpl; [lia |].
  destruct (isSpace c).
  - specialize (IH true). destruct inRun; lia.
  - specialize (IH false). lia.
Qed.

(** X19.  The read time shown on a card is never below one minute: it is
    the number of pieces of the content split at white space, divided by
    200 and rounded up, and at least 1; an empty content and any content
    shorter than 200 characters read "1 min read". *)
Theorem getReadTime_at_least_one content :
  (∃ minutes : Z,
     (1 ≤ minutes)%Z
     ∧ getReadTime content = showZ minutes +:+ " min read"
     ∧ (truthy content = true →
        (200 * (minutes - 1) < Z.of_nat (splitWhitespaceLength content) ≤ 200 * minutes)%Z))
  ∧ ((String.length content < 200)%nat → getReadTime content = "1 min read").
Proof.
  unfold getReadTime. split.
  - destruct (truthy content).
    + set (n := Z.of_nat (splitWhitespaceLength content)).
      assert (1 ≤ n)%Z as Hn by (unfold n, splitWhitespaceLength; lia).
      exists ((n + 199) / 200).
      assert (1 ≤ (n + 199) / 200)%Z as Hm by (apply Z.div_le_lower_bound; lia).
      split_and!; [exact Hm | |].
      * apply Z.ltb_ge in Hm. by rewrite Hm.
      * intros _. pose proof (Z.div_mod (n + 199) 200).
        pose proof (Z.mod_pos_bound (n + 199) 200). lia.
    + exists 1. split_and!; [lia | reflexivity | done].
  - intros Hlen. destruct (truthy content); [| reflexivity].
    pose proof (whitespaceRuns_le false content) as Hr.
    set (n := Z.of_nat (splitWhitespaceLength content)).
    assert (1 ≤ n ≤ 200)%Z as Hn by (unfold n, splitWhitespaceLength; lia).
    assert ((n + 199) / 200 = 1) as ->; [| reflexivity].
    symmetry. apply (Z.div_unique (n + 199) 200 1 (n - 1)); lia.
Qed.

(** ** The remote update call *)



(** ** Where a submitted journal lands *)

Lemma save_upserted now j ls log :
  (∀ e, e ∈ snd (saveJournalToLocalStorage now j ls) → e ∈ log) →
  (jsonParse [] (localJournals ls) = None → Forall (λ e, isStorageWrite e = false) log) →
  upserted now j ls (fst (saveJournalToLocalStorage now j ls)) log.
Proof.
  intros Hlog Hquiet. unfold upserted, saveJournalToLocalStorage in *.
  destruct (jsonParse [] (localJournals ls)) as [stored |] eqn:Hp.
  - cbn [fst snd] in *.
    assert (StorageSetItem "localJournals" ∈ log) as Hw by (apply Hlog; by left).
    destruct (findIndex (Journal.id j) stored) as [i |] eqn:E.
    + pose proof E as E'. apply findIndex_Some in E' as (j0 & Hl & Hid & _).
      assert (Journal.id j ∈ ids stored) as Hin.
      { unfold ids. apply list_elem_of_fmap. exists j0.
        split; [done |]. by eapply list_elem_of_lookup_2. }
      rewrite decide_True by done.
      eexists. split; [reflexivity |]. split_and!; [| | done].
      * by apply (findById_insert_here i (withUpdatedAt now j)).
      * intros x Hx. apply (findById_insert_other x i _ _ j0); [done | congruence |].
        simpl. congruence.
    + pose proof E as E'. apply findIndex_None in E'.
      rewrite decide_False by done.
      eexists. split; [reflexivity |]. split_and!; [| | done].
      * by apply findById_app_here.
      * intros x Hx. apply findById_app_other. congruence.
  - cbn [fst snd] in *. split_and!; [done | apply Hlog; by left | by apply Hquiet].
Qed.

Lemma save_quiet now j ls :
  jsonParse [] (localJournals ls) = None →
  Forall (λ e, isStorageWrite e = false) (snd (saveJournalToLocalStorage now j ls)).
Proof. intros H. rewrite save_unparseable by done. by repeat constructor. Qed.

Lemma submitLocalUpdate_upserted now u jid title content tags st tail :
  let '(st', ev) := submitLocalUpdate now u jid title content tags st in
  Forall (λ e, isStorageWrite e = false) tail →
  upserted now (freshRecord jid u title content tags now) (localStorage st)
    (localStorage st') (ev ++ tail).
Proof.
  unfold submitLocalUpdate.
  pose proof (save_upserted now (freshRecord jid u title content tags now) (localStorage st))
    as Hs.
  pose proof (save_quiet now (freshRecord jid u title content tags now) (localStorage st))
    as Hq.
  destruct (saveJournalToLocalStorage _ _ _) as [ls e1]. split_display Ed.
  pose proof (display_no_storage _ _ _ Ed) as Hd.
  apply displayCombined_state in Ed as (_ & _ & _ & Hl & _).
  intros Htail. cbn [fst snd] in *. rewrite Hl. apply Hs.
  - intros e He. rewrite !elem_of_app. tauto.
  - intros Hn. rewrite !Forall_app. split_and!; [by apply Hq | done | | done].
    by repeat constructor.
Qed.

Lemma submitRemoteUpdate_upserted now reply u jid title content tags st tail :
  updateSucceeded reply = false →
  let '(st', ev) := submitRemoteUpdate now reply u jid title content tags st in
  Forall (λ e, isStorageWrite e = false) tail →
  upserted now (freshRecord jid u title content tags now) (localStorage st)
    (localStorage st') (ev ++ tail).
Proof.
  intros Hf. unfold submitRemoteUpdate. rewrite Hf.
  pose proof (save_upserted now (freshRecord jid u title content tags now) (localStorage st))
    as Hs.
  pose proof (save_quiet now (freshRecord jid u title content tags now) (localStorage st))
    as Hq.
  destruct (saveJournalToLocalStorage _ _ _) as [ls e1]. split_display Ed.
  pose proof (display_no_storage _ _ _ Ed) as Hd.
  apply displayCombined_state in Ed as (_ & _ & _ & Hl & _).
  intros Htail. cbn [fst snd] in *. rewrite Hl. apply Hs.
  - intros e He. repeat first [rewrite elem_of_app | rewrite elem_of_cons]. tauto.
  - intros Hn. repeat (apply Forall_cons; split; [reflexivity |]).
    rewrite !Forall_app. split_and!; [by apply Hq | done | | done].
    by repeat constructor.
Qed.

Lemma submitCreate_upserted now rnd reply u title content tags st tail :
  (∀ docId, reply ≠ Settled docId) →
  let '(st', ev) := submitCreate now rnd reply u title content tags st in
  Forall (λ e, isStorageWrite e = false) tail →
  upserted now (freshRecord (localId now rnd) u title content tags now) (localStorage st)
    (localStorage st') (ev ++ tail).
Proof.
  intros Hr.
  assert (submitCreate now rnd reply u title content tags st
          = submitCreate now rnd TimedOut u title content tags st) as ->.
  { destruct reply as [d | |]; [by destruct (Hr d) | reflexivity..]. }
  unfold submitCreate.
  set (j := freshRecord (localId now rnd) u title content tags now).
  pose proof (save_upserted now j (localStorage st)) as Hs.
  pose proof (save_quiet now j (localStorage st)) as Hq.
  destruct (saveJournalToLocalStorage now j (localStorage st)) as [ls e1].
  split_display Ed.
  pose proof (display_no_storage _ _ _ Ed) as Hd.
  apply displayCombined_state in Ed as (_ & _ & _ & Hl & _).
  intros Htail. cbn [fst snd] in *. rewrite Hl. apply Hs.
  - intros e He. repeat first [rewrite elem_of_app | rewrite elem_of_cons]. tauto.
  - intros Hn. repeat (apply Forall_cons; split; [reflexivity |]).
    rewrite !Forall_app. split_and!; [by apply Hq | done | | done].
    by repeat constructor.
Qed.

Lemma submitCreate_settled_quiet now rnd docId u title content tags st :
  Forall (λ e, isStorageWrite e = false)
    (snd (submitCreate now rnd (Settled docId) u title content tags st)).
Proof.
  unfold submitCreate. split_display Ed.
  pose proof (display_no_storage _ _ _ Ed) as Hd. cbn [snd].
  constructor; [reflexivity |]. rewrite Forall_app. split; [done |]. by repeat constructor.
Qed.

(** C3, as the code has it.  A journal created by an authenticated user:
    when the remote create settles in time, the record carrying the
    store-assigned id is put in front of [userJournals] and the browser
    store is not touched.  When it times out or fails, the record gets a
    ["local-"] id and is put in front of [userJournals]; it is in the
    fallback store afterwards, under its id and beside the records the
    store held, when the blob is readable, and with an unparseable blob
    nothing is written and the failure is logged.  All of it holds in the
    state the handler returns, before any reload settles. *)
Theorem create_lands_in_one_tier now rnd createReply updateReply st u :
  currentUser st = Some u →
  journalId (form st) = "" →
  truthy (trim (journalTitle (form st))) = true →
  truthy (trim (journalContent (form st))) = true →
  let title := trim (journalTitle (form st)) in
  let content := trim (journalContent (form st)) in
  let tags := parseTags (trim (journalTags (form st))) in
  let '(st', ev) := handleJournalSubmit now rnd createReply updateReply st in
  match createReply with
  | Settled docId =>
      Journal.id <$> head (userJournals st') = Some docId
      ∧ userJournals st' = freshRecord docId u title content tags now :: userJournals st
      ∧ localStorage st' = localStorage st
      ∧ Forall (λ e, isStorageWrite e = false) ev
  | _ =>
      let j := freshRecord (localId now rnd) u title content tags now in
      startsWith (Journal.id j) "local-" = true
      ∧ userJournals st' = j :: userJournals st
      ∧ upserted now j (localStorage st) (localStorage st') ev
  end.
Proof.
  intros Hu Hid Ht Hc. cbv zeta.
  rewrite (submit_unfold _ _ _ _ _ u) by done. cbv zeta. rewrite Hid.
  change (truthy "") with false. cbv iota.
  set (title := trim (journalTitle (form st))).
  set (content := trim (journalContent (form st))).
  set (tags := parseTags (trim (journalTags (form st)))).
  pose proof (submitCreate_settled now rnd) as Hok.
  pose proof (submitCreate_fallback now rnd createReply u title content tags st) as Hfb.
  pose proof (submitCreate_upserted now rnd createReply u title content tags st
                [RemoteGetDocs (Some (uid u))]) as Hup.
  cbv zeta in Hok, Hfb.
  assert (Forall (λ e, isStorageWrite e = false) [RemoteGetDocs (Some (uid u))]) as Htail
    by (by repeat constructor).
  destruct createReply as [docId | msg |].
  - specialize (Hok docId u title content tags st) as [Hj Hl].
    pose proof (submitCreate_settled_quiet now rnd docId u title content tags st) as Hq.
    destruct (submitCreate _ _ _ _ _ _ _ _) as [st1 ev]. simpl in *.
    rewrite Hj, Hl. split_and!; [done.. |].
    rewrite Forall_app. by split.
  - destruct Hfb as (Hj & Hl & _); [done |].
    destruct (submitCreate _ _ _ _ _ _ _ _) as [st1 ev]. cbn [fst snd] in *.
    split_and!; [apply localId_prefixed | done | by apply Hup].
  - destruct Hfb as (Hj & Hl & _); [done |].
    destruct (submitCreate _ _ _ _ _ _ _ _) as [st1 ev]. cbn [fst snd] in *.
    split_and!; [apply localId_prefixed | done | by apply Hup].
Qed.

(** C4, as the code has it.  An update whose id starts with ["local-"]
    issues no write to the remote store and upserts the record into the
    fallback store.  An update with any other id first calls the remote
    update, raced against a timeout of 5000 ms, and issues no other remote
    write; when that call resolves with success nothing is written to
    [localStorage], and when it resolves without success, rejects or times
    out the record is upserted into the fallback store under its id.  An
    upsert stores the record only when the blob is readable; with an
    unparseable blob nothing is written and the failure is logged. *)
Theorem update_routing now rnd createReply updateReply st u :
  currentUser st = Some u →
  truthy (journalId (form st)) = true →
  truthy (trim (journalTitle (form st))) = true →
  truthy (trim (journalContent (form st))) = true →
  let jid := journalId (form st) in
  let title := trim (journalTitle (form st)) in
  let content := trim (journalContent (form st)) in
  let tags := parseTags (trim (journalTags (form st))) in
  let record := freshRecord jid u title content tags now in
  let '(st', ev) := handleJournalSubmit now rnd createReply updateReply st in
  if startsWith jid "local-" then
    Forall (λ e, isRemoteWrite e = false) ev
    ∧ upserted now record (localStorage st) (localStorage st') ev
  else
    ∃ rest,
      ev = RemoteUpdateJournal jid title content tags 5000 :: rest
      ∧ Forall (λ e, isRemoteWrite e = false) rest
      ∧ match updateReply with
        | Settled {| success := true |} =>
            localStorage st' = localStorage st
            ∧ Forall (λ e, isStorageWrite e = false) rest
        | Settled {| success := false |} | Rejected _ | TimedOut =>
            upserted now record (localStorage st) (localStorage st') ev
        end.
Proof.
  intros Hu Hid Ht Hc. cbv zeta.
  rewrite (submit_unfold _ _ _ _ _ u) by done. cbv zeta. rewrite Hid.
  set (jid := journalId (form st)).
  set (title := trim (journalTitle (form st))).
  set (content := trim (journalContent (form st))).
  set (tags := parseTags (trim (journalTags (form st)))).
  assert (Forall (λ e, isStorageWrite e = false) [RemoteGetDocs (Some (uid u))]) as Htail
    by (by repeat constructor).
  destruct (startsWith jid "local-").
  - pose proof (submitLocalUpdate_facts now u jid title content tags st) as H.
    pose proof (submitLocalUpdate_upserted now u jid title content tags st
                  [RemoteGetDocs (Some (uid u))]) as Hup.
    destruct (submitLocalUpdate _ _ _ _ _ _ _) as [st1 ev]. destruct H as (He & _ & _).
    cbn [fst snd localStorage setForm]. split; [| by apply Hup].
    rewrite Forall_app. split; [done |]. by repeat constructor.
  - pose proof (submitRemoteUpdate_facts now updateReply u jid title content tags st) as H.
    pose proof (submitRemoteUpdate_upserted now updateReply u jid title content tags st
                  [RemoteGetDocs (Some (uid u))]) as Hup.
    destruct (submitRemoteUpdate _ _ _ _ _ _ _ _) as [st1 ev].
    destruct H as (rest & -> & Hr & Hcase).
    exists (rest ++ [RemoteGetDocs (Some (uid u))]). cbn [fst snd localStorage setForm].
    split; [reflexivity |].
    split; [apply Forall_app; split; [done | by repeat constructor] |].
    destruct updateReply as [[[] err] | msg |]; cbn [updateSucceeded success] in *.
    + destruct Hcase as [Hl Hw]. split; [done |].
      apply Forall_app. split; [done | by repeat constructor].
    + by apply Hup.
    + by apply Hup.
    + by apply Hup.
Qed.

End JournalModule.

(** ** Worked sessions *)

(** C1.  The ownership of a journal is checked where the edit form is
    opened and nowhere else: with bob signed in, [editJournal] refuses
    alice's journal, yet [deleteJournal] removes it from the fallback store,
    sends the delete of her remote journal, and a submit carrying her
    journal's id overwrites her record with one owned by bob. *)
Theorem mutation_skips_ownership_check :
  isOwner (currentUser sharedDevice) aliceLocal = false
  ∧ editJournal "local-1" sharedDevice
    = (sharedDevice, [ShowMessage "You can only edit your own journals" "error"])
  ∧ storedJournals sharedDevice = [aliceLocal]
  ∧ storedJournals (fst (deleteJournal loadedAt true (Ok tt) "local-1" sharedDevice)) = []
  ∧ snd (deleteJournal loadedAt true (Ok tt) "doc1" sharedDevice)
    = [RemoteDeleteDoc "doc1"; ShowMessage "Journal deleted successfully" "success"]
  ∧ storedJournals
      (fst (handleJournalSubmit loadedAt submitAt "r4nd0m" TimedOut TimedOut
              (setForm forgedForm sharedDevice)))
    = [freshRecord "local-1" bob "Taken over" "Rewritten by bob" [] submitAt].
Proof. split_and!; by vm_compute. Qed.

(** C2, refuted as stated: the merge does not keep a journal from showing
    twice.  Alice's update of her remote journal times out and the record is
    downgraded to the fallback store; the remote store still holds the
    document, so when the auth listener is notified again and the fetch of
    [allJournals] it starts returns that document, the merged view shows the
    id on two cards. *)
Lemma reload_duplicates_downgraded_journal :
  let st1 :=
    fst (handleJournalSubmit loadedAt submitAt "r4nd0m" TimedOut TimedOut aliceEditing) in
  let st2 := fst (authStateListener loadedAt (Some alice) st1) in
  let st3 := fst (loadAllJournalsSettled loadedAt (Ok [aliceRemote]) st2) in
  shownIds st1 = ["doc1"; "sample-1"; "sample-2"; "sample-3"]
  ∧ shownIds st3 = ["doc1"; "doc1"; "sample-1"; "sample-2"; "sample-3"]
  ∧ occurrences "doc1" (shownIds st3) = 2%nat
  ∧ ¬ NoDup (shownIds st3).
Proof.
  cbv zeta. split_and!; [by vm_compute.. |].
  intros H. vm_compute in H. apply NoDup_cons in H as [Hin _].
  apply Hin. by left.
Qed.

(** With an unreadable fallback blob the downgraded journal is on no card
    at all: the upsert is dropped and the entry leaves [allJournals]. *)
Lemma downgrade_lost_on_unreadable_blob :
  let st1 :=
    fst (handleJournalSubmit loadedAt submitAt "r4nd0m" TimedOut TimedOut
           (setForm editRemoteForm aliceCorrupt)) in
  shownIds st1 = ["sample-1"; "sample-2"; "sample-3"]
  ∧ localStorage st1 = corruptStorage.
Proof. split; by vm_compute. Qed.

Lemma failed_remote_update_downgrades_witness :
  let st' :=
    fst (handleJournalSubmit loadedAt submitAt "r4nd0m" TimedOut TimedOut aliceEditing) in
  occurrences "doc1" (ids (allJournals st')) = 0%nat
  ∧ occurrences "doc1" (ids (storedJournals st')) = 1%nat
  ∧ occurrences "doc1" (shownIds st') = 1%nat.
Proof.
  assert (NoDup (ids [])) as Hs by apply NoDup_nil_2.
  assert (NoDup (ids (allJournals aliceEditing))) as Ha by apply NoDup_singleton.
  pose proof (failed_remote_update_downgrades loadedAt submitAt "r4nd0m" TimedOut TimedOut
                aliceEditing alice (Cards []) [] eq_refl eq_refl eq_refl eq_refl eq_refl
                eq_refl eq_refl eq_refl eq_refl Hs Ha) as (H0 & H1 & H2 & _).
  cbv zeta. split_and!; [exact H0 | exact H1 | exact H2].
Defined.

(** C3, refuted as stated: a create that falls back is not always in the
    fallback store.  With an unparseable blob the remote create times out,
    the record gets its ["local-"] id and is put in front of
    [userJournals], the user is told that the journal was saved locally,
    yet nothing is written: the blob is as it was and the store holds no
    record of that id. *)
Lemma create_on_unreadable_blob_is_not_stored :
  let submitted :=
    handleJournalSubmit loadedAt submitAt "r4nd0m" TimedOut TimedOut
      (setForm newForm aliceCorrupt) in
  userJournals (fst submitted)
  = [freshRecord "local-1700000060000-r4nd0m" alice "T1" "C1" ["x"; "y"] submitAt;
     aliceRemote]
  ∧ localStorage (fst submitted) = corruptStorage
  ∧ findById "local-1700000060000-r4nd0m" (storedJournals (fst submitted)) = None
  ∧ snd submitted
    = [RemoteAddDoc "alice" "T1" "C1" ["x"; "y"] 3000;
       Console LWarn "Firestore save failed, saving to localStorage:";
       Console LError "Failed to save journal to localStorage:";
       Console LError "Error parsing localStorage journals:";
       ShowMessage "Journal saved locally! Will sync when online." "success";
       RemoteGetDocs (Some "alice")].
Proof. cbv zeta. split_and!; by vm_compute. Qed.

Lemma create_lands_in_one_tier_witness :
  let st' :=
    fst (handleJournalSubmit loadedAt submitAt "r4nd0m" TimedOut TimedOut aliceWriting) in
  userJournals st'
  = [freshRecord "local-1700000060000-r4nd0m" alice "T1" "C1" ["x"; "y"] submitAt]
  ∧ findById "local-1700000060000-r4nd0m" (storedJournals st')
    = Some (freshRecord "local-1700000060000-r4nd0m" alice "T1" "C1" ["x"; "y"] submitAt).
Proof.
  pose proof (create_lands_in_one_tier loadedAt submitAt "r4nd0m" TimedOut TimedOut
                aliceWriting alice eq_refl eq_refl eq_refl eq_refl) as H.
  cbv zeta in H |- *.
  destruct (handleJournalSubmit loadedAt submitAt "r4nd0m" TimedOut TimedOut aliceWriting)
    as [st' ev].
  destruct H as (_ & Hj & stored' & Hl & Hf & _).
  split; [exact Hj |]. cbn [fst]. unfold storedJournals. rewrite Hl. exact Hf.
Defined.

(** C4, refuted as stated: an update routed to the fallback store does not
    always write the record.  With an unparseable blob the update of a
    ["local-"] journal, and the update of a remote journal whose remote call
    timed out, each report that the journal was updated locally, yet the
    blob is as it was and the store holds no record of the id. *)
Lemma update_on_unreadable_blob_writes_nothing :
  let direct :=
    handleJournalSubmit loadedAt submitAt "r4nd0m" TimedOut TimedOut
      aliceEditingLocalCorrupt in
  let downgraded :=
    handleJournalSubmit loadedAt submitAt "r4nd0m" TimedOut TimedOut
      (setForm editRemoteForm aliceCorrupt) in
  localStorage (fst direct) = corruptStorage
  ∧ findById "local-1" (storedJournals (fst direct)) = None
  ∧ snd direct
    = [Console LError "Failed to save journal to localStorage:";
       Console LError "Error parsing localStorage journals:";
       ShowMessage "Journal updated locally!" "success";
       RemoteGetDocs (Some "alice")]
  ∧ localStorage (fst downgraded) = corruptStorage
  ∧ findById "doc1" (storedJournals (fst downgraded)) = None
  ∧ snd downgraded
    = [RemoteUpdateJournal "doc1" "Hello again" "Edited" ["intro"; "edit"] 5000;
       Console LWarn "Firestore update failed, saving to localStorage:";
       Console LError "Failed to save journal to localStorage:";
       Console LError "Error parsing localStorage journals:";
       ShowMessage "Journal updated locally! Will sync when online." "success";
       RemoteGetDocs (Some "alice")].
Proof. cbv zeta. split_and!; by vm_compute. Qed.

Lemma update_routing_witness :
  let '(st', ev) :=
    handleJournalSubmit loadedAt submitAt "r4nd0m" TimedOut TimedOut aliceEditing in
  (∃ rest,
     ev = RemoteUpdateJournal "doc1" "Hello again" "Edited" ["intro"; "edit"] 5000 :: rest
     ∧ Forall (λ e, isRemoteWrite e = false) rest)
  ∧ findById "doc1" (storedJournals st')
    = Some (freshRecord "doc1" alice "Hello again" "Edited" ["intro"; "edit"] submitAt).
Proof.
  pose proof (update_routing loadedAt submitAt "r4nd0m" TimedOut TimedOut aliceEditing alice
                eq_refl eq_refl eq_refl eq_refl) as H.
  cbv zeta in H.
  destruct (handleJournalSubmit loadedAt submitAt "r4nd0m" TimedOut TimedOut aliceEditing)
    as [st' ev].
  change (startsWith (journalId (form aliceEditing)) "local-") with false in H.
  destruct H as (rest & H1 & H2 & stored' & Hl & Hf & _).
  split; [exists rest; split; [exact H1 | exact H2] |].
  unfold storedJournals. rewrite Hl. exact Hf.
Defined.


(** C6.  The search leaves the fallback tier out.  Alice's only journal is
    in the fallback store and its title contains the term she types, in
    another case; the merged view shows the journal, the search reports
    that nothing was found, and with the search box cleared the filtered
    view still lists the samples only, in either order. *)
Theorem search_misses_fallback_journal :
  matchesSearch (toLowerCase "OFFLINE") aliceLocal = true
  ∧ shownIds (fst (displayCombinedJournals loadedAt aliceSearching))
    = ["local-1"; "sample-1"; "sample-2"; "sample-3"]
  ∧ journalsContainer (filterJournals loadedAt aliceSearching) = Some NoJournalsFound
  ∧ shownIds (filterJournals loadedAt (setSearch (Some "") None aliceSearching))
    = ["sample-1"; "sample-2"; "sample-3"]
  ∧ shownIds (filterJournals loadedAt (setSearch (Some "") (Some "oldest") aliceSearching))
    = ["sample-3"; "sample-2"; "sample-1"].
Proof. split_and!; by vm_compute. Qed.

(** C7, refuted as stated: signing out does not clear [userJournals]; the
    journals of the user who was signed in stay in memory, and the next
    search of the guest puts the retained [allJournals] on screen. *)
Lemma sign_out_keeps_owned_list :
  let st' := fst (authStateListener loadedAt None aliceEditing) in
  userJournals st' = [aliceRemote]
  ∧ userJournals st' ≠ []
  ∧ shownIds st' = ["sample-1"; "sample-2"; "sample-3"]
  ∧ shownIds (filterJournals loadedAt st') = ["doc1"].
Proof. cbv zeta. split_and!; by vm_compute. Qed.

Lemma sign_out_renders_samples_witness :
  let st' := fst (authStateListener loadedAt None aliceEditing) in
  currentUser st' = None
  ∧ shownIds st' = ["sample-1"; "sample-2"; "sample-3"]
  ∧ readOnlyView st'.
Proof.
  pose proof (sign_out_renders_samples loadedAt aliceEditing (Cards []) eq_refl)
    as (H1 & _ & H2 & H3 & _).
  cbv zeta. split_and!; [exact H1 | exact H2 | exact H3].
Defined.

Lemma translation_cache_idempotent_witness :
  let '(j1, ls1, _) :=
    translateJournal (Failed "offline") None aliceRemote "es" emptyStorage in
  cached j1 "es"
  = Some (Translation.mk "[ES] Hello" "[ES] First post" ["[ES] intro"])
  ∧ translateJournal (Ok tt) None j1 "es" ls1 = (j1, ls1, []).
Proof.
  pose proof (translation_cache_idempotent loadedAt (Failed "offline") (Ok tt) None
                aliceRemote "es" emptyStorage) as (_ & _ & H & _).
  destruct (translateJournal (Failed "offline") None aliceRemote "es" emptyStorage)
    as [[j1 ls1] ev] eqn:E.
  split; [| exact H].
  apply (f_equal (λ r, cached r.1.1 "es")) in E. exact (eq_sym E).
Defined.

(** C9, refuted as stated: an unreadable blob is not taken as an empty
    store by the upsert nor by the listing by owner.  On an empty store the
    upsert writes the record and the listing yields no journal; on the
    unreadable blob the upsert writes nothing and the listing keeps the
    list it had. *)
Lemma unreadable_blob_is_not_an_empty_store :
  fst (saveJournalToLocalStorage submitAt aliceLocal emptyStorage) = storageWith [aliceLocal]
  ∧ fst (saveJournalToLocalStorage submitAt aliceLocal corruptStorage) = corruptStorage
  ∧ userJournals
      (fst (loadUserJournalsSettled loadedAt (Failed "offline")
              (setLocalStorage emptyStorage aliceCorrupt))) = []
  ∧ userJournals (fst (loadUserJournalsSettled loadedAt (Failed "offline") aliceCorrupt))
    = [aliceRemote].
Proof. split_and!; by vm_compute. Qed.

Lemma unparseable_blob_is_contained_witness :
  saveJournalToLocalStorage submitAt aliceLocal (localStorage aliceCorrupt)
  = (corruptStorage, [Console LError "Failed to save journal to localStorage:"])
  ∧ combinedJournals loadedAt aliceCorrupt = aliceRemote :: SAMPLE_JOURNALS loadedAt.
Proof.
  pose proof (unparseable_blob_is_contained loadedAt submitAt aliceLocal "offline"
                aliceCorrupt eq_refl) as (H1 & _ & H2 & _).
  split; [exact H1 | exact H2].
Defined.

Lemma merged_view_ignores_owned_list_witness :
  let st' :=
    fst (handleJournalSubmit loadedAt submitAt "r4nd0m" (Settled "doc2") TimedOut
           aliceWriting) in
  "doc2" ∈ ids (userJournals st')
  ∧ shownIds st' = ["doc1"; "sample-1"; "sample-2"; "sample-3"]
  ∧ "doc2" ∉ shownIds st'.
Proof.
  assert ("doc2" ∉ ["doc1"]) as Hne.
  { intros H. apply list_elem_of_singleton in H. discriminate H. }
  assert ("doc2" ∉ @nil string) as Hnil by apply not_elem_of_nil.
  pose proof (merged_view_ignores_owned_list loadedAt submitAt "r4nd0m" "doc2" TimedOut
                aliceWriting alice (Cards []) eq_refl eq_refl eq_refl eq_refl eq_refl
                Hne Hnil eq_refl) as (_ & H1 & H2 & H3 & _).
  cbv zeta. split_and!; [exact H1 | exact H2 | exact H3].
Defined.

(** ** Network status *)

Lemma quality_cases speed :
  getConnectionQuality speed
  = if (1000 <=? speed)%Z then "excellent"
    else if (500 <=? speed)%Z then "good"
    else if (200 <=? speed)%Z then "fair"
    else if (50 <=? speed)%Z then "slow"
    else "verySlow".
Proof. reflexivity. Qed.

Lemma estimate_quality_by_latency_aux (floorRandom : Z → Z) (latency : Z) :
  (∀ n, (0 < n)%Z → (0 ≤ floorRandom n < n)%Z) →
  (50 ≤ estimateSpeedFromLatency floorRandom latency < 4000)%Z.
Proof.
  intros Hr.
  pose proof (Hr 2000 ltac:(lia)). pose proof (Hr 1000 ltac:(lia)).
  pose proof (Hr 500 ltac:(lia)). pose proof (Hr 200 ltac:(lia)).
  pose proof (Hr 100 ltac:(lia)).
  unfold estimateSpeedFromLatency.
  repeat match goal with
         | |- context [(?a <? ?b)%Z] => destruct (Z.ltb_spec a b)
         end; lia.
Qed.

(** X21.  The speed estimated from a latency lies between 50 and 3999 kbps
    and its quality is decided by the latency band alone, whatever the
    random draw: excellent under 100 ms, good under 200 ms, fair under
    500 ms and slow from there on; an estimate is never rated very slow. *)
Theorem estimate_quality_by_latency (floorRandom : Z → Z) (latency : Z) :
  (∀ n, (0 < n)%Z → (0 ≤ floorRandom n < n)%Z) →
  let speed := estimateSpeedFromLatency floorRandom latency in
  (50 ≤ speed < 4000)%Z
  ∧ getConnectionQuality speed
    = (if (latency <? 100)%Z then "excellent"
       else if (latency <? 200)%Z then "good"
       else if (latency <? 500)%Z then "fair"
       else "slow")
  ∧ getConnectionQuality speed ≠ "verySlow".
Proof.
  intros Hr. cbv zeta.
  pose proof (Hr 2000 ltac:(lia)). pose proof (Hr 1000 ltac:(lia)).
  pose proof (Hr 500 ltac:(lia)). pose proof (Hr 200 ltac:(lia)).
  pose proof (Hr 100 ltac:(lia)).
  rewrite quality_cases. unfold estimateSpeedFromLatency.
  repeat match goal with
         | |- context [(?a <? ?b)%Z] => destruct (Z.ltb_spec a b)
         | |- context [(?a <=? ?b)%Z] => destruct (Z.leb_spec a b)
         end; split_and!; try lia; try reflexivity; try discriminate.
Qed.

(** X22.  Whatever the download test gives, the speed that
    [measureDownloadSpeed] resolves to is between 0 and 10000 kbps: a
    measurement is clamped into that range and the fallback estimate lies
    inside it. *)
Theorem measured_speed_is_clamped (floorRandom : Z → Z) measured fallbackLatency :
  (∀ n, (0 < n)%Z → (0 ≤ floorRandom n < n)%Z) →
  (0 ≤ measureDownloadSpeed floorRandom measured fallbackLatency ≤ 10000)%Z.
Proof.
  intros Hr. unfold measureDownloadSpeed. destruct measured as [raw | msg]; [lia |].
  pose proof (estimate_quality_by_latency_aux floorRandom fallbackLatency Hr). lia.
Qed.


(** X23.  [getConnectionQuality] picks the highest threshold that the speed
    reaches: for a speed that is not negative the quality it names has a
    minimum not above the speed, and every quality of the table whose
    minimum is not above the speed has a minimum not above that one. *)
Theorem quality_is_highest_threshold speed :
  (0 ≤ speed)%Z →
  ∃ min color,
    threshold (getConnectionQuality speed) SPEED_THRESHOLDS = Some (min, color)
    ∧ (min ≤ speed)%Z
    ∧ ∀ q min' color',
        threshold q SPEED_THRESHOLDS = Some (min', color') →
        (min' ≤ speed)%Z → (min' ≤ min)%Z.
Proof.
  intros H0. rewrite quality_cases.
  assert (∀ q min' color', threshold q SPEED_THRESHOLDS = Some (min', color') →
            min' = 1000 ∨ min' = 500 ∨ min' = 200 ∨ min' = 50 ∨ min' = 0)%Z as Hall.
  { intros q m c. unfold SPEED_THRESHOLDS. cbn [threshold].
    repeat (destruct (String.eqb q _); [intros [= <- _]; lia |]). discriminate. }
  repeat match goal with
         | |- context [(?a <=? ?b)%Z] => destruct (Z.leb_spec a b)
         end;
    eexists _, _; (split; [reflexivity |]); (split; [lia |]);
    intros q m c Hq Hm; specialize (Hall q m c Hq); lia.
Qed.

Lemma toggleBars_length n bars : length (toggleBars n bars) = length bars.
Proof. unfold toggleBars. apply length_imap. Qed.

Lemma toggleBars_lookup n bars i :
  (i < length bars)%nat → toggleBars n bars !! i = Some (bool_decide (i < n)%nat).
Proof.
  intros Hi. unfold toggleBars. rewrite list_lookup_imap.
  destruct (lookup_lt_is_Some_2 bars i Hi) as [b ->]. reflexivity.
Qed.

Lemma toggleBars_none bars : Forall (λ b, b = false) (toggleBars 0 bars).
Proof.
  apply Forall_lookup. intros i b Hb.
  assert (i < length bars)%nat as Hi.
  { rewrite <- (toggleBars_length 0). by eapply lookup_lt_Some. }
  rewrite toggleBars_lookup in Hb by done. by injection Hb as <-.
Qed.

Lemma toggleBars_four n b1 b2 b3 b4 :
  toggleBars n [b1; b2; b3; b4]
  = [bool_decide (0 < n)%nat; bool_decide (1 < n)%nat; bool_decide (2 < n)%nat;
     bool_decide (3 < n)%nat].
Proof. reflexivity. Qed.

(** X24.  Once a speed test has settled on an initialised indicator the
    exported readers agree with the display: the stored status is online
    with the measured speed and latency, [getConnectionSpeed] yields the
    speed, [isGoodConnection] holds exactly from
    500 kbps on, and the four signal bars light up at 50, 200, 500 and
    1000 kbps. *)
Theorem settled_speed_is_reported toFixed1 latency speed ns :
  let ns' := monitorSettled toFixed1 latency speed (createNetworkIndicator ns) in
  getNetworkStatus ns'
  = NetworkStatus.mk "online" (getConnectionQuality speed) speed latency
  ∧ getConnectionSpeed ns' = speed
  ∧ isGoodConnection ns' = (500 <=? speed)%Z
  ∧ signalBars <$> networkIndicator ns'
    = Some [(50 <=? speed)%Z; (200 <=? speed)%Z; (500 <=? speed)%Z; (1000 <=? speed)%Z]
  ∧ pendingSync ns' = pendingSync ns.
Proof.
  cbv zeta. unfold monitorSettled, createNetworkIndicator, updateNetworkStatus.
  cbn [setIndicator networkIndicator signalBars classList fmap option_fmap option_map].
  unfold getNetworkStatus, getConnectionSpeed, isGoodConnection, getNetworkStatus.
  cbn [networkStatus default fmap option_fmap option_map NetworkStatus.speed
       NetworkStatus.status NetworkStatus.quality pendingSync id].
  rewrite toggleBars_four, quality_cases.
  split_and!; try reflexivity;
    repeat match goal with
           | |- context [(?a <=? ?b)%Z] => destruct (Z.leb_spec a b)
           end; try reflexivity; lia.
Qed.


Lemma existsb_eqb_elem_of (c : string) (l : list string) :
  existsb (String.eqb c) l = true ↔ c ∈ l.
Proof.
  rewrite existsb_exists, list_elem_of_In. split.
  - intros (x & Hx & Heq). apply String.eqb_eq in Heq. by subst.
  - intros Hc. exists c. split; [done | apply String.eqb_refl].
Qed.

Lemma elem_of_classAdd c x l : c ∈ classAdd x l ↔ c = x ∨ c ∈ l.
Proof.
  unfold classAdd. destruct (existsb (String.eqb x) l) eqn:E.
  - apply existsb_eqb_elem_of in E. split; [by right | by intros [-> |]].
  - rewrite elem_of_app, list_elem_of_singleton. tauto.
Qed.

Lemma elem_of_classRemove c cs l : c ∈ classRemove cs l ↔ c ∈ l ∧ c ∉ cs.
Proof.
  unfold classRemove. rewrite list_elem_of_In, filter_In, <- list_elem_of_In.
  rewrite negb_true_iff, <- not_true_iff_false, existsb_eqb_elem_of. tauto.
Qed.

Lemma NoDup_classAdd x l : NoDup l → NoDup (classAdd x l).
Proof.
  intros Hl. unfold classAdd. destruct (existsb (String.eqb x) l) eqn:E; [done |].
  apply NoDup_app. split_and!; [done | | apply NoDup_singleton].
  intros c Hc ->%list_elem_of_singleton.
  apply existsb_eqb_elem_of in Hc. congruence.
Qed.

Lemma NoDup_classRemove cs l : NoDup l → NoDup (classRemove cs l).
Proof.
  induction 1 as [| c l Hc Hl IH]; [constructor |].
  unfold classRemove in *. cbn [List.filter].
  destruct (negb (existsb (String.eqb c) cs)); [| done].
  constructor; [| done].
  intros Hin. apply Hc. by apply (elem_of_classRemove c cs l) in Hin as [? _].
Qed.

Lemma updateNetworkStatus_pending toFixed1 status quality speed latency ns :
  pendingSync (updateNetworkStatus toFixed1 status quality speed latency ns)
  = pendingSync ns.
Proof. unfold updateNetworkStatus. by destruct (networkIndicator ns). Qed.

Lemma updateNetworkStatus_classes toFixed1 status quality speed latency ns ind :
  networkIndicator ns = Some ind →
  truthy quality = true →
  ∃ ind',
    networkIndicator (updateNetworkStatus toFixed1 status quality speed latency ns)
    = Some ind'
    ∧ (∀ c, c ∈ classList ind'
            ↔ c = status ∨ c = quality
              ∨ (c ∈ classList ind
                 ∧ c ∉ ["online"; "offline"; "excellent"; "good"; "fair"; "slow";
                        "verySlow"]))
    ∧ (NoDup (classList ind) → NoDup (classList ind')).
Proof.
  intros Hi Hq. unfold updateNetworkStatus. rewrite Hi, Hq.
  eexists. split; [reflexivity |]. cbn [classList]. split.
  - intros c. rewrite !elem_of_classAdd, elem_of_classRemove. tauto.
  - intros Hn. by apply NoDup_classAdd, NoDup_classAdd, NoDup_classRemove.
Qed.

(** X25.  An update of the indicator, with the status and quality names
    the module uses, leaves exactly these classes on it: the new status,
    the new quality, and every class it had that is not one of the seven
    state classes; a class list without repetition stays so.  In
    particular the indicator never carries both [online] and [offline],
    and the base class [network-indicator] stays. *)
Theorem indicator_classes_after_update toFixed1 status quality speed latency ns ind :
  networkIndicator ns = Some ind →
  In status ["online"; "offline"] →
  In quality ["excellent"; "good"; "fair"; "slow"; "verySlow"; "none"] →
  ∃ ind',
    networkIndicator (updateNetworkStatus toFixed1 status quality speed latency ns)
    = Some ind'
    ∧ (∀ c, c ∈ classList ind'
            ↔ c = status ∨ c = quality
              ∨ (c ∈ classList ind
                 ∧ c ∉ ["online"; "offline"; "excellent"; "good"; "fair"; "slow";
                        "verySlow"]))
    ∧ (NoDup (classList ind) → NoDup (classList ind'))
    ∧ ("online" ∈ classList ind' → "offline" ∉ classList ind')
    ∧ ("network-indicator" ∈ classList ind → "network-indicator" ∈ classList ind').
Proof.
  intros Hi Hs Hq.
  assert (truthy quality = true) as Ht.
  { simpl in Hq. by destruct Hq as [<- | [<- | [<- | [<- | [<- | [<- | []]]]]]]. }
  destruct (updateNetworkStatus_classes toFixed1 status quality speed latency ns ind Hi Ht)
    as (ind' & E & Hc & Hn).
  exists ind'. split_and!; [done | done | done | |].
  - rewrite !Hc. intros Hon Hoff.
    assert (∀ c, In c ["online"; "offline"] → c = status ∨ c = quality
                 ∨ (c ∈ classList ind
                    ∧ c ∉ ["online"; "offline"; "excellent"; "good"; "fair"; "slow";
                           "verySlow"]) → c = status) as Hst.
    { intros c Hin [-> | [-> | [_ Hno]]]; [done | |].
      - exfalso. simpl in Hq, Hin.
        destruct Hq as [<- | [<- | [<- | [<- | [<- | [<- | []]]]]]];
          destruct Hin as [? | [? | []]]; discriminate.
      - exfalso. apply Hno, list_elem_of_In. simpl in Hin |- *. tauto. }
    pose proof (Hst "online" ltac:(simpl; tauto) Hon).
    pose proof (Hst "offline" ltac:(simpl; tauto) Hoff). congruence.
  - intros Hb. apply Hc. right. right. split; [done |].
    rewrite list_elem_of_In. simpl. intuition discriminate.
Qed.

(** X26.  The class [none] that going offline puts on the indicator is
    never taken off again: after the connection is lost and a later speed
    test settles, the indicator carries [online] and the measured quality,
    no longer [offline], and still [none]. *)
Theorem offline_class_outlives_reconnect toFixed1 latency speed ns ind :
  networkIndicator ns = Some ind →
  let ns1 := fst (handleOffline toFixed1 ns) in
  let ns2 := monitorSettled toFixed1 latency speed ns1 in
  ∃ ind1 ind2,
    networkIndicator ns1 = Some ind1 ∧ networkIndicator ns2 = Some ind2
    ∧ "offline" ∈ classList ind1 ∧ "none" ∈ classList ind1
    ∧ ("online" ∉ classList ind1)
    ∧ "online" ∈ classList ind2 ∧ getConnectionQuality speed ∈ classList ind2
    ∧ ("offline" ∉ classList ind2)
    ∧ "none" ∈ classList ind2.
Proof.
  intros Hi. cbv zeta. unfold handleOffline, monitorSettled. cbn [fst].
  destruct (updateNetworkStatus_classes toFixed1 "offline" "none" 0 0 ns ind Hi eq_refl)
    as (ind1 & E1 & Hc1 & _).
  assert (truthy (getConnectionQuality speed) = true) as Ht.
  { rewrite quality_cases.
    repeat match goal with
           | |- context [(?a <=? ?b)%Z] => destruct (a <=? b)%Z
           end; reflexivity. }
  destruct (updateNetworkStatus_classes toFixed1 "online" (getConnectionQuality speed)
              speed latency _ ind1 E1 Ht) as (ind2 & E2 & Hc2 & _).
  exists ind1, ind2.
  assert ("none" ∈ classList ind1) as Hnone by (apply Hc1; tauto).
  assert (getConnectionQuality speed ≠ "offline") as Hq.
  { rewrite quality_cases.
    repeat match goal with
           | |- context [(?a <=? ?b)%Z] => destruct (a <=? b)%Z
           end; discriminate. }
  split_and!; [done | done | apply Hc1; tauto | done | | apply Hc2; tauto
              | apply Hc2; tauto | |].
  - rewrite Hc1. intros [? | [? | [_ Hno]]]; [done | done |].
    apply Hno, list_elem_of_In. simpl. tauto.
  - rewrite Hc2. intros [? | [? | [_ Hno]]]; [done | congruence |].
    apply Hno, list_elem_of_In. simpl. tauto.
  - apply Hc2. right. right. split; [done |].
    rewrite list_elem_of_In. simpl. intuition discriminate.
Qed.

(** X27.  Losing the connection is shown on an initialised indicator
    whatever it showed before: the label and the ARIA label read Offline,
    the label colour is cleared, every signal bar is switched off (and none
    is added or removed), the connection is not good, the reported speed
    is 0 and the user is warned; the pending queue is not touched. *)
Theorem offline_is_shown toFixed1 ns ind :
  networkIndicator ns = Some ind →
  let ns' := fst (handleOffline toFixed1 ns) in
  ∃ ind',
    networkIndicator ns' = Some ind'
    ∧ qualityText ind' = "Offline" ∧ qualityColor ind' = ""
    ∧ ariaLabel ind' = Some "Offline"
    ∧ Forall (λ b, b = false) (signalBars ind')
    ∧ length (signalBars ind') = length (signalBars ind)
    ∧ isGoodConnection ns' = false
    ∧ getConnectionSpeed ns' = 0
    ∧ pendingSync ns' = pendingSync ns
    ∧ snd (handleOffline toFixed1 ns)
      = [ShowMessage "You are offline. Some features may be limited." "warning"].
Proof.
  intros Hi. cbv zeta. unfold handleOffline. cbn [fst snd].
  unfold updateNetworkStatus. rewrite Hi. eexists. split; [reflexivity |].
  cbn [qualityText qualityColor ariaLabel signalBars pendingSync].
  split_and!; try reflexivity.
  - apply toggleBars_none.
  - apply toggleBars_length.
Qed.

(** ** The pending queue *)

Lemma assign_plain {A} key (entry : A) parsed :
  key ≠ "__proto__" → assign key entry parsed = <[key := entry]> parsed.
Proof.
  intros Hk. unfold assign. destruct (parsed !! key); [done |].
  destruct (String.eqb_spec key "__proto__"); [done | done].
Qed.

(** X28.  An entry queued under a key other than [__proto__] is stored:
    with a readable queue the stored queue maps the key to the data with
    the time of the call, keeps the entry of every other key, and the blob
    is written once; queuing again under the same key replaces the entry,
    so the queue is as if only the later call had been made. *)
Theorem queued_entry_is_stored now key data ns parsed :
  jsonParse ∅ (pendingSync ns) = Some parsed →
  key ≠ "__proto__" →
  let '(ns', ev) := queueForSync now key data ns in
  ev = [StorageSetItem "pendingSync"]
  ∧ networkStatus ns' = networkStatus ns
  ∧ networkIndicator ns' = networkIndicator ns
  ∧ (∃ m, pendingSync ns' = Parsed m
          ∧ m !! key = Some {| pendingData := data; pendingTimestamp := now |}
          ∧ ∀ k, k ≠ key → m !! k = parsed !! k)
  ∧ ∀ now' data',
      pendingSync (fst (queueForSync now' key data' ns'))
      = pendingSync (fst (queueForSync now' key data' ns)).
Proof.
  intros Hp Hk. unfold queueForSync. rewrite Hp. cbn [setPendingSync pendingSync
    networkStatus networkIndicator jsonParse fst].
  rewrite assign_plain by done.
  split_and!; [done | done | done | |].
  - eexists. split; [reflexivity |]. split; [apply lookup_insert_eq |].
    intros k Hne. by rewrite lookup_insert_ne.
  - intros now' data'. rewrite !assign_plain by done.
    cbn [setPendingSync pendingSync fst]. by rewrite insert_insert_eq.
Qed.

(** X29.  Two calls of [queueForSync] that store nothing: with an
    unreadable queue the call logs the failure and leaves the state as it
    is; and the key [__proto__] on a queue that has no entry of that name
    adds no entry, the queue is written back with the entries it had. *)
Theorem queue_stores_nothing now key data ns :
  (pendingSync ns = Unparseable →
   queueForSync now key data ns = (ns, [Console LError "Error queuing data for sync:"]))
  ∧ (∀ parsed, jsonParse ∅ (pendingSync ns) = Some parsed →
       key = "__proto__" → parsed !! key = None →
       pendingSync (fst (queueForSync now key data ns)) = Parsed parsed
       ∧ snd (queueForSync now key data ns) = [StorageSetItem "pendingSync"]).
Proof.
  split.
  - intros Hu. unfold queueForSync. by rewrite Hu.
  - intros parsed Hp -> Hn. unfold queueForSync. rewrite Hp. unfold assign.
    by rewrite Hn.
Qed.

(** X30.  Coming back online discards the pending queue without sending
    it: [syncPendingData] issues no remote write, and afterwards the queue
    is gone unless it was unreadable, in which case the state is left as
    it is; so an entry queued while offline is no longer stored after
    [handleOnline], and none of the effects of the handler is a write to
    the remote store. *)
Theorem reconnect_discards_queue toFixed1 now key data ns :
  (let '(ns', ev) := syncPendingData ns in
   Forall (λ e, isRemoteWrite e = false) ev
   ∧ (pendingSync ns' = Absent ∨ (pendingSync ns = Unparseable ∧ ns' = ns)))
  ∧ (pendingSync ns ≠ Unparseable →
     let ns1 := fst (queueForSync now key data ns) in
     let '(ns2, ev) := handleOnline toFixed1 ns1 in
     pendingSync ns2 = Absent
     ∧ ev = [ShowMessage "Connection restored!" "success";
             ShowMessage "Syncing your data..." "info"]
     ∧ Forall (λ e, isRemoteWrite e = false) ev).
Proof.
  split.
  - unfold syncPendingData. destruct (pendingSync ns) eqn:E.
    + split; [constructor | left; done].
    + split; [by repeat constructor | right; done].
    + split; [by repeat constructor | left; done].
  - intros Hu. cbv zeta.
    assert (∃ m, pendingSync (fst (queueForSync now key data ns)) = Parsed m) as [m Hm].
    { unfold queueForSync. destruct (pendingSync ns); [| done |]; simpl; by eexists. }
    unfold handleOnline, monitorStarted.
    set (ns1 := fst (queueForSync now key data ns)) in *.
    set (nsA := updateNetworkStatus toFixed1 "online" "good" 0 0 ns1).
    assert (pendingSync nsA = Parsed m) as HA.
    { unfold nsA. by rewrite updateNetworkStatus_pending. }
    assert (pendingSync (fst (if onLine nsA then (nsA, true)
                              else (updateNetworkStatus toFixed1 "offline" "none" 0 0 nsA,
                                    false))) = Parsed m) as HB.
    { destruct (onLine nsA); cbn [fst]; [done |].
      by rewrite updateNetworkStatus_pending. }
    unfold syncPendingData. rewrite HB. cbn [setPendingSync pendingSync].
    split_and!; [done | done | by repeat constructor].
Qed.

(** ** The further properties at concrete inputs *)

Lemma upsert_lookup_witness :
  ∃ stored',
    fst (saveJournalToLocalStorage submitAt aliceLocal (storageWith [aliceLocal]))
    = setLocalJournals (Parsed stored') (storageWith [aliceLocal])
    ∧ findById "local-1" stored' = Some (withUpdatedAt submitAt aliceLocal)
    ∧ length stored' = 1%nat.
Proof.
  destruct (upsert_lookup submitAt aliceLocal (storageWith [aliceLocal]) [aliceLocal]
              eq_refl) as (stored' & H1 & H2 & _ & H3 & _).
  exists stored'. split_and!; [exact H1 | exact H2 | exact H3].
Defined.

Lemma offline_create_then_delete_witness :
  let st1 :=
    fst (handleJournalSubmit loadedAt submitAt "r4nd0m" TimedOut TimedOut aliceWriting) in
  let st2 := fst (deleteJournal loadedAt true (Ok tt) "local-1700000060000-r4nd0m" st1) in
  "local-1700000060000-r4nd0m" ∈ ids (storedJournals st1)
  ∧ storedJournals st2 = []
  ∧ userJournals st2 = []
  ∧ allJournals st2 = [aliceRemote].
Proof.
  apply (offline_create_then_delete loadedAt submitAt "r4nd0m" TimedOut TimedOut (Ok tt)
           aliceWriting alice []); try reflexivity.
  - discriminate.
  - apply not_elem_of_nil.
  - apply not_elem_of_nil.
Defined.

Lemma offline_create_is_listed_witness :
  let st1 :=
    fst (handleJournalSubmit loadedAt submitAt "r4nd0m" TimedOut TimedOut aliceWriting) in
  let st2 := fst (loadUserJournalsSettled loadedAt (Failed "unavailable") st1) in
  ∃ j, j ∈ userJournals st2
       ∧ Journal.id j = "local-1700000060000-r4nd0m"
       ∧ Journal.title j = "T1"
       ∧ Journal.content j = "C1"
       ∧ Journal.tags j = ["x"; "y"].
Proof.
  apply (offline_create_is_listed loadedAt submitAt "r4nd0m" TimedOut TimedOut "unavailable"
           aliceWriting alice []); try reflexivity.
  discriminate.
Defined.

Lemma tags_survive_edit_form_witness :
  parseTags (trim (String.concat ", " ["travel"; "first post"])) = ["travel"; "first post"].
Proof.
  apply tags_survive_edit_form.
  constructor; [| constructor; [| constructor]];
    (split; [discriminate | split; [reflexivity | split; [reflexivity |]]]);
    unfold noComma; cbn [list_ascii_of_string];
    repeat (constructor; [discriminate |]); constructor.
Defined.

Lemma submit_rejected_untouched_witness :
  ∃ msg,
    handleJournalSubmit loadedAt submitAt "r4nd0m" TimedOut TimedOut
      (setForm blankTitleForm aliceWriting)
    = (setForm blankTitleForm aliceWriting, [ShowMessage msg "error"]).
Proof.
  apply submit_rejected_untouched. right. left.
  unfold blank. cbn. repeat (constructor; [reflexivity |]). constructor.
Defined.

Lemma update_keeps_owned_list_witness :
  let st' :=
    fst (handleJournalSubmit loadedAt submitAt "r4nd0m" TimedOut TimedOut aliceEditing) in
  ids (userJournals st') = ["doc1"]
  ∧ findById "doc1" (userJournals st')
    = Some (withFields "Hello again" "Edited" ["intro"; "edit"] submitAt aliceRemote).
Proof.
  pose proof (update_keeps_owned_list loadedAt submitAt "r4nd0m" TimedOut TimedOut
                aliceEditing alice eq_refl eq_refl eq_refl eq_refl) as (H1 & H2 & _).
  cbv zeta. split; [exact H1 | exact H2].
Defined.

Lemma update_keeps_stale_translation_witness :
  let st' :=
    fst (handleJournalSubmit loadedAt submitAt "r4nd0m" TimedOut
           (Settled {| success := true; error := "" |}) aliceEditingEs) in
  ∃ j' cs,
    findById "doc1" (allJournals st') = Some j'
    ∧ Journal.title j' = "Hello again"
    ∧ journalsContainer st' = Some (Cards cs)
    ∧ renderCard (Some "es") (Some alice) (isOwner (Some alice)) j' ∈ cs
    ∧ card_title (renderCard (Some "es") (Some alice) (isOwner (Some alice)) j') = "Hola".
Proof.
  apply (update_keeps_stale_translation loadedAt submitAt "r4nd0m" TimedOut
           (Settled {| success := true; error := "" |}) aliceEditingEs alice (Cards [])
           aliceRemoteEs hola); reflexivity.
Defined.

Lemma merged_cards_follow_owner_witness :
  ∃ cs,
    journalsContainer (fst (displayCombinedJournals loadedAt sharedDevice))
    = Some (Cards cs)
    ∧ cs ≠ []
    ∧ Forall2
        (λ j c, card_id c = Journal.id j
                ∧ card_ownerBadge c = card_actions c
                ∧ (card_actions c = true ↔ Journal.userId j = Some "bob"))
        (combinedJournals loadedAt sharedDevice) cs.
Proof.
  apply (merged_cards_follow_owner loadedAt sharedDevice (Cards [])). reflexivity.
Defined.

Lemma guest_view_after_load_witness :
  let st' := fst (loadAllJournalsSettled loadedAt (Ok [aliceRemote]) guest) in
  shownIds st' = ["doc1"] ∧ readOnlyView st' ∧ allJournals st' = [aliceRemote].
Proof.
  apply (guest_view_after_load loadedAt (Ok [aliceRemote]) guest (Cards [])). reflexivity.
Defined.

Lemma remote_delete_leaves_card_witness :
  let st' := fst (deleteJournal loadedAt true (Ok tt) "doc1" aliceEditing) in
  ("doc1" ∉ ids (userJournals st'))
  ∧ allJournals st' = [aliceRemote]
  ∧ "doc1" ∈ shownIds st'.
Proof.
  apply (remote_delete_leaves_card loadedAt "doc1" aliceEditing (Cards []));
    [reflexivity | reflexivity | apply list_elem_of_here].
Defined.

Lemma translation_is_added_beside_witness :
  let j1 := (translateJournal (Ok tt) None aliceLocal "es" (storageWith [aliceLocal])).1.1 in
  Journal.title j1 = "Offline note"
  ∧ cached j1 "es" = Some (synthesised None "es" aliceLocal)
  ∧ getTranslatedJournalData j1 "es"
    = Translation.mk "[ES] Offline note" "[ES] Written on the train" ["[ES] travel"].
Proof.
  pose proof (translation_is_added_beside (Ok tt) None aliceLocal "es"
                (storageWith [aliceLocal]) eq_refl eq_refl eq_refl eq_refl)
    as (H1 & _ & _ & H2 & _ & H3 & _).
  cbv zeta. split_and!; [exact H1 | exact H2 | exact H3].
Defined.

Lemma saved_translation_is_loaded_witness :
  fst (loadTranslationsFromLocalStorage "local-1"
         (fst (saveTranslationToLocalStorage "local-1" "es" hola emptyStorage)))
  !! "es" = Some hola.
Proof.
  pose proof (saved_translation_is_loaded "local-1" "es" hola emptyStorage eq_refl
                ltac:(discriminate)) as (_ & H & _).
  exact H.
Defined.


Lemma halfDraw_in_range n : (0 < n)%Z → (0 ≤ halfDraw n < n)%Z.
Proof.
  intros Hn. unfold halfDraw. split; [apply Z.div_pos; lia |].
  apply Z.div_lt_upper_bound; lia.
Qed.

Lemma estimate_quality_by_latency_witness :
  let speed := estimateSpeedFromLatency halfDraw 120 in
  (50 ≤ speed < 4000)%Z
  ∧ getConnectionQuality speed = "good"
  ∧ getConnectionQuality speed ≠ "verySlow".
Proof. exact (estimate_quality_by_latency halfDraw 120 halfDraw_in_range). Defined.

Lemma measured_speed_is_clamped_witness :
  (0 ≤ measureDownloadSpeed halfDraw (Failed "Timeout") 120 ≤ 10000)%Z.
Proof. exact (measured_speed_is_clamped halfDraw (Failed "Timeout") 120 halfDraw_in_range). Defined.

Lemma quality_is_highest_threshold_witness :
  ∃ min color,
    threshold (getConnectionQuality 750) SPEED_THRESHOLDS = Some (min, color)
    ∧ (min ≤ 750)%Z
    ∧ ∀ q min' color',
        threshold q SPEED_THRESHOLDS = Some (min', color') →
        (min' ≤ 750)%Z → (min' ≤ min)%Z.
Proof. apply quality_is_highest_threshold. lia. Defined.

Lemma indicator_classes_after_update_witness :
  ∃ ind',
    networkIndicator (updateNetworkStatus showZ "online" "fair" 300 80 pageLoaded)
    = Some ind'
    ∧ ("online" ∈ classList ind' → "offline" ∉ classList ind')
    ∧ "network-indicator" ∈ classList ind'.
Proof.
  destruct (indicator_classes_after_update showZ "online" "fair" 300 80 pageLoaded
              freshIndicator eq_refl (or_introl eq_refl)
              (or_intror (or_intror (or_introl eq_refl))))
    as (ind' & E & _ & _ & Hx & Hb).
  exists ind'. split_and!; [exact E | exact Hx | apply Hb, list_elem_of_here].
Defined.

Lemma offline_class_outlives_reconnect_witness :
  let ns1 := fst (handleOffline showZ pageLoaded) in
  let ns2 := monitorSettled showZ 80 300 ns1 in
  ∃ ind1 ind2,
    networkIndicator ns1 = Some ind1 ∧ networkIndicator ns2 = Some ind2
    ∧ "offline" ∈ classList ind1 ∧ "none" ∈ classList ind1
    ∧ ("online" ∉ classList ind1)
    ∧ "online" ∈ classList ind2 ∧ "fair" ∈ classList ind2
    ∧ ("offline" ∉ classList ind2)
    ∧ "none" ∈ classList ind2.
Proof.
  exact (offline_class_outlives_reconnect showZ 80 300 pageLoaded freshIndicator eq_refl).
Defined.

Lemma offline_is_shown_witness :
  let ns' := fst (handleOffline showZ pageLoaded) in
  ∃ ind',
    networkIndicator ns' = Some ind'
    ∧ qualityText ind' = "Offline" ∧ qualityColor ind' = ""
    ∧ ariaLabel ind' = Some "Offline"
    ∧ Forall (λ b, b = false) (signalBars ind')
    ∧ length (signalBars ind') = 4%nat
    ∧ isGoodConnection ns' = false
    ∧ getConnectionSpeed ns' = 0
    ∧ pendingSync ns' = Absent
    ∧ snd (handleOffline showZ pageLoaded)
      = [ShowMessage "You are offline. Some features may be limited." "warning"].
Proof. exact (offline_is_shown showZ pageLoaded freshIndicator eq_refl). Defined.

Lemma queued_entry_is_stored_witness :
  ∃ m,
    pendingSync (fst (queueForSync submitAt "draft" "hello" pageLoaded)) = Parsed m
    ∧ m !! "draft" = Some {| pendingData := "hello"; pendingTimestamp := submitAt |}.
Proof.
  pose proof (queued_entry_is_stored submitAt "draft" "hello" pageLoaded ∅ eq_refl
                ltac:(discriminate)) as H.
  destruct (queueForSync submitAt "draft" "hello" pageLoaded) as [ns' ev].
  destruct H as (_ & _ & _ & (m & H1 & H2 & _) & _).
  exists m. split; [exact H1 | exact H2].
Defined.
